(** * hugo-calendar: a shallow embedding of the terminal calendar renderer

    The program walks the posts of a Hugo project, counts the non-draft
    posts per day in a [map[string]int] keyed by ["2006-01-02"] dates, and
    prints one month grid per calendar month, several side by side when
    the terminal is wide enough.

    The file has two parts.  The first part holds the definitions: models
    of the library functions the program calls (packages [time],
    [strings], [fmt] and [color]) followed by the functions of package
    [main], translated one by one.  The second part holds the lemmas and
    the theorems about them. *)

From Stdlib Require Import ZArith Lia Ascii.
From stdpp Require Import gmap strings list sorting.

Local Open Scope Z_scope.

(* ===================================================================== *)
(** * Part I: definitions                                                 *)
(* ===================================================================== *)

(** ** Bytes and decimal digits

    Go strings are byte strings; they are modelled by [string], whose
    characters are the 256 [ascii] values. *)

Module strconv.

Definition byteVal (c : ascii) : Z := Z.of_N (Ascii.N_of_ascii c).

Definition isDigit (c : ascii) : bool := (48 <=? byteVal c) && (byteVal c <=? 57).

Definition digitVal (c : ascii) : Z := byteVal c - 48.

(** The character ['0' + d]. *)
Definition digitChar (d : Z) : ascii := Ascii.ascii_of_N (Z.to_N (48 + d)).

(** The decimal digits of [u >= 0], most significant first, put in front
    of [acc].  A number below [2 ^ fuel] has at most [fuel] digits. *)
Fixpoint digitsFuel (fuel : nat) (u : Z) (acc : string) : string :=
  match fuel with
  | O => acc
  | S fuel' =>
      let acc' := String (digitChar (u mod 10)) acc in
      if u <? 10 then acc' else digitsFuel fuel' (u / 10) acc'
  end.

Definition utoa (u : Z) : string :=
  digitsFuel (S (Z.to_nat (Z.log2 u))) u "".

(** [strconv.Itoa]. *)
Definition Itoa (x : Z) : string :=
  if x <? 0 then String "-" (utoa (- x)) else utoa x.

(** The value of a string of decimal digits, read left to right. *)
Fixpoint digitsVal (acc : Z) (s : string) : Z :=
  match s with
  | EmptyString => acc
  | String c s' => digitsVal (10 * acc + digitVal c) s'
  end.

End strconv.

(** ** Package [strings] *)

Module strings.

Definition HasPrefix (s prefix : string) : bool := String.prefix prefix s.

Fixpoint Contains (s substr : string) : bool :=
  String.prefix substr s ||
  match s with
  | EmptyString => false
  | String _ s' => Contains s' substr
  end.

Fixpoint Join (elems : list string) (sep : string) : string :=
  match elems with
  | [] => ""
  | [e] => e
  | e :: rest => e +:+ sep +:+ Join rest sep
  end.

Fixpoint Repeat (s : string) (count : nat) : string :=
  match count with
  | O => ""
  | S n => s +:+ Repeat s n
  end.

End strings.

(** ** Package [time]

    A [Time] is a wall-clock instant: the number of days since
    0001-01-01 of the proleptic Gregorian calendar (day 0, a Monday) and
    the seconds elapsed within that day.  Every comparison the program
    makes is between midnight UTC values; the two instants with a time of
    day, [time.Now()] and a post's date, are only ever formatted. *)

Module time.

Record Time : Type := mkTime { absDay : Z; daySec : Z }.

Definition daysPer400Years : Z := 146097.
Definition daysPer100Years : Z := 36524.
Definition daysPer4Years : Z := 1461.

Definition isLeap (year : Z) : bool :=
  (year mod 4 =? 0) && (negb (year mod 100 =? 0) || (year mod 400 =? 0)).

(** [daysBefore m] is the number of days of a non-leap year before month
    [m+1]; the table has an entry for [m = 12]. *)
Definition daysBefore (m : Z) : Z :=
  match m with
  | 0 => 0
  | 1 => 31
  | 2 => 59
  | 3 => 90
  | 4 => 120
  | 5 => 151
  | 6 => 181
  | 7 => 212
  | 8 => 243
  | 9 => 273
  | 10 => 304
  | 11 => 334
  | 12 => 365
  | _ => 0
  end.

Definition daysIn (month year : Z) : Z :=
  if (month =? 2) && isLeap year then 29
  else daysBefore month - daysBefore (month - 1).

(** Days from 0001-01-01 to January 1 of [year]. *)
Definition daysSinceEpoch (year : Z) : Z :=
  let y := year - 1 in
  let n := y / 400 in
  let y := y - 400 * n in
  let d := daysPer400Years * n in
  let n := y / 100 in
  let y := y - 100 * n in
  let d := d + daysPer100Years * n in
  let n := y / 4 in
  let y := y - 4 * n in
  let d := d + daysPer4Years * n in
  d + 365 * y.

(** [time.Date(year, month, day, 0, 0, 0, 0, time.UTC)].  The month is
    normalised into 1..12 by carrying into the year; the day is not
    restricted, so that day 0 is the last day of the month before. *)
Definition Date (year month day : Z) : Time :=
  let m := month - 1 in
  let year := year + m / 12 in
  let m := m mod 12 in
  let d := daysSinceEpoch year + daysBefore m in
  let d := if isLeap year && (2 <=? m) then d + 1 else d in
  mkTime (d + (day - 1)) 0.

(** The year of a day number and the 0-based day within that year. *)
Definition absYear (d : Z) : Z * Z :=
  let n := d / daysPer400Years in
  let y := 400 * n in
  let d := d - daysPer400Years * n in
  let n := d / daysPer100Years in
  let n := n - n / 4 in
  let y := y + 100 * n in
  let d := d - daysPer100Years * n in
  let n := d / daysPer4Years in
  let y := y + 4 * n in
  let d := d - daysPer4Years * n in
  let n := d / 365 in
  let n := n - n / 4 in
  let y := y + n in
  let d := d - 365 * n in
  (y + 1, d).

(** Month and day of the month of the 0-based day [yday] of a year. *)
Definition yearDay (leap : bool) (yday : Z) : Z * Z :=
  if leap && (yday =? 31 + 29 - 1) then (2, 29)
  else
    let day := if leap && (31 + 29 - 1 <? yday) then yday - 1 else yday in
    let month := day / 31 in
    let end_ := daysBefore (month + 1) in
    if end_ <=? day then (month + 2, day - end_ + 1)
    else (month + 1, day - daysBefore month + 1).

(** (year, month, day) of a day number. *)
Definition absDate (d : Z) : Z * Z * Z :=
  let '(year, yday) := absYear d in
  let '(month, day) := yearDay (isLeap year) yday in
  (year, month, day).

Definition Year (t : Time) : Z := (absDate (absDay t)).1.1.
Definition Month (t : Time) : Z := (absDate (absDay t)).1.2.
Definition Day (t : Time) : Z := (absDate (absDay t)).2.

(** 0 = Sunday. *)
Definition Weekday (t : Time) : Z := (absDay t + 1) mod 7.

(** [t.AddDate(years, months, days)] for a midnight value. *)
Definition AddDate (t : Time) (years months days : Z) : Time :=
  Date (Year t + years) (Month t + months) (Day t + days).

Definition Before (t u : Time) : bool :=
  (absDay t <? absDay u) || ((absDay t =? absDay u) && (daySec t <? daySec u)).

Definition After (t u : Time) : bool :=
  (absDay u <? absDay t) || ((absDay t =? absDay u) && (daySec u <? daySec t)).


(** [appendInt(b, x, width)]: the decimal form of [x], zero-padded to
    [width] digits, after a minus sign when [x] is negative. *)
Definition appendInt (x : Z) (width : nat) : string :=
  let digits := strconv.utoa (Z.abs x) in
  let padded := strings.Repeat "0" (width - String.length digits) +:+ digits in
  if x <? 0 then String "-" padded else padded.

Definition monthName (m : Z) : string :=
  match m with
  | 1 => "January"
  | 2 => "February"
  | 3 => "March"
  | 4 => "April"
  | 5 => "May"
  | 6 => "June"
  | 7 => "July"
  | 8 => "August"
  | 9 => "September"
  | 10 => "October"
  | 11 => "November"
  | 12 => "December"
  | _ => "%!Month(" +:+ strconv.Itoa m +:+ ")"
  end.

(** [t.Format("2006-01-02")] *)
Definition Format_YMD (t : Time) : string :=
  appendInt (Year t) 4 +:+ "-" +:+ appendInt (Month t) 2 +:+ "-" +:+ appendInt (Day t) 2.

(** [t.Format("2006-01")] *)
Definition Format_YM (t : Time) : string :=
  appendInt (Year t) 4 +:+ "-" +:+ appendInt (Month t) 2.

(** [t.Format("January 2006")] *)
Definition Format_MonthYear (t : Time) : string :=
  monthName (Month t) +:+ " " +:+ appendInt (Year t) 4.

Definition num2 (a b : ascii) : Z := 10 * strconv.digitVal a + strconv.digitVal b.

Definition num4 (a b c d : ascii) : Z :=
  1000 * strconv.digitVal a + 100 * strconv.digitVal b
  + 10 * strconv.digitVal c + strconv.digitVal d.

(** [time.Parse("2006-01-02", value)]: exactly four digits, a dash, two
    digits, a dash, two digits; the month must be in 1..12 and the day
    must exist in that month.  [None] stands for a parse error. *)
Definition Parse_YMD (value : string) : option Time :=
  match String.list_ascii_of_string value with
  | [y1; y2; y3; y4; s1; m1; m2; s2; d1; d2] =>
      if forallb strconv.isDigit [y1; y2; y3; y4; m1; m2; d1; d2]
         && Ascii.eqb s1 "-" && Ascii.eqb s2 "-"
      then
        let year := num4 y1 y2 y3 y4 in
        let month := num2 m1 m2 in
        let day := num2 d1 d2 in
        if (1 <=? month) && (month <=? 12)
           && (1 <=? day) && (day <=? daysIn month year)
        then Some (Date year month day) else None
      else None
  | _ => None
  end.

(** [time.Parse("2006-01", value)]; the day defaults to 1. *)
Definition Parse_YM (value : string) : option Time :=
  match String.list_ascii_of_string value with
  | [y1; y2; y3; y4; s1; m1; m2] =>
      if forallb strconv.isDigit [y1; y2; y3; y4; m1; m2] && Ascii.eqb s1 "-"
      then
        let year := num4 y1 y2 y3 y4 in
        let month := num2 m1 m2 in
        if (1 <=? month) && (month <=? 12)
        then Some (Date year month 1) else None
      else None
  | _ => None
  end.

End time.

(** ** Package [fmt] *)

Module fmt.

(** [fmt.Sprintf("%2d", x)]: at least two characters, padded with spaces
    on the left. *)
Definition Sprintf_2d (x : Z) : string :=
  let s := strconv.Itoa x in
  strings.Repeat " " (2 - String.length s) +:+ s.

(** [fmt.Sprintf("%-20s", s)]: at least twenty characters, padded with
    spaces on the right. *)
Definition Sprintf_left20 (s : string) : string :=
  s +:+ strings.Repeat " " (20 - String.length s).

End fmt.

(** ** Package [color] (github.com/fatih/color)

    A colour object is the list of its attributes.  Its print functions
    surround the text with the escape sequence that selects the
    attributes and the one that resets them, unless colours are switched
    off ([color.NoColor], set when standard output is not a terminal). *)

Module color.

Inductive Attribute : Type := Bold | FgBlack | FgWhite | FgHiGreen | BgWhite.

Definition code (a : Attribute) : Z :=
  match a with
  | Bold => 1
  | FgBlack => 30
  | FgWhite => 37
  | BgWhite => 47
  | FgHiGreen => 92
  end.

Definition Color : Type := list Attribute.

(** [color.New(attrs...)] *)
Definition New (attrs : list Attribute) : Color := attrs.

Definition escape : string := String (Ascii.ascii_of_nat 27) "".

Definition sequence (c : Color) : string :=
  strings.Join (map (fun a => strconv.Itoa (code a)) c) ";".

Definition wrap (noColor : bool) (c : Color) (s : string) : string :=
  if noColor then s
  else escape +:+ "[" +:+ sequence c +:+ "m" +:+ s +:+ escape +:+ "[0m".

(** What a terminal shows of a string: the escape sequences, from the
    escape character to the letter [m] that ends them, take no room. *)
Fixpoint visible (inEscape : bool) (s : string) : string :=
  match s with
  | EmptyString => ""
  | String c s' =>
      if inEscape then visible (negb (Ascii.eqb c "m")) s'
      else if Ascii.eqb c (Ascii.ascii_of_nat 27) then visible true s'
      else String c (visible false s')
  end.

Definition visibleWidth (s : string) : nat := String.length (visible false s).

End color.

(** ** Package [main]

    Go's [int] has 64 bits.  The loop counters of the program stay below
    a few tens, the indices below the number of command-line arguments or
    of months, and a terminal width below 65536, so none of them wraps;
    they are integers of [Z].  The per-day counter is incremented once
    per post, and its increment is written with the wrap-around. *)

Inductive result (A : Type) : Type :=
  | Ok (a : A)
  | Err (msg : string).
Arguments Ok {A} a.
Arguments Err {A} msg.

Definition intWrap (x : Z) : Z := (x + 2 ^ 63) mod 2 ^ 64 - 2 ^ 63.

Definition len {A : Type} (l : list A) : Z := Z.of_nat (length l).

(** [l[i:j]] for [0 <= i <= j <= len(l)]. *)
Definition slice {A : Type} (l : list A) (i j : Z) : list A :=
  take (Z.to_nat (j - i)) (drop (Z.to_nat i) l).

Record PostFrontMatter : Type := mkPostFrontMatter {
  Title : string;
  Date : time.Time;
  Draft : bool
}.

Record Config : Type := mkConfig {
  ProjectPath : string;
  FilterText : string;
  ShowCounts : bool;
  Month : option string   (* YYYY-MM format, None means all months *)
}.

(** What [filepath.Walk] hands to the callback for one path: an error, or
    the base name of the file together with what [parsePostFile(path)]
    returns for it (front matter and body, or an error). *)
Inductive WalkEntry : Type :=
  | WalkErr (err : string)
  | WalkFile (path name : string) (parsed : result (PostFrontMatter * string)).

(** The result of the [TIOCGWINSZ] system call on standard input. *)
Record Ioctl : Type := mkIoctl { retCode : Z; errno : Z; wsCol : Z }.

(** Everything a run reads from outside. *)
Record World : Type := mkWorld {
  Args : list string;                    (* os.Args[1:] *)
  Now : time.Time;                       (* time.Now() *)
  NoColor : bool;                        (* color.NoColor *)
  Winsize : Ioctl;
  JoinPosts : string -> string;          (* filepath.Join(p, "content", "posts") *)
  PostsMissing : string -> bool;         (* os.IsNotExist of the os.Stat error *)
  Walk : string -> list WalkEntry;       (* the paths filepath.Walk visits *)
  RangeOrder : list string -> list string;
    (* the order in which [range] yields the keys of a map, given the
       keys: some permutation *)
  ParseErrText : string -> string        (* the text of a time.Parse error *)
}.

Record Outcome : Type := mkOutcome { stdout : list string; exitCode : Z }.

(** *** parseArgs *)

(** The loop of [parseArgs]; [args] is [args[i:]]. *)
Fixpoint parseArgs_loop (now : time.Time) (args : list string) (config : Config)
  : result Config :=
  match args with
  | [] => Ok config
  | arg :: rest =>
      if String.eqb arg "-f" || String.eqb arg "--filter" then
        match rest with
        | [] => Err "filter flag requires a value"
        | value :: rest' =>
            parseArgs_loop now rest'
              (mkConfig (ProjectPath config) value (ShowCounts config) (Month config))
        end
      else if String.eqb arg "-c" || String.eqb arg "--counts" then
        parseArgs_loop now rest
          (mkConfig (ProjectPath config) (FilterText config) true (Month config))
      else if String.eqb arg "-m" || String.eqb arg "--month" then
        (* Check if next arg exists and is not a flag *)
        match rest with
        | value :: rest' =>
            if negb (strings.HasPrefix value "-") then
              parseArgs_loop now rest'
                (mkConfig (ProjectPath config) (FilterText config) (ShowCounts config)
                   (Some value))
            else
              (* No value provided, use current month *)
              parseArgs_loop now rest
                (mkConfig (ProjectPath config) (FilterText config) (ShowCounts config)
                   (Some (time.Format_YM now)))
        | [] =>
            parseArgs_loop now rest
              (mkConfig (ProjectPath config) (FilterText config) (ShowCounts config)
                 (Some (time.Format_YM now)))
        end
      else if strings.HasPrefix arg "-" then
        Err ("unknown flag: " +:+ arg)
      else if String.eqb (ProjectPath config) "" then
        parseArgs_loop now rest
          (mkConfig arg (FilterText config) (ShowCounts config) (Month config))
      else Err ("unexpected argument: " +:+ arg)
  end.

Definition parseArgs (now : time.Time) (args : list string) : result Config :=
  if len args =? 0 then Err "missing project path"
  else
    match parseArgs_loop now args (mkConfig "" "" false None) with
    | Err e => Err e
    | Ok config =>
        if String.eqb (ProjectPath config) "" then Err "missing project path"
        else
          (* Validate month format if provided *)
          match Month config with
          | Some m =>
              match time.Parse_YM m with
              | None => Err ("invalid month format '" +:+ m +:+ "', expected YYYY-MM")
              | Some _ => Ok config
              end
          | None => Ok config
          end
    end.

(** *** getTerminalWidth *)

Definition getTerminalWidth (ws : Ioctl) : Z :=
  if (retCode ws =? -1) || negb (errno ws =? 0) then 80 else wsCol ws.

(** *** parsePostsAndCount

    The walk stops at the first error the callback returns.  The result
    is the map, the warnings printed and the error of the walk. *)

Definition increment (postCounts : gmap string Z) (dateKey : string) : gmap string Z :=
  <[dateKey := intWrap (default 0 (postCounts !! dateKey) + 1)]> postCounts.

Fixpoint walkPosts (entries : list WalkEntry) (filterText : string)
    (postCounts : gmap string Z) (out : list string)
  : gmap string Z * list string * option string :=
  match entries with
  | [] => (postCounts, out, None)
  | WalkErr err :: _ => (postCounts, out, Some err)
  | WalkFile path name parsed :: rest =>
      if String.eqb name "index.md" then
        match parsed with
        | Err err =>
            walkPosts rest filterText postCounts
              (out ++ ["Warning: Could not parse post file " +:+ path +:+ ": " +:+ err])
        | Ok (frontMatter, postBody) =>
            if Draft frontMatter then walkPosts rest filterText postCounts out
            else if negb (String.eqb filterText "")
                    && strings.Contains postBody filterText
            then walkPosts rest filterText postCounts out
            else
              let dateKey := time.Format_YMD (Date frontMatter) in
              walkPosts rest filterText (increment postCounts dateKey) out
        end
      else walkPosts rest filterText postCounts out
  end.

Definition parsePostsAndCount (entries : list WalkEntry) (filterText : string)
  : gmap string Z * list string * option string :=
  walkPosts entries filterText ∅ [].

(** *** parsePostFile

    The file is what [os.Open] answers: an error, or the lines that
    [scanner.Scan()] yields until it stops ([scanner.Err()] is never
    consulted).  [unmarshal] is [yaml.Unmarshal] into a zero
    [PostFrontMatter]. *)

Definition newline : string := String (Ascii.ascii_of_nat 10) "".

(** The variables of the scanning loop. *)
Record ScanState : Type := mkScanState {
  frontMatterLines : list string;
  bodyLines : list string;
  inFrontMatter : bool;
  frontMatterEnded : bool
}.

(** The body of [for scanner.Scan()]. *)
Definition scanLine (st : ScanState) (line : string) : ScanState :=
  if String.eqb line "---" then
    if negb (inFrontMatter st) then
      mkScanState (frontMatterLines st) (bodyLines st) true (frontMatterEnded st)
    else
      mkScanState (frontMatterLines st) (bodyLines st) (inFrontMatter st) true
  else if inFrontMatter st && negb (frontMatterEnded st) then
    mkScanState (frontMatterLines st ++ [line]) (bodyLines st) (inFrontMatter st)
      (frontMatterEnded st)
  else if frontMatterEnded st then
    mkScanState (frontMatterLines st) (bodyLines st ++ [line]) (inFrontMatter st)
      (frontMatterEnded st)
  else st.

Definition parsePostFile (unmarshal : string -> result PostFrontMatter)
    (file : result (list string)) : result (PostFrontMatter * string) :=
  match file with
  | Err err => Err err
  | Ok lines =>
      let st := foldl scanLine (mkScanState [] [] false false) lines in
      if negb (frontMatterEnded st) then Err "front matter not properly closed"
      else
        let frontMatterYAML := strings.Join (frontMatterLines st) newline in
        match unmarshal frontMatterYAML with
        | Err err => Err err
        | Ok frontMatter => Ok (frontMatter, strings.Join (bodyLines st) newline)
        end
  end.

(** *** generateCalendarGrid

    A cell of a week row is kept with the day it shows, the colour object
    that prints it and its text; the string the program appends to
    [rowParts] is [cellString] of it. *)

Inductive Cell : Type :=
  | Blank
  | DayCell (day : Z) (c : color.Color) (text : string).

Definition cellString (noColor : bool) (cell : Cell) : string :=
  match cell with
  | Blank => "  "
  | DayCell _ c text => color.wrap noColor c text
  end.

Definition rowString (noColor : bool) (rowParts : list Cell) : string :=
  strings.Join (map (cellString noColor) rowParts) " ".

Section GridLoops.

Variables (startWeekday daysInMonth : Z) (dayCell : Z -> Cell).

(** [for col := 0; col < 7; col++]: [n] columns are left from [col];
    yields the day counter and the row. *)
Fixpoint rowLoop (n : nat) (weekRow col day : Z) (rowParts : list Cell)
  : Z * list Cell :=
  match n with
  | O => (day, rowParts)
  | S n' =>
      if (weekRow =? 0) && (col <? startWeekday) then
        (* Empty cell before month starts *)
        rowLoop n' weekRow (col + 1) day (rowParts ++ [Blank])
      else if day <=? daysInMonth then
        (* Valid day in month *)
        rowLoop n' weekRow (col + 1) (day + 1) (rowParts ++ [dayCell day])
      else
        (* Empty cell after month ends *)
        rowLoop n' weekRow (col + 1) day (rowParts ++ [Blank])
  end.

(** [for day <= daysInMonth || weekRow == 0]; [None] when the fuel runs
    out before the loop ends. *)
Fixpoint gridLoop (fuel : nat) (day weekRow : Z) (grid : list (list Cell))
  : option (list (list Cell)) :=
  match fuel with
  | O => None
  | S fuel' =>
      if (day <=? daysInMonth) || (weekRow =? 0) then
        let '(day', rowParts) := rowLoop 7 weekRow 0 day [] in
        let grid' := grid ++ [rowParts] in
        (* Break if we've processed all days and this row is complete *)
        if daysInMonth <? day' then Some grid'
        else gridLoop fuel' day' (weekRow + 1) grid'
      else Some grid
  end.

End GridLoops.

(** The colour object and the text of a day, as the nested conditions of
    the program choose them. *)
Definition dayStyle (white brightGreen : color.Color) (showCounts : bool)
    (count day : Z) (isToday : bool) : color.Color * string :=
  if showCounts then
    if 0 <? count then
      if isToday then (color.New [color.FgBlack; color.BgWhite], fmt.Sprintf_2d count)
      else (brightGreen, fmt.Sprintf_2d count)
    else
      if isToday then (color.New [color.FgBlack; color.BgWhite], " 0")
      else (white, " 0")
  else
    if 0 <? count then
      if isToday then (color.New [color.FgBlack; color.BgWhite], fmt.Sprintf_2d day)
      else (brightGreen, fmt.Sprintf_2d day)
    else
      if isToday then (color.New [color.FgBlack; color.BgWhite], fmt.Sprintf_2d day)
      else (white, fmt.Sprintf_2d day).

Definition dayCellOf (now month : time.Time) (postCounts : gmap string Z)
    (white brightGreen : color.Color) (showCounts : bool) (day : Z) : Cell :=
  let dateKey :=
    time.Format_YMD (time.Date (time.Year month) (time.Month month) day) in
  let count := default 0 (postCounts !! dateKey) in
  let isToday := String.eqb dateKey (time.Format_YMD now) in
  let '(c, text) := dayStyle white brightGreen showCounts count day isToday in
  DayCell day c text.

(** First day of month and its weekday (0 = Sunday). *)
Definition startWeekdayOf (month : time.Time) : Z :=
  time.Weekday (time.Date (time.Year month) (time.Month month) 1).

(** The day of the last day of the month. *)
Definition daysInMonthOf (month : time.Time) : Z :=
  time.Day (time.AddDate (time.Date (time.Year month) (time.Month month) 1) 0 1 (-1)).

(** The loop runs at most once per day of the month, and once more. *)
Definition gridFuel (month : time.Time) : nat := S (Z.to_nat (daysInMonthOf month)).

Definition generateCalendarCells (fuel : nat) (now month : time.Time)
    (postCounts : gmap string Z) (white brightGreen : color.Color) (showCounts : bool)
  : option (list (list Cell)) :=
  gridLoop (startWeekdayOf month) (daysInMonthOf month)
    (dayCellOf now month postCounts white brightGreen showCounts)
    fuel 1 0 [].

Definition generateCalendarGrid (now : time.Time) (noColor : bool) (month : time.Time)
    (postCounts : gmap string Z) (white brightGreen : color.Color) (showCounts : bool)
  : option (list string) :=
  map (rowString noColor)
    <$> generateCalendarCells (gridFuel month) now month postCounts white brightGreen
          showCounts.

(** *** renderCalendarGrid *)

Definition calendarWidth : Z := 22.

(** Calendars per row; at least one. *)
Definition calendarsPerRowOf (terminalWidth : Z) : Z :=
  let calendarsPerRow := Z.quot terminalWidth calendarWidth in
  if calendarsPerRow <? 1 then 1 else calendarsPerRow.

Definition maxRowsOf (calendarGrids : list (list string)) : Z :=
  foldl (fun maxRows grid => if maxRows <? len grid then len grid else maxRows)
    0 calendarGrids.

(** One printed line of the calendars of a display row. *)
Definition gridLine (calendarGrids : list (list string)) (row : nat) : string :=
  strings.Join
    (map (fun grid : list string =>
            match grid !! row with
            | Some line => line
            | None => strings.Repeat " " 20
            end) calendarGrids) "  ".

(** The body of the loop of [renderCalendarGrid]: the lines printed for
    the months of one display row. *)
Definition displayRow (now : time.Time) (noColor : bool)
    (white brightGreen : color.Color) (rowMonths : list time.Time)
    (postCounts : gmap string Z) (showCounts : bool) : option (list string) :=
  (* Print month headers *)
  let headers :=
    strings.Join
      (map (fun month =>
              color.wrap noColor white
                (fmt.Sprintf_left20 (time.Format_MonthYear month))) rowMonths)
      "  " in
  (* Print day headers *)
  let dayHeaders :=
    strings.Join
      (map (fun _ : time.Time => color.wrap noColor white "Su Mo Tu We Th Fr Sa")
         rowMonths)
      "  " in
  (* Generate calendar grids for this row *)
  calendarGrids ←
    mapM (fun month =>
            generateCalendarGrid now noColor month postCounts white brightGreen
              showCounts) rowMonths;
  let maxRows := maxRowsOf calendarGrids in
  (* Print calendar rows *)
  let body := map (gridLine calendarGrids) (seq 0 (Z.to_nat maxRows)) in
  (* Extra space between calendar rows *)
  Some ([headers; dayHeaders] ++ body ++ [""]).

(** [for i := 0; i < len(months); i += calendarsPerRow]; yields the lines
    printed, [None] when the fuel runs out before the loop ends. *)
Fixpoint displayRows (fuel : nat) (now : time.Time) (noColor : bool)
    (calendarsPerRow : Z) (months : list time.Time) (postCounts : gmap string Z)
    (showCounts : bool) (i : Z) : option (list string) :=
  match fuel with
  | O => None
  | S fuel' =>
      if i <? len months then
        let white := color.New [color.FgWhite] in
        let brightGreen := color.New [color.FgHiGreen; color.Bold] in
        let end_ := i + calendarsPerRow in
        let end_ := if len months <? end_ then len months else end_ in
        let rowMonths := slice months i end_ in
        lines ← displayRow now noColor white brightGreen rowMonths postCounts
                  showCounts;
        rest ← displayRows fuel' now noColor calendarsPerRow months postCounts
                 showCounts (i + calendarsPerRow);
        Some (lines ++ rest)
      else Some []
  end.

Definition renderCalendarGrid (now : time.Time) (noColor : bool) (ws : Ioctl)
    (months : list time.Time) (postCounts : gmap string Z) (showCounts : bool)
  : option (list string) :=
  let terminalWidth := getTerminalWidth ws in
  displayRows (S (length months)) now noColor (calendarsPerRowOf terminalWidth)
    months postCounts showCounts 0.

(** *** renderCalendars *)

(** Find min and max dates. *)
Definition minMax (dates : list time.Time) (first : time.Time) : time.Time * time.Time :=
  foldl (fun '(minDate, maxDate) date =>
           (if time.Before date minDate then date else minDate,
            if time.After date maxDate then date else maxDate))
    (first, first) dates.

(** [for !current.After(end)] *)
Fixpoint monthsLoop (fuel : nat) (current end_ : time.Time) (months : list time.Time)
  : option (list time.Time) :=
  match fuel with
  | O => None
  | S fuel' =>
      if negb (time.After current end_) then
        monthsLoop fuel' (time.AddDate current 0 1 0) end_ (months ++ [current])
      else Some months
  end.

(** What [renderCalendars] decides before it renders: a parse error of
    the month filter, no date at all, or the months to show. *)
Inductive Selection : Type :=
  | BadMonth (value : string)
  | NoDates
  | Months (months : list time.Time).

Definition selectMonths (keys : list string) (monthFilter : option string)
  : option Selection :=
  match monthFilter with
  | Some value =>
      (* Single month mode - parse the target month *)
      match time.Parse_YM value with
      | None => Some (BadMonth value)
      | Some targetMonth =>
          Some (Months [time.Date (time.Year targetMonth) (time.Month targetMonth) 1])
      end
  | None =>
      (* Original behavior - show all months with posts *)
      let dates := omap time.Parse_YMD keys in
      match dates with
      | [] => Some NoDates
      | first :: _ =>
          let '(minDate, maxDate) := minMax dates first in
          (* Generate all months in range *)
          let current := time.Date (time.Year minDate) (time.Month minDate) 1 in
          let end_ := time.Date (time.Year maxDate) (time.Month maxDate) 1 in
          Months <$>
            monthsLoop (Z.to_nat (time.absDay end_ - time.absDay current) + 2)
              current end_ []
      end
  end.

(** [keys] is the order in which [range postCounts] yields the keys. *)
Definition renderCalendars (now : time.Time) (noColor : bool) (ws : Ioctl)
    (parseErrText : string -> string) (keys : list string)
    (postCounts : gmap string Z) (showCounts : bool) (monthFilter : option string)
  : option (list string) :=
  selection ← selectMonths keys monthFilter;
  match selection with
  | BadMonth value => Some ["Error parsing month filter: " +:+ parseErrText value]
  | NoDates => Some []
  | Months months => renderCalendarGrid now noColor ws months postCounts showCounts
  end.

(** *** main *)

Definition usage : list string :=
  [ "Usage: hugo-calendar <path-to-hugo-project> [options]";
    "Options:";
    "  -f, --filter TEXT    Exclude posts containing TEXT in their body";
    "  -c, --counts         Show post counts instead of day numbers";
    "  -m, --month YYYY-MM  Show only the specified month (default: current month)" ].

Definition main (w : World) : option Outcome :=
  match parseArgs (Now w) (Args w) with
  | Err err => Some (mkOutcome (["Error: " +:+ err; ""] ++ usage) 1)
  | Ok config =>
      let postsPath := JoinPosts w (ProjectPath config) in
      (* Check if posts directory exists *)
      if PostsMissing w postsPath then
        Some (mkOutcome ["Posts directory not found: " +:+ postsPath] 1)
      else
        (* Parse all posts and count by date *)
        let '(postCounts, warnings, err) :=
          parsePostsAndCount (Walk w postsPath) (FilterText config) in
        match err with
        | Some err => Some (mkOutcome (warnings ++ ["Error parsing posts: " +:+ err]) 1)
        | None =>
            if Z.of_nat (size postCounts) =? 0 then
              Some (mkOutcome (warnings ++ ["No posts found in the Hugo project."]) 0)
            else
              (* Render calendar *)
              lines ← renderCalendars (Now w) (NoColor w) (Winsize w) (ParseErrText w)
                        (RangeOrder w (map fst (map_to_list postCounts)))
                        postCounts (ShowCounts config) (Month config);
              Some (mkOutcome (warnings ++ lines) 0)
        end
  end.

(** ** The earlier version of the program ([main.go])

    It has no options and no notion of today; its grid loop is the same,
    and a day is bright green when it has posts and white otherwise. *)

Module v1.

Definition dayCellOf (month : time.Time) (postCounts : gmap string Z)
    (white brightGreen : color.Color) (day : Z) : Cell :=
  let dateKey :=
    time.Format_YMD (time.Date (time.Year month) (time.Month month) day) in
  if 0 <? default 0 (postCounts !! dateKey)
  then DayCell day brightGreen (fmt.Sprintf_2d day)
  else DayCell day white (fmt.Sprintf_2d day).

Definition generateCalendarCells (fuel : nat) (month : time.Time)
    (postCounts : gmap string Z) (white brightGreen : color.Color)
  : option (list (list Cell)) :=
  gridLoop (startWeekdayOf month) (daysInMonthOf month)
    (dayCellOf month postCounts white brightGreen) fuel 1 0 [].

Definition generateCalendarGrid (noColor : bool) (month : time.Time)
    (postCounts : gmap string Z) (white brightGreen : color.Color)
  : option (list string) :=
  map (rowString noColor)
    <$> generateCalendarCells (gridFuel month) month postCounts white brightGreen.

(** *** parseFrontMatter

    The scanning loop leaves at the second delimiter; it yields the
    lines of the front matter and whether the front matter ended. *)

Fixpoint scanFrontMatter (lines frontMatterLines : list string) (inFrontMatter : bool)
  : list string * bool :=
  match lines with
  | [] => (frontMatterLines, false)
  | line :: rest =>
      if String.eqb line "---" then
        if negb inFrontMatter then scanFrontMatter rest frontMatterLines true
        else (frontMatterLines, true)
      else if inFrontMatter
      then scanFrontMatter rest (frontMatterLines ++ [line]) inFrontMatter
      else scanFrontMatter rest frontMatterLines inFrontMatter
  end.

Definition parseFrontMatter (unmarshal : string -> result PostFrontMatter)
    (file : result (list string)) : result PostFrontMatter :=
  match file with
  | Err err => Err err
  | Ok lines =>
      let '(frontMatterLines, frontMatterEnded) := scanFrontMatter lines [] false in
      if negb frontMatterEnded then Err "front matter not properly closed"
      else unmarshal (strings.Join frontMatterLines newline)
  end.

(** *** parsePostsAndCount

    What [filepath.Walk] hands to the callback: an error, or the base
    name of the file with what [parseFrontMatter(path)] returns. *)

Inductive WalkEntry : Type :=
  | WalkErr (err : string)
  | WalkFile (path name : string) (parsed : result PostFrontMatter).

Fixpoint walkPosts (entries : list WalkEntry) (postCounts : gmap string Z)
    (out : list string) : gmap string Z * list string * option string :=
  match entries with
  | [] => (postCounts, out, None)
  | WalkErr err :: _ => (postCounts, out, Some err)
  | WalkFile path name parsed :: rest =>
      if String.eqb name "index.md" then
        match parsed with
        | Err err =>
            walkPosts rest postCounts
              (out ++ ["Warning: Could not parse front matter in " +:+ path +:+ ": "
                       +:+ err])
        | Ok frontMatter =>
            if Draft frontMatter then walkPosts rest postCounts out
            else
              let dateKey := time.Format_YMD (Date frontMatter) in
              walkPosts rest (increment postCounts dateKey) out
        end
      else walkPosts rest postCounts out
  end.

Definition parsePostsAndCount (entries : list WalkEntry)
  : gmap string Z * list string * option string :=
  walkPosts entries ∅ [].

(** *** renderCalendarGrid

    The terminal is taken to be 120 columns wide. *)

Definition terminalWidth : Z := 120.

Definition displayRow (noColor : bool) (white brightGreen : color.Color)
    (rowMonths : list time.Time) (postCounts : gmap string Z)
  : option (list string) :=
  (* Print month headers *)
  let headers :=
    strings.Join
      (map (fun month =>
              color.wrap noColor white
                (fmt.Sprintf_left20 (time.Format_MonthYear month))) rowMonths)
      "  " in
  (* Print day headers *)
  let dayHeaders :=
    strings.Join
      (map (fun _ : time.Time => color.wrap noColor white "Su Mo Tu We Th Fr Sa")
         rowMonths)
      "  " in
  (* Generate calendar grids for this row *)
  calendarGrids ←
    mapM (fun month => generateCalendarGrid noColor month postCounts white brightGreen)
      rowMonths;
  let maxRows := maxRowsOf calendarGrids in
  (* Print calendar rows *)
  let body := map (gridLine calendarGrids) (seq 0 (Z.to_nat maxRows)) in
  (* Extra space between calendar rows *)
  Some ([headers; dayHeaders] ++ body ++ [""]).

Fixpoint displayRows (fuel : nat) (noColor : bool) (calendarsPerRow : Z)
    (months : list time.Time) (postCounts : gmap string Z) (i : Z)
  : option (list string) :=
  match fuel with
  | O => None
  | S fuel' =>
      if i <? len months then
        let white := color.New [color.FgWhite] in
        let brightGreen := color.New [color.FgHiGreen; color.Bold] in
        let end_ := i + calendarsPerRow in
        let end_ := if len months <? end_ then len months else end_ in
        let rowMonths := slice months i end_ in
        lines ← displayRow noColor white brightGreen rowMonths postCounts;
        rest ← displayRows fuel' noColor calendarsPerRow months postCounts
                 (i + calendarsPerRow);
        Some (lines ++ rest)
      else Some []
  end.

Definition renderCalendarGrid (noColor : bool) (months : list time.Time)
    (postCounts : gmap string Z) : option (list string) :=
  let calendarsPerRow := Z.quot terminalWidth calendarWidth in
  displayRows (S (length months)) noColor calendarsPerRow months postCounts 0.

(** *** renderCalendars

    [sortSlice less dates] is the slice after [sort.Slice(dates, less)].
    The result is [None] when an index is out of range, or when the fuel
    of the month loop runs out. *)

Definition selectMonths
    (sortSlice : (time.Time -> time.Time -> bool) -> list time.Time -> list time.Time)
    (keys : list string) : option Selection :=
  let dates := omap time.Parse_YMD keys in
  if len dates =? 0 then Some NoDates
  else
    let dates := sortSlice time.Before dates in
    minDate ← dates !! 0%nat;
    maxDate ← dates !! Z.to_nat (len dates - 1);
    (* Generate all months in range *)
    let current := time.Date (time.Year minDate) (time.Month minDate) 1 in
    let end_ := time.Date (time.Year maxDate) (time.Month maxDate) 1 in
    Months <$>
      monthsLoop (Z.to_nat (time.absDay end_ - time.absDay current) + 2)
        current end_ [].

Definition renderCalendars
    (sortSlice : (time.Time -> time.Time -> bool) -> list time.Time -> list time.Time)
    (noColor : bool) (keys : list string) (postCounts : gmap string Z)
  : option (list string) :=
  selection ← selectMonths sortSlice keys;
  match selection with
  | Months months => renderCalendarGrid noColor months postCounts
  | _ => Some []
  end.

(** *** main

    Everything a run of the earlier version reads from outside. *)

Record World : Type := mkWorld {
  Args : list string;                       (* os.Args[1:] *)
  NoColor : bool;                           (* color.NoColor *)
  JoinPosts : string -> string;             (* filepath.Join(p, "content", "posts") *)
  PostsMissing : string -> bool;            (* os.IsNotExist of the os.Stat error *)
  Walk : string -> list WalkEntry;          (* the paths filepath.Walk visits *)
  RangeOrder : list string -> list string;  (* the order of [range] over the keys *)
  SortSlice : (time.Time -> time.Time -> bool) -> list time.Time -> list time.Time
}.

Definition main (w : World) : option Outcome :=
  match Args w with
  | [] => Some (mkOutcome ["Usage: hugo-calendar <path-to-hugo-project>"] 1)
  | projectPath :: _ =>
      let postsPath := JoinPosts w projectPath in
      (* Check if posts directory exists *)
      if PostsMissing w postsPath then
        Some (mkOutcome ["Posts directory not found: " +:+ postsPath] 1)
      else
        (* Parse all posts and count by date *)
        let '(postCounts, warnings, err) := parsePostsAndCount (Walk w postsPath) in
        match err with
        | Some err => Some (mkOutcome (warnings ++ ["Error parsing posts: " +:+ err]) 1)
        | None =>
            if Z.of_nat (size postCounts) =? 0 then
              Some (mkOutcome (warnings ++ ["No posts found in the Hugo project."]) 0)
            else
              (* Render calendar *)
              lines ← renderCalendars (SortSlice w) (NoColor w)
                        (RangeOrder w (map fst (map_to_list postCounts))) postCounts;
              Some (mkOutcome (warnings ++ lines) 0)
        end
  end.

End v1.

(** ** Vocabulary of the statements

    The definitions below are not part of the program; the lemmas and
    theorems of the second part are stated with them. *)

(** The integers [lo], [lo+1], ..., [lo+n-1]. *)
Definition rangeZ (lo : Z) (n : nat) : list Z :=
  map (fun k => lo + Z.of_nat k) (seq 0 n).

Definition leapDay (leap : bool) : Z := if leap then 1 else 0.

(** The 0-based day of the year of day [d] of month [m]. *)
Definition ydayOf (leap : bool) (m d : Z) : Z :=
  time.daysBefore (m - 1) + (if leap && (2 <=? m - 1) then 1 else 0) + (d - 1).

Definition monthLen (leap : bool) (m : Z) : Z :=
  if (m =? 2) && leap then 29 else time.daysBefore m - time.daysBefore (m - 1).

(** The month after [(year, month)], with the carry into the year. *)
Definition nextMonth (ym : Z * Z) : Z * Z :=
  if ym.2 =? 12 then (ym.1 + 1, 1) else (ym.1, ym.2 + 1).

(** The cell at position [p] of a month that starts on weekday [s] and
    has [D] days: positions count the cells of the grid row by row, so
    position [p] holds day [p - s + 1] when that is a day of the month. *)
Definition cellAt (s D : Z) (dayCell : Z -> Cell) (p : Z) : Cell :=
  let k := p - s + 1 in
  if (1 <=? k) && (k <=? D) then dayCell k else Blank.

(** The value of the day counter when the loops reach position [p]. *)
Definition dayAt (s D p : Z) : Z :=
  if p <? s then 1 else Z.min (p - s + 1) (D + 1).

Definition weekRowOf (s D : Z) (dayCell : Z -> Cell) (r : Z) : list Cell :=
  map (cellAt s D dayCell) (rangeZ (7 * r) 7).

(** Number of week rows: [ceil ((s + D) / 7)]. *)
Definition weekRows (s D : Z) : Z := (s + D + 6) / 7.

Definition monthGrid (s D : Z) (dayCell : Z -> Cell) : list (list Cell) :=
  map (weekRowOf s D dayCell) (rangeZ 0 (Z.to_nat (weekRows s D))).

(** The day a cell shows, if any. *)
Definition cellDay (cell : Cell) : option Z :=
  match cell with
  | Blank => None
  | DayCell day _ _ => Some day
  end.

(** The cell in row [r] and column [c] of a grid. *)
Definition gridCell (cells : list (list Cell)) (r c : nat) : option Cell :=
  row ← cells !! r; row !! c.

(** All the characters of a string are decimal digits. *)
Fixpoint allDigits (s : string) : bool :=
  match s with
  | EmptyString => true
  | String c s' => strconv.isDigit c && allDigits s'
  end.

(** The integer a string of digits, with or without a minus sign in
    front, stands for. *)
Definition signedVal (s : string) : Z :=
  match s with
  | EmptyString => 0
  | String c rest =>
      if Ascii.eqb c "-" then - strconv.digitsVal 0 rest else strconv.digitsVal 0 s
  end.

(** The colour object of the day that is today. *)
Definition todayColor : color.Color := color.New [color.FgBlack; color.BgWhite].

(** [t] falls on day [d] of month [m] of year [y]. *)
Definition sameCivilDate (t : time.Time) (y m d : Z) : bool :=
  (time.Year t =? y) && (time.Month t =? m) && (time.Day t =? d).

(** The number of posts the index holds for day [d] of [month]. *)
Definition countOn (postCounts : gmap string Z) (month : time.Time) (d : Z) : Z :=
  default 0
    (postCounts !! time.Format_YMD (time.Date (time.Year month) (time.Month month) d)).

(** What decides whether a walked file counts, and for which date key. *)
Definition eligibleKey (filterText : string) (entry : WalkEntry) : option string :=
  match entry with
  | WalkFile _ name (Ok (frontMatter, postBody)) =>
      if String.eqb name "index.md" && negb (Draft frontMatter)
         && negb (negb (String.eqb filterText "")
                  && strings.Contains postBody filterText)
      then Some (time.Format_YMD (Date frontMatter))
      else None
  | _ => None
  end.

Definition countStep (filterText : string) (postCounts : gmap string Z)
    (entry : WalkEntry) : gmap string Z :=
  match eligibleKey filterText entry with
  | Some dateKey => increment postCounts dateKey
  | None => postCounts
  end.

Definition isWalkFile (entry : WalkEntry) : bool :=
  match entry with
  | WalkErr _ => false
  | WalkFile _ _ _ => true
  end.

(** A list cut into pieces of [k] elements, the last one maybe shorter. *)
Fixpoint chunksFuel {A : Type} (fuel k : nat) (l : list A) : list (list A) :=
  match fuel with
  | O => []
  | S fuel' =>
      match l with
      | [] => []
      | _ :: _ => take k l :: chunksFuel fuel' k (drop k l)
      end
  end.

Definition chunks {A : Type} (k : nat) (l : list A) : list (list A) :=
  chunksFuel (length l) k l.

(** The first day of the month with index [j], where month [m] of year
    [y] has index [12 * y + (m - 1)]. *)
Definition monthIndex (t : time.Time) : Z := 12 * time.Year t + (time.Month t - 1).

Definition firstOfMonth (j : Z) : time.Time := time.Date 0 (j + 1) 1.

(** An index with posts on 2024-01-20 and 2024-03-03. *)
Definition scenarioC : gmap string Z :=
  <["2024-01-20" := 1]> (<["2024-03-03" := 2]> ∅).

(** A run that asks for February 2024 in a project without any post. *)
Definition worldNoPosts : World :=
  mkWorld ["blog"; "-m"; "2024-02"] (time.mkTime 738929 43200) true
    (mkIoctl 0 0 80) (fun p => p +:+ "/content/posts") (fun _ => false)
    (fun _ => []) (fun keys => keys) (fun value => value).

(** A hundred posts dated 2024-01-05, as the walk meets them. *)
Definition hundredPosts : list WalkEntry :=
  replicate 100
    (WalkFile "content/posts/p/index.md" "index.md"
       (Ok (mkPostFrontMatter "p" (time.Date 2024 1 5) false, "text"))).

(** A string without the escape character, and one without the letter
    that ends an escape sequence. *)
Fixpoint plain (s : string) : bool :=
  match s with
  | EmptyString => true
  | String c s' => negb (Ascii.eqb c (Ascii.ascii_of_nat 27)) && plain s'
  end.

Fixpoint noM (s : string) : bool :=
  match s with
  | EmptyString => true
  | String c s' => negb (Ascii.eqb c "m") && noM s'
  end.

(** The text a cell shows. *)
Definition cellText (cell : Cell) : string :=
  match cell with
  | Blank => "  "
  | DayCell _ _ text => text
  end.

(** A cell whose text has two visible characters and whose colour has a
    well-formed escape sequence. *)
Definition twoWide (cell : Cell) : Prop :=
  match cell with
  | Blank => True
  | DayCell _ c text =>
      noM (color.sequence c) = true /\ plain text = true /\
      String.length text = 2%nat
  end.

(** The number of delimiter lines of a file. *)
Definition delimiters (lines : list string) : nat :=
  length (filter (fun line => line = "---") lines).

(** An option of the command line with its value; [long] selects the
    long spelling of the flag. *)
Inductive CliOption : Type :=
  | OptFilter (long : bool) (text : string)
  | OptCounts (long : bool)
  | OptMonth (long : bool) (value : string).

(** The arguments that spell an option, and a list of options. *)
Definition optionArgs (o : CliOption) : list string :=
  match o with
  | OptFilter long text => [if long then "--filter" else "-f"; text]
  | OptCounts long => [if long then "--counts" else "-c"]
  | OptMonth long value => [if long then "--month" else "-m"; value]
  end.

Definition optionsArgs (opts : list CliOption) : list string :=
  concat (map optionArgs opts).

(** What an option changes in the configuration. *)
Definition applyOption (config : Config) (o : CliOption) : Config :=
  match o with
  | OptFilter _ text =>
      mkConfig (ProjectPath config) text (ShowCounts config) (Month config)
  | OptCounts _ =>
      mkConfig (ProjectPath config) (FilterText config) true (Month config)
  | OptMonth _ value =>
      mkConfig (ProjectPath config) (FilterText config) (ShowCounts config)
        (Some value)
  end.

(** The value of a month option does not look like a flag. *)
Definition optionOk (o : CliOption) : bool :=
  match o with
  | OptMonth _ value => negb (strings.HasPrefix value "-")
  | _ => true
  end.

(** The six spellings of the flags. *)
Definition isFlag (arg : string) : bool :=
  bool_decide (arg ∈ ["-f"; "--filter"; "-c"; "--counts"; "-m"; "--month"]).

(** A project path: not empty, and not taken for a flag. *)
Definition pathOk (path : string) : bool :=
  negb (String.eqb path "") && negb (strings.HasPrefix path "-").

(** What [parseArgs] answers once its loop has ended with [config]. *)
Definition validated (config : Config) : result Config :=
  if String.eqb (ProjectPath config) "" then Err "missing project path"
  else
    match Month config with
    | Some m =>
        match time.Parse_YM m with
        | None => Err ("invalid month format '" +:+ m +:+ "', expected YYYY-MM")
        | Some _ => Ok config
        end
    | None => Ok config
    end.

(** A walked file that counts as a post of day [d] of month [m] of year
    [y]: it is called [index.md], its front matter was read, it is no
    draft, its body does not contain the filter text, and its date falls
    on that day. *)
Definition countedOn (filterText : string) (y m d : Z) (entry : WalkEntry) : bool :=
  match entry with
  | WalkFile _ name (Ok (frontMatter, postBody)) =>
      String.eqb name "index.md" && negb (Draft frontMatter)
      && negb (negb (String.eqb filterText "")
               && strings.Contains postBody filterText)
      && sameCivilDate (Date frontMatter) y m d
  | _ => false
  end.

(** The number of posts of a day among the walked files. *)
Definition postsOn (filterText : string) (entries : list WalkEntry) (y m d : Z) : Z :=
  Z.of_nat (length (List.filter (countedOn filterText y m d) entries)).

(** The warning the walk prints for an entry, if any. *)
Definition warningOf (entry : WalkEntry) : option string :=
  match entry with
  | WalkFile path name (Err err) =>
      if String.eqb name "index.md"
      then Some ("Warning: Could not parse post file " +:+ path +:+ ": " +:+ err)
      else None
  | _ => None
  end.

(** A terminal shows [v] for the string [s], whatever follows [s]. *)
Definition shows (s v : string) : Prop :=
  forall rest, color.visible false (s +:+ rest) = v +:+ color.visible false rest.

(** A string that shows as twenty characters. *)
Definition twentyWide (s : string) : Prop :=
  exists v, shows s v /\ String.length v = 20%nat.

(** The entry the earlier version gets for a file: the front matter
    without the body. *)
Definition forgetBody (entry : WalkEntry) : v1.WalkEntry :=
  match entry with
  | WalkErr err => v1.WalkErr err
  | WalkFile path name (Ok (frontMatter, _)) => v1.WalkFile path name (Ok frontMatter)
  | WalkFile path name (Err err) => v1.WalkFile path name (Err err)
  end.

(** Today falls in [month]. *)
Definition inMonth (now month : time.Time) : bool :=
  (time.Year now =? time.Year month) && (time.Month now =? time.Month month).

(** A sort that does what [sort.Slice] promises: merge sort. *)
Definition mergeSort (less : time.Time -> time.Time -> bool) (dates : list time.Time)
  : list time.Time :=
  @merge_sort _ (fun a b => less b a = false)
    (fun a b => bool_eq_dec (less b a) false) dates.

(** A cell whose colour has a well-formed escape sequence and whose text
    holds no escape character. *)
Definition plainCell (cell : Cell) : Prop :=
  match cell with
  | Blank => True
  | DayCell _ c text => noM (color.sequence c) = true /\ plain text = true
  end.

(** The world [w] with another order of iteration over the keys of a map. *)
Definition withRangeOrder (w : World) (order : list string -> list string) : World :=
  mkWorld (Args w) (Now w) (NoColor w) (Winsize w) (JoinPosts w) (PostsMissing w)
    (Walk w) order (ParseErrText w).

(** The world of the earlier version that goes with a world of the later
    one: the same project, read without the bodies, and a sort. *)
Definition earlierWorld (w : World)
    (sortSlice : (time.Time -> time.Time -> bool) -> list time.Time -> list time.Time)
  : v1.World :=
  v1.mkWorld (Args w) (NoColor w) (JoinPosts w) (PostsMissing w)
    (fun postsPath => map forgetBody (Walk w postsPath)) (RangeOrder w) sortSlice.

(** A run on 2024-05-14 in a project with posts on 2024-01-20 and on
    2024-03-03, on a terminal of 120 columns. *)
Definition worldPosts : World :=
  mkWorld ["blog"] (time.Date 2024 5 14) true (mkIoctl 0 0 120)
    (fun p => p +:+ "/content/posts") (fun _ => false)
    (fun _ =>
       [WalkFile "a/index.md" "index.md"
          (Ok (mkPostFrontMatter "a" (time.Date 2024 1 20) false, "x"));
        WalkFile "b/index.md" "index.md"
          (Ok (mkPostFrontMatter "b" (time.Date 2024 3 3) false, "y"))])
    (fun keys => keys) (fun value => value).

(* ===================================================================== *)
(** * Part II: lemmas and theorems                                        *)
(* ===================================================================== *)

Local Ltac dlia := Z.to_euclidean_division_equations; lia.

(** [simpl] computes the appends of strings that start with a character. *)
Local Arguments String.append !_ _ / : simpl nomatch.

(** ** Checking a property on a finite range by evaluation *)

Lemma elem_of_rangeZ lo n x : lo <= x < lo + Z.of_nat n -> x ∈ rangeZ lo n.
Proof.
  intros H. unfold rangeZ. apply list_elem_of_fmap. exists (Z.to_nat (x - lo)).
  split; [lia|]. apply elem_of_seq. lia.
Qed.

Lemma forallb_rangeZ (f : Z -> bool) lo n :
  forallb f (rangeZ lo n) = true ->
  forall x, lo <= x < lo + Z.of_nat n -> f x = true.
Proof.
  intros H x Hx. rewrite forallb_forall in H. apply H.
  apply list_elem_of_In. by apply elem_of_rangeZ.
Qed.

(** ** The calendar of package [time] *)

Module TimeFacts.
Import time.

Lemma daysIn_monthLen m y : daysIn m y = monthLen (isLeap y) m.
Proof. reflexivity. Qed.

Lemma isLeap_spec y :
  isLeap y = true <-> (y mod 4 = 0 /\ (y mod 100 <> 0 \/ y mod 400 = 0)).
Proof.
  unfold isLeap. rewrite andb_true_iff, orb_true_iff, negb_true_iff.
  rewrite !Z.eqb_eq, Z.eqb_neq. tauto.
Qed.

(** A year, split along the 400-, 100- and 4-year cycles. *)
Lemma year_split y :
  exists q a b c,
    y = 400 * q + 100 * a + 4 * b + c + 1 /\
    0 <= a < 4 /\ 0 <= b < 25 /\ 0 <= c < 4 /\
    daysSinceEpoch y = 146097 * q + 36524 * a + 1461 * b + 365 * c /\
    isLeap y = (c =? 3) && (negb (b =? 24) || (a =? 3)).
Proof.
  exists ((y - 1) / 400), ((y - 1) mod 400 / 100),
    ((y - 1) mod 100 / 4), ((y - 1) mod 4).
  split; [dlia|]. split; [dlia|]. split; [dlia|]. split; [dlia|].
  split.
  - unfold daysSinceEpoch, daysPer400Years, daysPer100Years, daysPer4Years.
    cbv zeta. dlia.
  - apply eq_true_iff_eq. rewrite isLeap_spec.
    rewrite andb_true_iff, orb_true_iff, negb_true_iff, !Z.eqb_eq, Z.eqb_neq.
    dlia.
Qed.

Lemma absYear_spec y yd :
  0 <= yd < 365 + leapDay (isLeap y) ->
  absYear (daysSinceEpoch y + yd) = (y, yd).
Proof.
  intros H.
  destruct (year_split y) as (q & a & b & c & Hy & Ha & Hb & Hc & Hd & Hl).
  rewrite Hl in H. rewrite Hd. clear Hd Hl.
  assert (Hyd : 0 <= yd < 366 /\ (yd = 365 -> c = 3 /\ (b <> 24 \/ a = 3))).
  { unfold leapDay in H.
    destruct (c =? 3) eqn:E1; destruct (b =? 24) eqn:E2; destruct (a =? 3) eqn:E3;
      simpl in H; lia. }
  clear H.
  unfold absYear, daysPer400Years, daysPer100Years, daysPer4Years. cbv zeta.
  set (e := 146097 * q + 36524 * a + 1461 * b + 365 * c + yd).
  assert (H1 : e / 146097 = q) by (subst e; dlia).
  rewrite H1.
  set (e1 := e - 146097 * q).
  assert (He1 : e1 = 36524 * a + 1461 * b + 365 * c + yd) by (subst e1 e; lia).
  clearbody e1. clear H1. subst e1.
  set (e1 := 36524 * a + 1461 * b + 365 * c + yd).
  assert (H2 : e1 / 36524 - e1 / 36524 / 4 = a) by (subst e1; dlia).
  rewrite H2.
  set (e2 := e1 - 36524 * a).
  assert (He2 : e2 = 1461 * b + 365 * c + yd) by (subst e2 e1; lia).
  clearbody e2. clear H2. subst e2.
  set (e2 := 1461 * b + 365 * c + yd).
  assert (H3 : e2 / 1461 = b) by (subst e2; dlia).
  rewrite H3.
  set (e3 := e2 - 1461 * b).
  assert (He3 : e3 = 365 * c + yd) by (subst e3 e2; lia).
  clearbody e3. clear H3. subst e3.
  assert (H4 : (365 * c + yd) / 365 - (365 * c + yd) / 365 / 4 = c) by dlia.
  rewrite H4.
  f_equal; lia.
Qed.

Lemma absYear_inv n :
  exists y yd,
    absYear n = (y, yd) /\ n = daysSinceEpoch y + yd /\
    0 <= yd < 365 + leapDay (isLeap y).
Proof.
  unfold absYear, daysPer400Years, daysPer100Years, daysPer4Years. cbv zeta.
  set (q := n / 146097).
  set (e := n - 146097 * q).
  assert (He : 0 <= e < 146097) by (subst e q; dlia).
  set (a := e / 36524 - e / 36524 / 4).
  assert (Ha : 0 <= a < 4 /\ 36524 * a <= e /\ (a < 3 -> e < 36524 * (a + 1)))
    by (subst a; dlia).
  set (e2 := e - 36524 * a).
  set (b := e2 / 1461).
  assert (Hb : 0 <= b < 25 /\ 1461 * b <= e2 < 1461 * (b + 1)) by (subst b e2; dlia).
  set (e3 := e2 - 1461 * b).
  set (c := e3 / 365 - e3 / 365 / 4).
  assert (Hc : 0 <= c < 4 /\ 365 * c <= e3 /\ (c < 3 -> e3 < 365 * (c + 1)))
    by (subst c e3; dlia).
  eexists _, _. split; [reflexivity|].
  destruct (year_split (400 * q + 100 * a + 4 * b + c + 1))
    as (q' & a' & b' & c' & Hy & Ha' & Hb' & Hc' & Hd & Hl).
  assert (q' = q /\ a' = a /\ b' = b /\ c' = c) as (-> & -> & -> & ->) by lia.
  rewrite Hd, Hl. split; [subst e3 e2 e; lia|].
  unfold leapDay.
  destruct (c =? 3) eqn:E1; destruct (b =? 24) eqn:E2; destruct (a =? 3) eqn:E3;
    simpl; subst e3 e2; lia.
Qed.

(** The month part, checked on every day of both kinds of year. *)
Lemma yearDay_ydayOf leap m d :
  1 <= m <= 12 -> 1 <= d <= monthLen leap m ->
  yearDay leap (ydayOf leap m d) = (m, d) /\
  0 <= ydayOf leap m d < 365 + leapDay leap.
Proof.
  intros Hm Hd.
  assert (Hd' : 1 <= d < 1 + Z.of_nat 31).
  { split; [lia|]. revert Hd. unfold monthLen.
    assert (m = 1 \/ m = 2 \/ m = 3 \/ m = 4 \/ m = 5 \/ m = 6 \/ m = 7 \/ m = 8
            \/ m = 9 \/ m = 10 \/ m = 11 \/ m = 12) as Hc by lia.
    destruct leap; intuition (subst; simpl in *; lia). }
  set (chk := fun leap m d =>
    negb (d <=? monthLen leap m) ||
    (let '(m', d') := yearDay leap (ydayOf leap m d) in (m' =? m) && (d' =? d))
    && (0 <=? ydayOf leap m d) && (ydayOf leap m d <? 365 + leapDay leap)).
  assert (Hall : forallb (fun l => forallb (fun m => forallb (chk l m) (rangeZ 1 31))
                                     (rangeZ 1 12)) [true; false] = true)
    by (vm_compute; reflexivity).
  assert (Hchk : chk leap m d = true).
  { rewrite forallb_forall in Hall.
    assert (Hl : forallb (fun m => forallb (chk leap m) (rangeZ 1 31)) (rangeZ 1 12) = true).
    { apply Hall. destruct leap; simpl; auto. }
    pose proof (forallb_rangeZ _ _ _ Hl m ltac:(lia)) as Hm'.
    exact (forallb_rangeZ _ _ _ Hm' d Hd'). }
  unfold chk in Hchk.
  destruct (yearDay leap (ydayOf leap m d)) as [m' d'].
  rewrite orb_true_iff, negb_true_iff, !andb_true_iff, !Z.eqb_eq, Z.leb_le,
    Z.ltb_lt, Z.leb_gt in Hchk.
  destruct Hchk as [Hc|Hc]; [lia|]. split; [f_equal; lia | lia].
Qed.

Lemma yearDay_inv leap yd :
  0 <= yd < 365 + leapDay leap ->
  exists m d, yearDay leap yd = (m, d) /\ 1 <= m <= 12 /\
              1 <= d <= monthLen leap m /\ ydayOf leap m d = yd.
Proof.
  intros Hyd.
  set (chk := fun leap yd =>
    negb (yd <? 365 + leapDay leap) ||
    (let '(m, d) := yearDay leap yd in
     (1 <=? m) && (m <=? 12) && (1 <=? d) && (d <=? monthLen leap m)
     && (ydayOf leap m d =? yd))).
  assert (Hall : forallb (fun l => forallb (chk l) (rangeZ 0 366)) [true; false] = true)
    by (vm_compute; reflexivity).
  assert (Hchk : chk leap yd = true).
  { rewrite forallb_forall in Hall.
    assert (Hl : forallb (chk leap) (rangeZ 0 366) = true).
    { apply Hall. destruct leap; simpl; auto. }
    apply (forallb_rangeZ _ _ _ Hl). unfold leapDay in Hyd. destruct leap; lia. }
  unfold chk in Hchk.
  destruct (yearDay leap yd) as [m d]. exists m, d. split; [done|].
  rewrite orb_true_iff, negb_true_iff, !andb_true_iff, Z.eqb_eq, !Z.leb_le,
    Z.ltb_ge in Hchk.
  destruct Hchk as [Hc|Hc]; lia.
Qed.

(** The day number of a date whose month is in 1..12. *)
Lemma absDay_Date y m d :
  1 <= m <= 12 ->
  absDay (Date y m d) = daysSinceEpoch y + ydayOf (isLeap y) m d.
Proof.
  intros Hm. unfold Date. cbv zeta.
  assert ((m - 1) / 12 = 0) as -> by dlia.
  assert ((m - 1) mod 12 = m - 1) as -> by dlia.
  rewrite Z.add_0_r. unfold ydayOf.
  destruct (isLeap y && (2 <=? m - 1)); simpl; lia.
Qed.

(** Reading back a date that exists. *)
Lemma absDate_Date y m d :
  1 <= m <= 12 -> 1 <= d <= daysIn m y ->
  absDate (absDay (Date y m d)) = (y, m, d).
Proof.
  intros Hm Hd. rewrite absDay_Date by done.
  rewrite daysIn_monthLen in Hd.
  destruct (yearDay_ydayOf (isLeap y) m d Hm Hd) as [Hyd Hr].
  unfold absDate. rewrite absYear_spec by done. by rewrite Hyd.
Qed.

(** Every day number is the day number of the date read from it, and
    that date exists. *)
Lemma Date_absDate n :
  exists y m d,
    absDate n = (y, m, d) /\ 1 <= m <= 12 /\ 1 <= d <= daysIn m y /\
    absDay (Date y m d) = n.
Proof.
  destruct (absYear_inv n) as (y & yd & Hy & Hn & Hyd).
  destruct (yearDay_inv (isLeap y) yd Hyd) as (m & d & Hmd & Hm & Hd & Hyd').
  exists y, m, d. unfold absDate. rewrite Hy, Hmd.
  split; [done|]. split; [done|]. split; [by rewrite daysIn_monthLen|].
  rewrite absDay_Date by done. lia.
Qed.

Lemma Month_range t : 1 <= Month t <= 12.
Proof.
  destruct (Date_absDate (absDay t)) as (y & m & d & H & Hm & _).
  unfold Month. by rewrite H.
Qed.

Lemma Day_range t : 1 <= Day t <= daysIn (Month t) (Year t).
Proof.
  destruct (Date_absDate (absDay t)) as (y & m & d & H & _ & Hd & _).
  unfold Day, Month, Year. by rewrite H.
Qed.

Lemma absDay_Date_fields t : absDay (Date (Year t) (Month t) (Day t)) = absDay t.
Proof.
  destruct (Date_absDate (absDay t)) as (y & m & d & H & _ & _ & Hn).
  unfold Day, Month, Year. by rewrite H.
Qed.

Lemma daysIn_range m y : 1 <= m <= 12 -> 28 <= daysIn m y <= 31.
Proof.
  intros Hm. unfold daysIn.
  assert (m = 1 \/ m = 2 \/ m = 3 \/ m = 4 \/ m = 5 \/ m = 6 \/ m = 7 \/ m = 8
          \/ m = 9 \/ m = 10 \/ m = 11 \/ m = 12) as Hc by lia.
  destruct (isLeap y); intuition (subst; simpl; lia).
Qed.

Lemma Year_Date y m d :
  1 <= m <= 12 -> 1 <= d <= daysIn m y -> Year (Date y m d) = y.
Proof. intros. unfold Year. by rewrite absDate_Date. Qed.

Lemma Month_Date y m d :
  1 <= m <= 12 -> 1 <= d <= daysIn m y -> Month (Date y m d) = m.
Proof. intros. unfold Month. by rewrite absDate_Date. Qed.

Lemma Day_Date y m d :
  1 <= m <= 12 -> 1 <= d <= daysIn m y -> Day (Date y m d) = d.
Proof. intros. unfold Day. by rewrite absDate_Date. Qed.

(** Days of a month are consecutive day numbers. *)
Lemma absDay_Date_day y m d : absDay (Date y m d) = absDay (Date y m 1) + (d - 1).
Proof. unfold Date. cbv zeta. simpl. lia. Qed.

Lemma daysSinceEpoch_succ y :
  daysSinceEpoch (y + 1) = daysSinceEpoch y + 365 + leapDay (isLeap y).
Proof.
  destruct (year_split y) as (q & a & b & c & Hy & Ha & Hb & Hc & Hd & Hl).
  destruct (year_split (y + 1)) as (q' & a' & b' & c' & Hy' & Ha' & Hb' & Hc' & Hd' & _).
  rewrite Hd, Hd', Hl. unfold leapDay.
  destruct (c =? 3) eqn:E1; destruct (b =? 24) eqn:E2; destruct (a =? 3) eqn:E3;
    simpl; lia.
Qed.

(** The first of the next month is [daysIn] days later. *)
Lemma absDay_Date_next y m :
  1 <= m <= 12 ->
  absDay (Date y (m + 1) 1) = absDay (Date y m 1) + daysIn m y.
Proof.
  intros Hm. destruct (decide (m = 12)) as [->|Hne].
  - unfold Date at 1. cbv zeta. change ((12 + 1 - 1) / 12) with 1.
    change ((12 + 1 - 1) mod 12) with 0. rewrite andb_false_r.
    rewrite absDay_Date by lia. rewrite daysSinceEpoch_succ.
    unfold ydayOf, daysIn, leapDay. simpl. destruct (isLeap y); simpl; lia.
  - rewrite !absDay_Date by lia. unfold ydayOf, daysIn.
    assert (m = 1 \/ m = 2 \/ m = 3 \/ m = 4 \/ m = 5 \/ m = 6 \/ m = 7 \/ m = 8
            \/ m = 9 \/ m = 10 \/ m = 11) as Hc by lia.
    destruct (isLeap y); intuition (subst; simpl; lia).
Qed.

Lemma Date_next y m d :
  1 <= m <= 12 -> Date y (m + 1) d = Date (nextMonth (y, m)).1 (nextMonth (y, m)).2 d.
Proof.
  intros Hm. unfold nextMonth. simpl. destruct (m =? 12) eqn:E; simpl; [|done].
  apply Z.eqb_eq in E as ->. unfold Date. cbv zeta.
  change ((12 + 1 - 1) / 12) with 1. change ((1 - 1) / 12) with 0.
  change ((12 + 1 - 1) mod 12) with ((1 - 1) mod 12). by rewrite (Z.add_0_r (y + 1)).
Qed.

(** Months beyond December carry into the year. *)
Lemma Date_month_shift y m d : Date y m d = Date 0 (12 * y + m) d.
Proof.
  unfold Date. cbv zeta.
  assert ((12 * y + m - 1) / 12 = y + (m - 1) / 12) as -> by dlia.
  assert ((12 * y + m - 1) mod 12 = (m - 1) mod 12) as -> by dlia.
  by rewrite Z.add_0_l.
Qed.

Lemma Date_firstOfMonth y m :
  Date y m 1 = firstOfMonth (12 * y + (m - 1)).
Proof.
  unfold firstOfMonth. rewrite (Date_month_shift y m 1). f_equal. lia.
Qed.

Lemma firstOfMonth_norm j : firstOfMonth j = Date (j / 12) (j mod 12 + 1) 1.
Proof. rewrite Date_firstOfMonth. f_equal. dlia. Qed.

Lemma Year_firstOfMonth j : Year (firstOfMonth j) = j / 12.
Proof.
  rewrite firstOfMonth_norm. assert (1 <= j mod 12 + 1 <= 12) as Hm by dlia.
  pose proof (daysIn_range _ (j / 12) Hm). apply Year_Date; lia.
Qed.

Lemma Month_firstOfMonth j : Month (firstOfMonth j) = j mod 12 + 1.
Proof.
  rewrite firstOfMonth_norm. assert (1 <= j mod 12 + 1 <= 12) as Hm by dlia.
  pose proof (daysIn_range _ (j / 12) Hm). apply Month_Date; lia.
Qed.

Lemma Day_firstOfMonth j : Day (firstOfMonth j) = 1.
Proof.
  rewrite firstOfMonth_norm. assert (1 <= j mod 12 + 1 <= 12) as Hm by dlia.
  pose proof (daysIn_range _ (j / 12) Hm). apply Day_Date; lia.
Qed.

Lemma monthIndex_firstOfMonth j : monthIndex (firstOfMonth j) = j.
Proof. unfold monthIndex. rewrite Year_firstOfMonth, Month_firstOfMonth. dlia. Qed.

(** One month later. *)
Lemma AddDate_firstOfMonth j : AddDate (firstOfMonth j) 0 1 0 = firstOfMonth (j + 1).
Proof.
  unfold AddDate. rewrite Year_firstOfMonth, Month_firstOfMonth, Day_firstOfMonth.
  rewrite Z.add_0_r. change (1 + 0) with 1. rewrite Date_firstOfMonth. f_equal. dlia.
Qed.

Lemma absDay_firstOfMonth_succ j :
  28 <= absDay (firstOfMonth (j + 1)) - absDay (firstOfMonth j) <= 31.
Proof.
  assert (1 <= j mod 12 + 1 <= 12) as Hm by dlia.
  pose proof (daysIn_range _ (j / 12) Hm) as Hd.
  pose proof (absDay_Date_next (j / 12) (j mod 12 + 1) Hm) as Hn.
  rewrite <- firstOfMonth_norm in Hn.
  rewrite (Date_firstOfMonth (j / 12) (j mod 12 + 1 + 1)) in Hn.
  replace (12 * (j / 12) + (j mod 12 + 1 + 1 - 1)) with (j + 1) in Hn by dlia.
  lia.
Qed.

Lemma absDay_firstOfMonth_le j n :
  absDay (firstOfMonth j) + 28 * Z.of_nat n <= absDay (firstOfMonth (j + Z.of_nat n)).
Proof.
  induction n as [|n IH].
  - replace (j + Z.of_nat 0) with j by lia. lia.
  - pose proof (absDay_firstOfMonth_succ (j + Z.of_nat n)).
    replace (j + Z.of_nat (S n)) with (j + Z.of_nat n + 1) by lia. lia.
Qed.

(** The first days of the months are in the order of the months. *)
Lemma absDay_firstOfMonth_lt j1 j2 :
  absDay (firstOfMonth j1) < absDay (firstOfMonth j2) <-> j1 < j2.
Proof.
  split; intros H.
  - destruct (Z.lt_ge_cases j1 j2) as [|Hge]; [done|].
    pose proof (absDay_firstOfMonth_le j2 (Z.to_nat (j1 - j2))) as Hle.
    replace (j2 + Z.of_nat (Z.to_nat (j1 - j2))) with j1 in Hle by lia. lia.
  - pose proof (absDay_firstOfMonth_le j1 (Z.to_nat (j2 - j1))) as Hle.
    replace (j1 + Z.of_nat (Z.to_nat (j2 - j1))) with j2 in Hle by lia. lia.
Qed.

Lemma firstOfMonth_monthIndex t :
  Date (Year t) (Month t) 1 = firstOfMonth (monthIndex t).
Proof. apply Date_firstOfMonth. Qed.

(** Earlier days lie in earlier or equal months. *)
Lemma monthIndex_mono t u : absDay t <= absDay u -> monthIndex t <= monthIndex u.
Proof.
  intros H. destruct (Z.le_gt_cases (monthIndex t) (monthIndex u)) as [|Hgt]; [done|].
  exfalso.
  (* u's month is before t's: u is before the first of t's month *)
  pose proof (absDay_firstOfMonth_le (monthIndex u + 1)
                (Z.to_nat (monthIndex t - monthIndex u - 1))) as Hle.
  replace (monthIndex u + 1 + Z.of_nat (Z.to_nat (monthIndex t - monthIndex u - 1)))
    with (monthIndex t) in Hle by lia.
  rewrite <- (firstOfMonth_monthIndex t) in Hle.
  pose proof (absDay_Date_day (Year t) (Month t) (Day t)) as Ht.
  rewrite absDay_Date_fields in Ht. pose proof (Day_range t) as Hdt.
  pose proof (absDay_Date_day (Year u) (Month u) (Day u)) as Hu.
  rewrite absDay_Date_fields in Hu. pose proof (Day_range u) as Hdu.
  pose proof (absDay_Date_next (Year u) (Month u) (Month_range u)) as Hn.
  rewrite (Date_firstOfMonth (Year u) (Month u + 1)) in Hn.
  replace (12 * Year u + (Month u + 1 - 1)) with (monthIndex u + 1) in Hn
    by (unfold monthIndex; lia).
  lia.
Qed.

End TimeFacts.

(** ** The loops of [generateCalendarGrid] *)

Lemma rangeZ_S lo n : rangeZ lo (S n) = lo :: rangeZ (lo + 1) n.
Proof.
  unfold rangeZ. simpl. rewrite Z.add_0_r. f_equal.
  rewrite <- seq_shift, map_map. apply map_ext. intros k. lia.
Qed.

Lemma rangeZ_snoc lo n : rangeZ lo (S n) = rangeZ lo n ++ [lo + Z.of_nat n].
Proof. unfold rangeZ. by rewrite seq_S, map_app. Qed.

Lemma length_rangeZ lo n : length (rangeZ lo n) = n.
Proof. unfold rangeZ. by rewrite length_map, length_seq. Qed.

Lemma lookup_rangeZ lo n (i : nat) :
  (i < n)%nat -> rangeZ lo n !! i = Some (lo + Z.of_nat i).
Proof.
  intros Hi. unfold rangeZ. rewrite list_lookup_fmap, lookup_seq_lt by done.
  done.
Qed.

Section GridFacts.

Variables (s D : Z) (dayCell : Z -> Cell).
Hypothesis Hs : 0 <= s < 7.
Hypothesis HD : 1 <= D.

(** The column loop fills the positions it passes with the cells of the
    month and leaves the day counter where the next position needs it. *)
Lemma rowLoop_spec n weekRow col rowParts :
  0 <= weekRow -> 0 <= col -> col + Z.of_nat n <= 7 ->
  rowLoop s D dayCell n weekRow col (dayAt s D (7 * weekRow + col)) rowParts
  = (dayAt s D (7 * weekRow + col + Z.of_nat n),
     rowParts ++ map (cellAt s D dayCell) (rangeZ (7 * weekRow + col) n)).
Proof.
  revert col rowParts. induction n as [|n IH]; intros col rowParts Hw Hc Hn.
  - simpl. by rewrite Z.add_0_r, app_nil_r.
  - rewrite rangeZ_S. cbn [rowLoop map].
    replace (7 * weekRow + col + Z.of_nat (S n))
      with (7 * weekRow + (col + 1) + Z.of_nat n) by lia.
    replace (7 * weekRow + col + 1) with (7 * weekRow + (col + 1)) by lia.
    assert (Hpos : ((weekRow =? 0) && (col <? s)) = (7 * weekRow + col <? s)).
    { destruct (weekRow =? 0) eqn:E1; simpl.
      - apply Z.eqb_eq in E1 as ->. by rewrite Z.mul_0_r.
      - apply Z.eqb_neq in E1. symmetry. apply Z.ltb_ge. lia. }
    rewrite Hpos. set (p := 7 * weekRow + col) in *.
    destruct (p <? s) eqn:Ep.
    + apply Z.ltb_lt in Ep.
      replace (dayAt s D p) with (dayAt s D (7 * weekRow + (col + 1))).
      2:{ unfold dayAt. fold p. replace (7 * weekRow + (col + 1)) with (p + 1) by lia.
          destruct (p + 1 <? s) eqn:E2; destruct (p <? s) eqn:E3; lia. }
      rewrite IH by lia. rewrite <- app_assoc. simpl.
      unfold cellAt at 2. cbv zeta.
      replace ((1 <=? p - s + 1) && (p - s + 1 <=? D)) with false; [done|].
      symmetry. apply andb_false_iff. left. apply Z.leb_gt. lia.
    + apply Z.ltb_ge in Ep.
      assert (Hday : dayAt s D p = Z.min (p - s + 1) (D + 1)).
      { unfold dayAt. destruct (p <? s) eqn:E3; [lia|done]. }
      rewrite Hday.
      destruct (Z.min (p - s + 1) (D + 1) <=? D) eqn:Ed.
      * apply Z.leb_le in Ed.
        replace (Z.min (p - s + 1) (D + 1) + 1)
          with (dayAt s D (7 * weekRow + (col + 1))).
        2:{ unfold dayAt. replace (7 * weekRow + (col + 1)) with (p + 1) by lia.
            destruct (p + 1 <? s) eqn:E2; lia. }
        rewrite IH by lia. rewrite <- app_assoc. simpl.
        unfold cellAt at 2. cbv zeta.
        replace ((1 <=? p - s + 1) && (p - s + 1 <=? D)) with true.
        2:{ symmetry. apply andb_true_iff. split; apply Z.leb_le; lia. }
        replace (Z.min (p - s + 1) (D + 1)) with (p - s + 1) by lia. done.
      * apply Z.leb_gt in Ed.
        replace (Z.min (p - s + 1) (D + 1))
          with (dayAt s D (7 * weekRow + (col + 1))).
        2:{ unfold dayAt. replace (7 * weekRow + (col + 1)) with (p + 1) by lia.
            destruct (p + 1 <? s) eqn:E2; lia. }
        rewrite IH by lia. rewrite <- app_assoc. simpl.
        unfold cellAt at 2. cbv zeta.
        replace ((1 <=? p - s + 1) && (p - s + 1 <=? D)) with false; [done|].
        symmetry. apply andb_false_iff. right. apply Z.leb_gt. lia.
Qed.

Lemma weekRows_pos : 1 <= weekRows s D.
Proof using Hs HD. clear dayCell. unfold weekRows. dlia. Qed.

Lemma weekRows_le : weekRows s D <= D + 1.
Proof using Hs HD. clear dayCell. unfold weekRows. dlia. Qed.

(** From the start of week row [r], the loop appends the remaining rows
    of the month and stops. *)
Lemma gridLoop_spec fuel r grid :
  0 <= r < weekRows s D -> weekRows s D - r <= Z.of_nat fuel ->
  gridLoop s D dayCell fuel (dayAt s D (7 * r)) r grid
  = Some (grid ++ map (weekRowOf s D dayCell)
                    (rangeZ r (Z.to_nat (weekRows s D - r)))).
Proof.
  revert r grid. induction fuel as [|fuel IH]; intros r grid Hr Hf; [lia|].
  cbn [gridLoop].
  assert (Hcond : (dayAt s D (7 * r) <=? D) || (r =? 0) = true).
  { destruct (r =? 0) eqn:E; [by rewrite orb_true_r|].
    apply Z.eqb_neq in E. rewrite orb_false_r. apply Z.leb_le.
    unfold dayAt, weekRows in *. destruct (7 * r <? s) eqn:E2; dlia. }
  rewrite Hcond.
  pose proof (rowLoop_spec 7 r 0 [] ltac:(lia) ltac:(lia) ltac:(lia)) as Hrow.
  rewrite Z.add_0_r in Hrow. rewrite Hrow. clear Hrow. rewrite app_nil_l.
  replace (7 * r + Z.of_nat 7) with (7 * (r + 1)) by lia.
  fold (weekRowOf s D dayCell r).
  destruct (D <? dayAt s D (7 * (r + 1))) eqn:Ed.
  - apply Z.ltb_lt in Ed.
    assert (weekRows s D - r = 1) as ->.
    { unfold dayAt, weekRows in *. destruct (7 * (r + 1) <? s) eqn:E2; dlia. }
    replace (rangeZ r (Z.to_nat 1)) with [r]; [done|].
    unfold rangeZ. simpl. f_equal. lia.
  - apply Z.ltb_ge in Ed.
    assert (Hr' : r + 1 < weekRows s D).
    { unfold dayAt, weekRows in *. destruct (7 * (r + 1) <? s) eqn:E2; dlia. }
    rewrite IH by lia. rewrite <- app_assoc. do 2 f_equal.
    replace (Z.to_nat (weekRows s D - r)) with (S (Z.to_nat (weekRows s D - (r + 1))))
      by lia.
    by rewrite rangeZ_S.
Qed.

(** With fuel for one round per day and one more, the loop yields the
    grid of the month. *)
Lemma gridLoop_monthGrid fuel :
  (Z.to_nat D < fuel)%nat ->
  gridLoop s D dayCell fuel 1 0 [] = Some (monthGrid s D dayCell).
Proof.
  intros Hf. pose proof weekRows_pos. pose proof weekRows_le.
  assert (H1 : dayAt s D (7 * 0) = 1).
  { unfold dayAt. rewrite Z.mul_0_r. destruct (0 <? s) eqn:E; lia. }
  rewrite <- H1 at 1. rewrite gridLoop_spec by lia.
  by rewrite Z.sub_0_r.
Qed.

Lemma length_monthGrid : len (monthGrid s D dayCell) = weekRows s D.
Proof.
  pose proof weekRows_pos.
  unfold len, monthGrid. rewrite length_map, length_rangeZ. lia.
Qed.

Lemma length_weekRowOf r : length (weekRowOf s D dayCell r) = 7%nat.
Proof. unfold weekRowOf. by rewrite length_map, length_rangeZ. Qed.

Lemma monthGrid_rows row : row ∈ monthGrid s D dayCell -> length row = 7%nat.
Proof.
  unfold monthGrid. intros (r & -> & _)%list_elem_of_fmap. apply length_weekRowOf.
Qed.

Lemma gridCell_monthGrid (r c : nat) :
  gridCell (monthGrid s D dayCell) r c =
  if (Z.of_nat r <? weekRows s D) && (Z.of_nat c <? 7)
  then Some (cellAt s D dayCell (7 * Z.of_nat r + Z.of_nat c))
  else None.
Proof.
  pose proof weekRows_pos.
  unfold gridCell, monthGrid. rewrite list_lookup_fmap.
  destruct (Z.of_nat r <? weekRows s D) eqn:Er.
  - apply Z.ltb_lt in Er. rewrite lookup_rangeZ by lia. simpl.
    unfold weekRowOf. rewrite list_lookup_fmap.
    destruct (Z.of_nat c <? 7) eqn:Ec.
    + apply Z.ltb_lt in Ec. rewrite lookup_rangeZ by lia. simpl.
      by rewrite Z.add_0_l.
    + apply Z.ltb_ge in Ec. rewrite lookup_ge_None_2; [done|].
      rewrite length_rangeZ. lia.
  - apply Z.ltb_ge in Er. rewrite lookup_ge_None_2; [done|].
    rewrite length_rangeZ. lia.
Qed.

End GridFacts.

(** The loops end for any start weekday and any day count, and yield at
    least one row. *)
Section GridTermination.

Variables (s D : Z) (dayCell : Z -> Cell).

Lemma rowLoop_mono n weekRow col day rowParts :
  day <= (rowLoop s D dayCell n weekRow col day rowParts).1.
Proof.
  revert col day rowParts. induction n as [|n IH]; intros col day rowParts; [simpl; lia|].
  cbn [rowLoop].
  destruct ((weekRow =? 0) && (col <? s)); [apply IH|].
  destruct (day <=? D); [|apply IH].
  etrans; [|apply IH]. lia.
Qed.

Lemma rowLoop_progress n weekRow col day rowParts :
  weekRow <> 0 -> day <= D ->
  day < (rowLoop s D dayCell (S n) weekRow col day rowParts).1.
Proof.
  intros Hw Hd. cbn [rowLoop].
  apply Z.eqb_neq in Hw. rewrite Hw. simpl.
  apply Z.leb_le in Hd. rewrite Hd.
  eapply Z.lt_le_trans; [|apply rowLoop_mono]. lia.
Qed.

Lemma gridLoop_total fuel day weekRow grid :
  0 <= weekRow ->
  (if weekRow =? 0 then 1 else 0) + Z.max 0 (D + 1 - day) <= Z.of_nat fuel ->
  weekRow = 0 \/ day <= D ->
  exists grid',
    gridLoop s D dayCell fuel day weekRow grid = Some grid' /\ len grid < len grid'.
Proof.
  revert day weekRow grid.
  induction fuel as [|fuel IH]; intros day weekRow grid Hw Hf Hc.
  { destruct Hc as [->|Hc]; simpl in Hf; [lia|].
    destruct (weekRow =? 0); lia. }
  cbn [gridLoop].
  assert (Hcond : (day <=? D) || (weekRow =? 0) = true).
  { destruct Hc as [->|Hc]; [by rewrite orb_true_r|].
    apply Z.leb_le in Hc. by rewrite Hc. }
  rewrite Hcond.
  pose proof (rowLoop_mono 7 weekRow 0 day []) as Hmono.
  pose proof (rowLoop_progress 6 weekRow 0 day []) as Hprog.
  destruct (rowLoop s D dayCell 7 weekRow 0 day []) as [day' rowParts].
  simpl in Hmono, Hprog.
  destruct (D <? day') eqn:Ed.
  - eexists. split; [done|]. unfold len. rewrite length_app. simpl. lia.
  - apply Z.ltb_ge in Ed.
    destruct (IH day' (weekRow + 1) (grid ++ [rowParts])) as (g & Hg & Hl).
    + lia.
    + replace (weekRow + 1 =? 0) with false by (symmetry; apply Z.eqb_neq; lia).
      destruct (weekRow =? 0) eqn:E; [lia|].
      apply Z.eqb_neq in E. 
      assert (day <= D) by (destruct Hc; [done|lia]).
      specialize (Hprog E ltac:(done)). lia.
    + by right.
    + exists g. split; [done|]. unfold len in *. rewrite length_app in Hl. simpl in Hl. lia.
Qed.

Lemma gridLoop_terminates :
  exists grid,
    gridLoop s D dayCell (S (Z.to_nat D)) 1 0 [] = Some grid /\ 1 <= len grid.
Proof.
  destruct (gridLoop_total (S (Z.to_nat D)) 1 0 []) as (g & Hg & Hl).
  - lia.
  - change (0 =? 0) with true. cbv iota. lia.
  - by left.
  - exists g. split; [done|]. unfold len in *. simpl in Hl. lia.
Qed.

End GridTermination.

(** ** The month of a grid *)

Lemma startWeekdayOf_eq month :
  startWeekdayOf month
  = time.Weekday (time.Date (time.Year month) (time.Month month) 1).
Proof. reflexivity. Qed.

Lemma startWeekdayOf_range month : 0 <= startWeekdayOf month < 7.
Proof. unfold startWeekdayOf, time.Weekday. dlia. Qed.

(** The day count the program reads off the last day of the month is the
    length of the month. *)
Lemma daysInMonthOf_daysIn month :
  daysInMonthOf month = time.daysIn (time.Month month) (time.Year month).
Proof.
  unfold daysInMonthOf, time.AddDate.
  pose proof (TimeFacts.Month_range month) as Hm.
  set (y := time.Year month) in *. set (m := time.Month month) in *.
  clearbody y m.
  pose proof (TimeFacts.daysIn_range m y Hm) as Hd.
  rewrite (TimeFacts.Year_Date y m 1), (TimeFacts.Month_Date y m 1),
    (TimeFacts.Day_Date y m 1) by lia.
  rewrite Z.add_0_r. change (1 + -1) with 0.
  assert (Hlast : time.absDay (time.Date y (m + 1) 0)
                  = time.absDay (time.Date y m (time.daysIn m y))).
  { rewrite (TimeFacts.absDay_Date_day y (m + 1) 0).
    rewrite (TimeFacts.absDay_Date_day y m (time.daysIn m y)).
    rewrite TimeFacts.absDay_Date_next by done. lia. }
  unfold time.Day. rewrite Hlast.
  by rewrite TimeFacts.absDate_Date by lia.
Qed.

Lemma daysInMonthOf_range month : 28 <= daysInMonthOf month <= 31.
Proof.
  rewrite daysInMonthOf_daysIn. apply TimeFacts.daysIn_range, TimeFacts.Month_range.
Qed.

Lemma Weekday_Date_day y m d :
  time.Weekday (time.Date y m d) = (time.Weekday (time.Date y m 1) + d - 1) mod 7.
Proof.
  unfold time.Weekday. rewrite (TimeFacts.absDay_Date_day y m d). dlia.
Qed.

Lemma cellDay_dayCellOf now month postCounts white brightGreen showCounts day :
  cellDay (dayCellOf now month postCounts white brightGreen showCounts day) = Some day.
Proof. unfold dayCellOf. by destruct (dayStyle _ _ _ _ _ _). Qed.

Lemma cellDay_v1_dayCellOf month postCounts white brightGreen day :
  cellDay (v1.dayCellOf month postCounts white brightGreen day) = Some day.
Proof. unfold v1.dayCellOf. by destruct (0 <? _). Qed.

(** The cells [generateCalendarGrid] builds are the grid of the month. *)
Lemma generateCalendarCells_monthGrid fuel now month postCounts white brightGreen
    showCounts :
  (gridFuel month <= fuel)%nat ->
  generateCalendarCells fuel now month postCounts white brightGreen showCounts
  = Some (monthGrid (startWeekdayOf month) (daysInMonthOf month)
            (dayCellOf now month postCounts white brightGreen showCounts)).
Proof.
  intros Hf. unfold generateCalendarCells, gridFuel in *.
  pose proof (daysInMonthOf_range month).
  apply gridLoop_monthGrid; [apply startWeekdayOf_range|lia|lia].
Qed.

Lemma v1_generateCalendarCells_monthGrid fuel month postCounts white brightGreen :
  (gridFuel month <= fuel)%nat ->
  v1.generateCalendarCells fuel month postCounts white brightGreen
  = Some (monthGrid (startWeekdayOf month) (daysInMonthOf month)
            (v1.dayCellOf month postCounts white brightGreen)).
Proof.
  intros Hf. unfold v1.generateCalendarCells, gridFuel in *.
  pose proof (daysInMonthOf_range month).
  apply gridLoop_monthGrid; [apply startWeekdayOf_range|lia|lia].
Qed.

(** ** Decimal digits *)

Module StrFacts.
Import strconv.

Lemma append_assoc (a b c : string) : (a +:+ b) +:+ c = a +:+ b +:+ c.
Proof. induction a as [|x a IH]; simpl; [done|]. by rewrite IH. Qed.

Lemma append_nil_r (a : string) : a +:+ "" = a.
Proof. induction a as [|x a IH]; simpl; [done|]. by rewrite IH. Qed.

Lemma length_append (a b : string) :
  String.length (a +:+ b) = (String.length a + String.length b)%nat.
Proof. induction a as [|x a IH]; simpl; [done|]. by rewrite IH. Qed.

(** Two splits of one string at the same place are the same split. *)
Lemma append_inj_length (a1 a2 b1 b2 : string) :
  String.length a1 = String.length a2 ->
  a1 +:+ b1 = a2 +:+ b2 -> a1 = a2 /\ b1 = b2.
Proof.
  revert a2. induction a1 as [|x a1 IH]; intros [|y a2] Hl H; simpl in *;
    try discriminate; [done|].
  injection H as -> H. destruct (IH a2) as [-> ->]; [lia|done|done].
Qed.

Lemma length_Repeat (c : string) n :
  String.length (strings.Repeat c n) = (n * String.length c)%nat.
Proof. induction n as [|n IH]; simpl; [done|]. rewrite length_append, IH. lia. Qed.

Lemma digitsVal_append a s t : digitsVal a (s +:+ t) = digitsVal (digitsVal a s) t.
Proof. revert a. induction s as [|c s IH]; intros a; simpl; [done|]. apply IH. Qed.

Lemma digitVal_digitChar d : 0 <= d <= 9 -> digitVal (digitChar d) = d.
Proof.
  intros Hd. unfold digitVal, digitChar, byteVal.
  rewrite Ascii.N_ascii_embedding; lia.
Qed.

Lemma isDigit_digitChar d : 0 <= d <= 9 -> isDigit (digitChar d) = true.
Proof.
  intros Hd. unfold isDigit, digitChar, byteVal.
  rewrite Ascii.N_ascii_embedding by lia. rewrite Z2N.id by lia.
  apply andb_true_iff. split; apply Z.leb_le; lia.
Qed.

Lemma digitChar_inj d1 d2 :
  0 <= d1 <= 9 -> 0 <= d2 <= 9 -> digitChar d1 = digitChar d2 -> d1 = d2.
Proof.
  intros H1 H2 H. rewrite <- (digitVal_digitChar d1), <- (digitVal_digitChar d2) by done.
  by rewrite H.
Qed.

Lemma allDigits_append s t : allDigits (s +:+ t) = allDigits s && allDigits t.
Proof. induction s as [|c s IH]; simpl; [done|]. by rewrite IH, andb_assoc. Qed.

(** With enough fuel the digits of [u] are put in front of [acc]; read
    back, they give [u]. *)
Lemma digitsFuel_spec fuel u acc :
  0 <= u < 2 ^ Z.of_nat (S fuel) ->
  exists ds,
    digitsFuel (S fuel) u acc = ds +:+ acc /\ digitsVal 0 ds = u /\
    allDigits ds = true /\ ds <> "".
Proof.
  revert u acc. induction fuel as [|fuel IH]; intros u acc Hu.
  - change (2 ^ Z.of_nat 1) with 2 in Hu.
    cbn [digitsFuel]. replace (u <? 10) with true by lia.
    replace (u mod 10) with u by dlia.
    exists (String (digitChar u) ""). simpl.
    rewrite digitVal_digitChar, isDigit_digitChar by lia. done.
  - cbn [digitsFuel]. destruct (u <? 10) eqn:E.
    + apply Z.ltb_lt in E. replace (u mod 10) with u by dlia.
      exists (String (digitChar u) ""). simpl.
      rewrite digitVal_digitChar, isDigit_digitChar by lia. done.
    + apply Z.ltb_ge in E.
      assert (Hq : 0 <= u / 10 < 2 ^ Z.of_nat (S fuel)).
      { rewrite (Nat2Z.inj_succ (S fuel)), Z.pow_succ_r in Hu by lia.
        pose proof (Z.pow_pos_nonneg 2 (Z.of_nat (S fuel)) ltac:(lia) ltac:(lia)).
        set (P := 2 ^ Z.of_nat (S fuel)) in *. clearbody P. dlia. }
      destruct (IH (u / 10) (String (digitChar (u mod 10)) acc) Hq)
        as (ds & Heq & Hval & Hall & Hne).
      exists (ds +:+ String (digitChar (u mod 10)) "").
      split.
      { change (digitsFuel (S fuel) (u / 10) (String (digitChar (u mod 10)) acc)
                = (ds +:+ String (digitChar (u mod 10)) "") +:+ acc).
        rewrite Heq, append_assoc. done. }
      split.
      { rewrite digitsVal_append, Hval. simpl.
        rewrite digitVal_digitChar by dlia. dlia. }
      split.
      { rewrite allDigits_append, Hall. simpl.
        rewrite isDigit_digitChar by dlia. done. }
      destruct ds; [done|]. simpl. discriminate.
Qed.

Lemma utoa_spec u :
  0 <= u ->
  digitsVal 0 (utoa u) = u /\ allDigits (utoa u) = true /\ utoa u <> "".
Proof.
  intros Hu. unfold utoa.
  destruct (digitsFuel_spec (Z.to_nat (Z.log2 u)) u "") as (ds & Heq & Hval & Hall & Hne).
  - split; [done|]. destruct (decide (u = 0)) as [->|Hnz]; [done|].
    rewrite Nat2Z.inj_succ, Z2Nat.id by apply Z.log2_nonneg.
    apply Z.log2_spec. lia.
  - rewrite Heq, append_nil_r. done.
Qed.

(** More fuel than needed changes nothing. *)
Lemma digitsFuel_fuel f1 f2 u acc :
  0 <= u < 2 ^ Z.of_nat (S f1) -> 0 <= u < 2 ^ Z.of_nat (S f2) ->
  digitsFuel (S f1) u acc = digitsFuel (S f2) u acc.
Proof.
  revert f2 u acc. induction f1 as [|f1 IH]; intros f2 u acc H1 H2.
  - change (2 ^ Z.of_nat 1) with 2 in H1. cbn [digitsFuel].
    replace (u <? 10) with true by lia. by destruct f2.
  - destruct (u <? 10) eqn:E.
    { cbn [digitsFuel]. by rewrite E. }
    destruct f2 as [|f2].
    { change (2 ^ Z.of_nat 1) with 2 in H2. lia. }
    assert (Hhalf : forall f, 0 <= u < 2 ^ Z.of_nat (S (S f)) ->
                              0 <= u / 10 < 2 ^ Z.of_nat (S f)).
    { intros f Hf. rewrite (Nat2Z.inj_succ (S f)), Z.pow_succ_r in Hf by lia.
      pose proof (Z.pow_pos_nonneg 2 (Z.of_nat (S f)) ltac:(lia) ltac:(lia)).
      set (P := 2 ^ Z.of_nat (S f)) in *. clearbody P. dlia. }
    change (digitsFuel (S (S f1)) u acc)
      with (if u <? 10 then String (digitChar (u mod 10)) acc
            else digitsFuel (S f1) (u / 10) (String (digitChar (u mod 10)) acc)).
    change (digitsFuel (S (S f2)) u acc)
      with (if u <? 10 then String (digitChar (u mod 10)) acc
            else digitsFuel (S f2) (u / 10) (String (digitChar (u mod 10)) acc)).
    rewrite E. apply IH; by apply Hhalf.
Qed.

Lemma utoa_fuel f u :
  0 <= u < 2 ^ Z.of_nat (S f) -> utoa u = digitsFuel (S f) u "".
Proof.
  intros Hu. unfold utoa. apply digitsFuel_fuel; [|done].
  split; [lia|]. destruct (decide (u = 0)) as [->|Hnz]; [done|].
  rewrite Nat2Z.inj_succ, Z2Nat.id by apply Z.log2_nonneg.
  apply Z.log2_spec. lia.
Qed.

End StrFacts.

(** ** Formatting and parsing dates *)

Module FormatFacts.
Import strconv time StrFacts.

Lemma digitsVal_zeros n : digitsVal 0 (strings.Repeat "0" n) = 0.
Proof. induction n as [|n IH]; simpl; [done|]. exact IH. Qed.

Lemma allDigits_zeros n : allDigits (strings.Repeat "0" n) = true.
Proof. induction n as [|n IH]; simpl; [done|]. exact IH. Qed.

(** [appendInt] can be read back, whatever the width. *)
Lemma signedVal_appendInt x w : signedVal (appendInt x w) = x.
Proof.
  unfold appendInt. cbv zeta.
  destruct (utoa_spec (Z.abs x) ltac:(lia)) as (Hval & Hall & Hne).
  set (digits := utoa (Z.abs x)) in *.
  set (padded := strings.Repeat "0" (w - String.length digits) +:+ digits).
  assert (Hp : digitsVal 0 padded = Z.abs x).
  { unfold padded. by rewrite digitsVal_append, digitsVal_zeros. }
  assert (Hd : allDigits padded = true).
  { unfold padded. by rewrite allDigits_append, allDigits_zeros. }
  destruct (x <? 0) eqn:E.
  - simpl. rewrite Hp. lia.
  - destruct padded as [|c rest] eqn:Epad.
    + exfalso. unfold padded in Epad.
      destruct (strings.Repeat "0" (w - String.length digits)); simpl in Epad;
        [done|discriminate].
    + unfold signedVal. destruct (Ascii.eqb_spec c "-") as [->|_].
      * simpl in Hd. discriminate.
      * rewrite Hp. lia.
Qed.

Lemma appendInt_inj x y w : appendInt x w = appendInt y w -> x = y.
Proof.
  intros H. rewrite <- (signedVal_appendInt x w), <- (signedVal_appendInt y w).
  by rewrite H.
Qed.

(** The two-digit and four-digit fields. *)
Lemma appendInt_2 x :
  0 <= x < 100 ->
  appendInt x 2 = String (digitChar (x / 10)) (String (digitChar (x mod 10)) "").
Proof.
  intros Hx.
  assert (Hall : forallb (fun x => String.eqb (appendInt x 2)
             (String (digitChar (x / 10)) (String (digitChar (x mod 10)) "")))
            (rangeZ 0 100) = true) by (vm_compute; reflexivity).
  apply String.eqb_eq. apply (forallb_rangeZ _ _ _ Hall). lia.
Qed.

Lemma appendInt_4 x :
  0 <= x < 10000 ->
  appendInt x 4 =
  String (digitChar (x / 1000)) (String (digitChar (x / 100 mod 10))
    (String (digitChar (x / 10 mod 10)) (String (digitChar (x mod 10)) ""))).
Proof.
  intros Hx. unfold appendInt. cbv zeta.
  rewrite Z.abs_eq by lia. replace (x <? 0) with false by lia.
  rewrite (utoa_fuel 13) by (change (2 ^ Z.of_nat 14) with 16384; lia).
  cbn [digitsFuel].
  destruct (Z.ltb_spec x 10);
    [|destruct (Z.ltb_spec (x / 10) 10);
      [|destruct (Z.ltb_spec (x / 10 / 10) 10);
        [|destruct (Z.ltb_spec (x / 10 / 10 / 10) 10); [|exfalso; dlia]]]];
    cbn [String.length Nat.sub strings.Repeat String.append];
    change "0"%char with (digitChar 0);
    repeat (match goal with |- String _ _ = String _ _ => f_equal end);
    apply (f_equal digitChar); dlia.
Qed.

Lemma Day_le_31 t : 1 <= Day t <= 31.
Proof.
  pose proof (TimeFacts.Day_range t). pose proof (TimeFacts.Month_range t) as Hm.
  pose proof (TimeFacts.daysIn_range _ (Year t) Hm). lia.
Qed.

(** Two instants have the same ["2006-01-02"] form exactly when they fall
    on the same day. *)
Lemma Format_YMD_inj t1 t2 :
  Format_YMD t1 = Format_YMD t2 -> absDay t1 = absDay t2.
Proof.
  unfold Format_YMD. intros H.
  pose proof (TimeFacts.Month_range t1) as Hm1.
  pose proof (TimeFacts.Month_range t2) as Hm2.
  pose proof (Day_le_31 t1) as Hd1. pose proof (Day_le_31 t2) as Hd2.
  rewrite <- (TimeFacts.absDay_Date_fields t1), <- (TimeFacts.absDay_Date_fields t2).
  revert H. rewrite !(appendInt_2 (Month _)), !(appendInt_2 (Day _)) by lia.
  generalize dependent (Day t1). generalize dependent (Day t2).
  generalize dependent (Month t1). generalize dependent (Month t2).
  generalize (Year t1) (Year t2). intros y1 y2 m2 Hm2 m1 Hm1 d2 Hd2 d1 Hd1 H.
  apply append_inj_length in H as [Hy Ht].
  - apply appendInt_inj in Hy as ->. simpl in Ht.
    injection Ht as Ha Hb Hc Hd.
    apply digitChar_inj in Ha, Hb, Hc, Hd; try dlia.
    assert (m1 = m2) as -> by dlia. assert (d1 = d2) as -> by dlia. done.
  - apply (f_equal String.length) in H. rewrite !length_append in H.
    simpl in H. lia.
Qed.

Lemma Format_YMD_absDay t1 t2 :
  absDay t1 = absDay t2 -> Format_YMD t1 = Format_YMD t2.
Proof. intros H. unfold Format_YMD, Year, Month, Day. by rewrite H. Qed.

Lemma num4_digitChar y :
  0 <= y <= 9999 ->
  num4 (digitChar (y / 1000)) (digitChar (y / 100 mod 10))
    (digitChar (y / 10 mod 10)) (digitChar (y mod 10)) = y.
Proof. intros Hy. unfold num4. rewrite !digitVal_digitChar by dlia. dlia. Qed.

Lemma num2_digitChar x :
  0 <= x <= 99 -> num2 (digitChar (x / 10)) (digitChar (x mod 10)) = x.
Proof. intros Hx. unfold num2. rewrite !digitVal_digitChar by dlia. dlia. Qed.

(** A formatted date with a four-digit year parses to midnight of its day. *)
Lemma Parse_YMD_Format t :
  0 <= Year t <= 9999 ->
  Parse_YMD (Format_YMD t) = Some (Date (Year t) (Month t) (Day t)).
Proof.
  intros Hy. unfold Format_YMD, Parse_YMD.
  pose proof (TimeFacts.Month_range t) as Hm. pose proof (Day_le_31 t) as Hd.
  pose proof (TimeFacts.Day_range t) as Hd'.
  rewrite appendInt_4, !appendInt_2 by lia.
  generalize dependent (Day t). generalize dependent (Month t).
  generalize dependent (Year t). intros y Hy m Hm d Hd Hd'.
  cbn [String.append String.list_ascii_of_string forallb].
  rewrite !isDigit_digitChar by dlia. cbn [andb].
  change (Ascii.eqb "-" "-") with true. cbn [andb].
  rewrite num4_digitChar, !num2_digitChar by lia.
  replace ((1 <=? m) && (m <=? 12) && (1 <=? d) && (d <=? daysIn m y)) with true; [done|].
  symmetry. rewrite !andb_true_iff, !Z.leb_le. lia.
Qed.

Lemma Parse_YM_Format t :
  0 <= Year t <= 9999 ->
  Parse_YM (Format_YM t) = Some (Date (Year t) (Month t) 1).
Proof.
  intros Hy. unfold Format_YM, Parse_YM.
  pose proof (TimeFacts.Month_range t) as Hm.
  rewrite appendInt_4, !appendInt_2 by lia.
  generalize dependent (Month t). generalize dependent (Year t). intros y Hy m Hm.
  cbn [String.append String.list_ascii_of_string forallb].
  rewrite !isDigit_digitChar by dlia. cbn [andb].
  change (Ascii.eqb "-" "-") with true. cbn [andb].
  rewrite num4_digitChar, !num2_digitChar by lia.
  replace ((1 <=? m) && (m <=? 12)) with true; [done|].
  symmetry. rewrite !andb_true_iff, !Z.leb_le. lia.
Qed.

(** What parses as a date is a date that exists, with a four-digit year. *)
Lemma Parse_YMD_Some value t :
  Parse_YMD value = Some t ->
  exists y m d, t = Date y m d /\ 0 <= y <= 9999 /\ 1 <= m <= 12 /\
                1 <= d <= daysIn m y.
Proof.
  unfold Parse_YMD. intros H.
  destruct (String.list_ascii_of_string value)
    as [|y1 [|y2 [|y3 [|y4 [|s1 [|m1 [|m2 [|s2 [|d1 [|d2 [|]]]]]]]]]]];
    try discriminate.
  destruct (forallb isDigit [y1; y2; y3; y4; m1; m2; d1; d2] && Ascii.eqb s1 "-"
            && Ascii.eqb s2 "-") eqn:E; [|discriminate].
  destruct ((1 <=? num2 m1 m2) && (num2 m1 m2 <=? 12) && (1 <=? num2 d1 d2)
            && (num2 d1 d2 <=? daysIn (num2 m1 m2) (num4 y1 y2 y3 y4))) eqn:E2;
    [|discriminate].
  injection H as <-. eexists _, _, _. split; [done|].
  rewrite !andb_true_iff, !Z.leb_le in E2.
  rewrite !andb_true_iff in E. destruct E as [[E _] _]. cbn [forallb] in E.
  rewrite !andb_true_iff in E. unfold isDigit in E.
  rewrite !andb_true_iff, !Z.leb_le in E.
  split; [|lia]. unfold num4, digitVal. lia.
Qed.

Lemma Parse_YM_Some value t :
  Parse_YM value = Some t ->
  exists y m, t = Date y m 1 /\ 0 <= y <= 9999 /\ 1 <= m <= 12.
Proof.
  unfold Parse_YM. intros H.
  destruct (String.list_ascii_of_string value)
    as [|y1 [|y2 [|y3 [|y4 [|s1 [|m1 [|m2 [|]]]]]]]]; try discriminate.
  destruct (forallb isDigit [y1; y2; y3; y4; m1; m2] && Ascii.eqb s1 "-") eqn:E;
    [|discriminate].
  destruct ((1 <=? num2 m1 m2) && (num2 m1 m2 <=? 12)) eqn:E2; [|discriminate].
  injection H as <-. eexists _, _. split; [done|].
  rewrite !andb_true_iff, !Z.leb_le in E2.
  rewrite !andb_true_iff in E. destruct E as [E _]. cbn [forallb] in E.
  rewrite !andb_true_iff in E. unfold isDigit in E.
  rewrite !andb_true_iff, !Z.leb_le in E.
  split; [|lia]. unfold num4, digitVal. lia.
Qed.

End FormatFacts.

(** ** The cell of a day *)

(** The comparison of date keys finds today. *)
Lemma isToday_sameCivilDate now y m d :
  1 <= m <= 12 -> 1 <= d <= time.daysIn m y ->
  String.eqb (time.Format_YMD (time.Date y m d)) (time.Format_YMD now)
  = sameCivilDate now y m d.
Proof.
  intros Hm Hd. apply eq_true_iff_eq. rewrite String.eqb_eq.
  unfold sameCivilDate. rewrite !andb_true_iff, !Z.eqb_eq. split.
  - intros H%FormatFacts.Format_YMD_inj.
    unfold time.Year, time.Month, time.Day. rewrite <- H.
    by rewrite TimeFacts.absDate_Date.
  - intros [[Hy Hmo] Hda]. apply FormatFacts.Format_YMD_absDay.
    rewrite <- (TimeFacts.absDay_Date_fields now). by rewrite Hy, Hmo, Hda.
Qed.

(** The colour and the text of a day of the month. *)
Lemma dayCellOf_spec now month postCounts white brightGreen showCounts d :
  1 <= d <= time.daysIn (time.Month month) (time.Year month) ->
  dayCellOf now month postCounts white brightGreen showCounts d
  = DayCell d
      (if sameCivilDate now (time.Year month) (time.Month month) d then todayColor
       else if 0 <? countOn postCounts month d then brightGreen else white)
      (if showCounts
       then if 0 <? countOn postCounts month d
            then fmt.Sprintf_2d (countOn postCounts month d) else " 0"
       else fmt.Sprintf_2d d).
Proof.
  intros Hd. unfold dayCellOf. cbv zeta.
  rewrite isToday_sameCivilDate by (done || apply TimeFacts.Month_range).
  fold (countOn postCounts month d). unfold dayStyle, todayColor.
  destruct showCounts, (0 <? countOn postCounts month d),
    (sameCivilDate now (time.Year month) (time.Month month) d); reflexivity.
Qed.

(** ** Counting posts *)

Lemma lookup_increment_eq (postCounts : gmap string Z) k :
  increment postCounts k !! k = Some (intWrap (default 0 (postCounts !! k) + 1)).
Proof. unfold increment. apply lookup_insert_eq. Qed.

Lemma lookup_increment_ne (postCounts : gmap string Z) k k' :
  k <> k' -> increment postCounts k !! k' = postCounts !! k'.
Proof. intros Hne. unfold increment. by apply lookup_insert_ne. Qed.

(** Two increments can be done in either order. *)
Lemma increment_comm (postCounts : gmap string Z) k1 k2 :
  increment (increment postCounts k1) k2 = increment (increment postCounts k2) k1.
Proof.
  destruct (decide (k1 = k2)) as [->|Hne]; [done|].
  unfold increment at 1 3.
  rewrite lookup_increment_ne, (lookup_increment_ne _ k2 k1) by done.
  unfold increment. by apply insert_insert_ne.
Qed.

Lemma countStep_comm filterText (postCounts : gmap string Z) e1 e2 :
  countStep filterText (countStep filterText postCounts e1) e2
  = countStep filterText (countStep filterText postCounts e2) e1.
Proof.
  unfold countStep.
  destruct (eligibleKey filterText e1), (eligibleKey filterText e2); try done.
  apply increment_comm.
Qed.

Lemma foldl_countStep_perm filterText (e1 e2 : list WalkEntry) :
  e1 ≡ₚ e2 ->
  forall postCounts : gmap string Z,
    foldl (countStep filterText) postCounts e1
    = foldl (countStep filterText) postCounts e2.
Proof.
  induction 1 as [|x l l' _ IH|x y l|l l' l'' _ IH1 _ IH2]; intros postCounts; simpl.
  - done.
  - apply IH.
  - by rewrite countStep_comm.
  - by rewrite IH1, IH2.
Qed.

(** A walk that meets no error is a fold of [countStep], and returns no
    error. *)
Lemma walkPosts_foldl entries filterText (postCounts : gmap string Z) out :
  forallb isWalkFile entries = true ->
  (walkPosts entries filterText postCounts out).1.1
  = foldl (countStep filterText) postCounts entries /\
  (walkPosts entries filterText postCounts out).2 = None.
Proof.
  revert postCounts out.
  induction entries as [|[err|path name parsed] entries IH]; intros postCounts out Hf;
    simpl in *; [done|discriminate|].
  unfold countStep at 2. unfold eligibleKey.
  destruct parsed as [[frontMatter postBody]|err];
    [|destruct (String.eqb name "index.md"); by apply IH].
  destruct (String.eqb name "index.md"); simpl; [|by apply IH].
  destruct (Draft frontMatter); simpl; [by apply IH|].
  destruct (negb (String.eqb filterText "") && strings.Contains postBody filterText);
    simpl; by apply IH.
Qed.

(** Every key of the index is the date key of a post that was walked. *)
Lemma walkPosts_keys entries filterText (postCounts : gmap string Z) out k :
  is_Some ((walkPosts entries filterText postCounts out).1.1 !! k) ->
  is_Some (postCounts !! k) \/
  exists path name frontMatter postBody,
    WalkFile path name (Ok (frontMatter, postBody)) ∈ entries /\
    k = time.Format_YMD (Date frontMatter).
Proof.
  revert postCounts out.
  induction entries as [|[err|path name parsed] entries IH]; intros postCounts out Hk;
    simpl in Hk; [by left|by left|].
  assert (Hrest : forall pc o,
    is_Some ((walkPosts entries filterText pc o).1.1 !! k) ->
    is_Some (pc !! k) \/
    exists path' name' frontMatter postBody,
      WalkFile path' name' (Ok (frontMatter, postBody))
        ∈ WalkFile path name parsed :: entries /\
      k = time.Format_YMD (Date frontMatter)).
  { intros pc o H. destruct (IH pc o H) as [Hl|(p & n & fm & b & Hin & ->)];
      [by left|right]. exists p, n, fm, b. split; [by constructor|done]. }
  destruct (String.eqb name "index.md"); [|by eapply Hrest].
  destruct parsed as [[frontMatter postBody]|err]; [|by eapply Hrest].
  destruct (Draft frontMatter); [by eapply Hrest|].
  destruct (negb (String.eqb filterText "") && strings.Contains postBody filterText);
    [by eapply Hrest|].
  destruct (Hrest _ _ Hk) as [Hl|Hr]; [|by right].
  destruct (decide (k = time.Format_YMD (Date frontMatter))) as [->|Hne].
  - right. exists path, name, frontMatter, postBody. split; [constructor|done].
  - left. by rewrite lookup_increment_ne in Hl.
Qed.

Lemma intWrap_small x : - 2 ^ 63 <= x < 2 ^ 63 -> intWrap x = x.
Proof. intros Hx. unfold intWrap. change (2 ^ 64) with (2 * 2 ^ 63). dlia. Qed.

(** ** Display rows *)

Lemma calendarsPerRowOf_max w : calendarsPerRowOf w = Z.max 1 (w / 22).
Proof.
  unfold calendarsPerRowOf, calendarWidth. cbv zeta.
  destruct (Z.quot w 22 <? 1) eqn:E; dlia.
Qed.

Lemma generateCalendarGrid_is_Some now noColor month postCounts white brightGreen
    showCounts :
  is_Some (generateCalendarGrid now noColor month postCounts white brightGreen
             showCounts).
Proof.
  unfold generateCalendarGrid.
  rewrite (generateCalendarCells_monthGrid _ now month postCounts white brightGreen
             showCounts (Nat.le_refl _)).
  by eexists.
Qed.

Lemma displayRow_is_Some now noColor white brightGreen rowMonths postCounts showCounts :
  is_Some (displayRow now noColor white brightGreen rowMonths postCounts showCounts).
Proof.
  unfold displayRow. cbv zeta.
  destruct (mapM _ rowMonths) as [grids|] eqn:E; [by eexists|].
  exfalso. apply eq_None_not_Some in E. apply E. apply mapM_is_Some.
  apply Forall_forall. intros month _. cbv [compose]. cbv beta.
  apply generateCalendarGrid_is_Some.
Qed.

Lemma chunksFuel_nil {A} fuel k : @chunksFuel A fuel k [] = [].
Proof. by destruct fuel. Qed.

Lemma chunksFuel_concat {A} fuel k (l : list A) :
  (1 <= k)%nat -> (length l <= fuel)%nat -> concat (chunksFuel fuel k l) = l.
Proof.
  intros Hk. revert l. induction fuel as [|fuel IH]; intros l Hl.
  - destruct l; [done|simpl in Hl; lia].
  - destruct l as [|x l]; [done|]. cbn [chunksFuel concat].
    rewrite IH; [apply take_drop|].
    rewrite length_drop. simpl in *. lia.
Qed.

Lemma chunksFuel_sizes {A} fuel k (l : list A) :
  (1 <= k)%nat ->
  Forall (fun c => (1 <= length c <= k)%nat) (chunksFuel fuel k l).
Proof.
  intros Hk. revert l. induction fuel as [|fuel IH]; intros l; [constructor|].
  destruct l as [|x l]; [constructor|]. cbn [chunksFuel].
  constructor; [|apply IH].
  rewrite length_take. simpl. lia.
Qed.

Lemma chunks_one {A} (l : list A) : chunks 1 l = map (fun x => [x]) l.
Proof.
  unfold chunks. induction l as [|x l IH]; [done|].
  simpl. rewrite take_0, drop_0. by rewrite IH.
Qed.

Lemma slice_take_drop {A} (l : list A) i k :
  0 <= i -> 0 <= k ->
  slice l i (if len l <? i + k then len l else i + k)
  = take (Z.to_nat k) (drop (Z.to_nat i) l).
Proof.
  intros Hi Hk. unfold slice, len.
  destruct (Z.of_nat (length l) <? i + k) eqn:E.
  - apply Z.ltb_lt in E. rewrite !take_ge; [done| |]; rewrite length_drop; lia.
  - f_equal. lia.
Qed.

(** The loop of [renderCalendarGrid] prints the display rows of the
    pieces of [calendarsPerRow] months, one after the other. *)
Lemma displayRows_chunks now noColor K months postCounts showCounts n i :
  1 <= K -> 0 <= i ->
  (length (drop (Z.to_nat i) months) <= n)%nat ->
  displayRows (S n) now noColor K months postCounts showCounts i
  = (blocks ← mapM (fun rowMonths =>
                      displayRow now noColor (color.New [color.FgWhite])
                        (color.New [color.FgHiGreen; color.Bold]) rowMonths
                        postCounts showCounts)
                (chunksFuel n (Z.to_nat K) (drop (Z.to_nat i) months));
     Some (concat blocks)).
Proof.
  intros HK. revert i. induction n as [|n IH]; intros i Hi Hn.
  - cbn [displayRows chunksFuel]. 
    replace (i <? len months) with false; [done|].
    symmetry. apply Z.ltb_ge. rewrite length_drop in Hn. unfold len. lia.
  - remember (S n) as fuel eqn:Hfuel. cbn [displayRows]. subst fuel.
    destruct (i <? len months) eqn:E.
    + apply Z.ltb_lt in E. unfold len in E. cbv zeta.
      rewrite slice_take_drop by lia.
      rewrite IH; [|lia|].
      2:{ rewrite length_drop in *. lia. }
      replace (Z.to_nat (i + K)) with (Z.to_nat i + Z.to_nat K)%nat by lia.
      rewrite <- drop_drop.
      destruct (drop (Z.to_nat i) months) as [|x rest] eqn:Ed.
      { exfalso. apply (f_equal length) in Ed. rewrite length_drop in Ed.
        simpl in Ed. lia. }
      cbn [chunksFuel mapM].
      destruct (displayRow _ _ _ _ (take (Z.to_nat K) (x :: rest)) _ _) as [lines|];
        [|reflexivity].
      cbn [mbind option_bind].
      destruct (mapM _ _) as [blocks|]; reflexivity.
    + apply Z.ltb_ge in E. unfold len in E.
      rewrite drop_ge by lia. by rewrite chunksFuel_nil.
Qed.

(** ** The range of months *)

Lemma daySec_Date y m d : time.daySec (time.Date y m d) = 0.
Proof. reflexivity. Qed.

Lemma Before_midnight t u :
  time.daySec t = 0 -> time.daySec u = 0 ->
  time.Before t u = (time.absDay t <? time.absDay u).
Proof.
  intros Ht Hu. unfold time.Before. rewrite Ht, Hu.
  change (0 <? 0) with false. by rewrite andb_false_r, orb_false_r.
Qed.

Lemma After_midnight t u :
  time.daySec t = 0 -> time.daySec u = 0 ->
  time.After t u = (time.absDay u <? time.absDay t).
Proof.
  intros Ht Hu. unfold time.After. rewrite Ht, Hu.
  change (0 <? 0) with false. by rewrite andb_false_r, orb_false_r.
Qed.

(** The scan for the earliest and the latest date. *)
Lemma minMax_foldl (l : list time.Time) (mn mx : time.Time) :
  time.daySec mn = 0 -> time.daySec mx = 0 ->
  Forall (fun t => time.daySec t = 0) l ->
  exists mn' mx',
    foldl (fun '(minDate, maxDate) date =>
             (if time.Before date minDate then date else minDate,
              if time.After date maxDate then date else maxDate))
      (mn, mx) l = (mn', mx') /\
    (mn' = mn \/ mn' ∈ l) /\ (mx' = mx \/ mx' ∈ l) /\
    time.absDay mn' <= time.absDay mn /\ time.absDay mx <= time.absDay mx' /\
    (forall t, t ∈ l -> time.absDay mn' <= time.absDay t <= time.absDay mx').
Proof.
  revert mn mx. induction l as [|d l IH]; intros mn mx Hmn Hmx Hl.
  - exists mn, mx. simpl. split; [done|]. split; [by left|]. split; [by left|].
    split; [lia|]. split; [lia|]. intros t Ht. by inversion Ht.
  - inversion Hl as [|? ? Hd Hl']; subst. simpl.
    rewrite Before_midnight, After_midnight by done.
    set (mn1 := if time.absDay d <? time.absDay mn then d else mn).
    set (mx1 := if time.absDay mx <? time.absDay d then d else mx).
    assert (H1 : time.daySec mn1 = 0)
      by (unfold mn1; by destruct (time.absDay d <? time.absDay mn)).
    assert (H2 : time.daySec mx1 = 0)
      by (unfold mx1; by destruct (time.absDay mx <? time.absDay d)).
    destruct (IH mn1 mx1 H1 H2 Hl') as (mn' & mx' & Hf & Hin1 & Hin2 & Hle1 & Hle2 & Hall).
    exists mn', mx'. split; [exact Hf|].
    assert (Hmn1 : (mn1 = mn \/ mn1 = d) /\ time.absDay mn1 <= time.absDay mn
                   /\ time.absDay mn1 <= time.absDay d).
    { unfold mn1. destruct (Z.ltb_spec (time.absDay d) (time.absDay mn)); split; auto; lia. }
    assert (Hmx1 : (mx1 = mx \/ mx1 = d) /\ time.absDay mx <= time.absDay mx1
                   /\ time.absDay d <= time.absDay mx1).
    { unfold mx1. destruct (Z.ltb_spec (time.absDay mx) (time.absDay d)); split; auto; lia. }
    destruct Hmn1 as (Hc1 & Hmn1a & Hmn1b). destruct Hmx1 as (Hc2 & Hmx1a & Hmx1b).
    split.
    { destruct Hin1 as [->|Hin1]; [|right; by constructor].
      destruct Hc1 as [->| ->]; [by left|right; constructor]. }
    split.
    { destruct Hin2 as [->|Hin2]; [|right; by constructor].
      destruct Hc2 as [->| ->]; [by left|right; constructor]. }
    split; [lia|]. split; [lia|].
    intros t Ht. inversion Ht; subst; [lia|]. by apply Hall.
Qed.

Lemma minMax_spec (dates : list time.Time) (first : time.Time) :
  first ∈ dates -> Forall (fun t => time.daySec t = 0) dates ->
  exists mn mx,
    minMax dates first = (mn, mx) /\ mn ∈ dates /\ mx ∈ dates /\
    (forall t, t ∈ dates -> time.absDay mn <= time.absDay t <= time.absDay mx).
Proof.
  intros Hin Hall.
  assert (Hf : time.daySec first = 0).
  { rewrite Forall_forall in Hall. by apply Hall. }
  destruct (minMax_foldl dates first first Hf Hf Hall)
    as (mn & mx & Heq & H1 & H2 & _ & _ & Hb).
  exists mn, mx. split; [exact Heq|].
  split; [by destruct H1 as [->|]|]. split; [by destruct H2 as [->|]|]. exact Hb.
Qed.

(** The month loop lists the first days of the months from [j] to [j2]. *)
Lemma monthsLoop_spec fuel j j2 months :
  j <= j2 + 1 -> j2 + 1 - j < Z.of_nat fuel ->
  monthsLoop fuel (firstOfMonth j) (firstOfMonth j2) months
  = Some (months ++ map firstOfMonth (rangeZ j (Z.to_nat (j2 + 1 - j)))).
Proof.
  revert j months. induction fuel as [|fuel IH]; intros j months Hj Hf; [lia|].
  cbn [monthsLoop]. rewrite After_midnight by reflexivity.
  destruct (Z.ltb_spec (time.absDay (firstOfMonth j2)) (time.absDay (firstOfMonth j)))
    as [Hlt|Hge]; cbn [negb].
  - apply (proj1 (TimeFacts.absDay_firstOfMonth_lt _ _)) in Hlt.
    replace (Z.to_nat (j2 + 1 - j)) with 0%nat by lia. simpl. by rewrite app_nil_r.
  - assert (j <= j2).
    { destruct (Z.le_gt_cases j j2) as [|Hgt]; [done|].
      apply (proj2 (TimeFacts.absDay_firstOfMonth_lt _ _)) in Hgt. lia. }
    rewrite TimeFacts.AddDate_firstOfMonth, IH by lia.
    rewrite <- app_assoc. do 2 f_equal.
    replace (Z.to_nat (j2 + 1 - j)) with (S (Z.to_nat (j2 + 1 - (j + 1)))) by lia.
    by rewrite rangeZ_S.
Qed.

(** In span mode, when every key is the key of a date, the months run
    from the month of the earliest date to the month of the latest. *)
Lemma selectMonths_span (keys : list string) :
  keys <> [] ->
  (forall k, k ∈ keys -> exists t, k = time.Format_YMD t /\ 0 <= time.Year t <= 9999) ->
  exists minDate maxDate : time.Time,
    (exists k, k ∈ keys /\ time.Parse_YMD k = Some minDate) /\
    (exists k, k ∈ keys /\ time.Parse_YMD k = Some maxDate) /\
    (forall k t, k ∈ keys -> time.Parse_YMD k = Some t ->
                 time.absDay minDate <= time.absDay t <= time.absDay maxDate) /\
    monthIndex minDate <= monthIndex maxDate /\
    selectMonths keys None
    = Some (Months (map firstOfMonth
                      (rangeZ (monthIndex minDate)
                         (Z.to_nat (monthIndex maxDate + 1 - monthIndex minDate))))).
Proof.
  intros Hne Hwf. unfold selectMonths.
  set (dates := omap time.Parse_YMD keys).
  assert (Hdates : forall t, t ∈ dates <-> exists k, k ∈ keys /\ time.Parse_YMD k = Some t).
  { intros t. unfold dates. apply list_elem_of_omap. }
  assert (Hmid : Forall (fun t => time.daySec t = 0) dates).
  { apply Forall_forall. intros t (k & _ & Hk)%Hdates.
    apply FormatFacts.Parse_YMD_Some in Hk as (y & m & d & -> & _). reflexivity. }
  destruct dates as [|first rest] eqn:Ed.
  { exfalso. destruct keys as [|k keys]; [done|].
    destruct (Hwf k ltac:(constructor)) as (t & -> & Hy).
    assert (Hin : time.Date (time.Year t) (time.Month t) (time.Day t) ∈ ([] : list time.Time)).
    { apply Hdates. exists (time.Format_YMD t). split; [constructor|].
      by apply FormatFacts.Parse_YMD_Format. }
    inversion Hin. }
  destruct (minMax_spec (first :: rest) first ltac:(constructor) Hmid)
    as (mn & mx & -> & Hmn & Hmx & Hb).
  exists mn, mx.
  split; [by apply Hdates|]. split; [by apply Hdates|].
  assert (Hall : forall k t, k ∈ keys -> time.Parse_YMD k = Some t ->
                   time.absDay mn <= time.absDay t <= time.absDay mx).
  { intros k t Hk Hp. apply Hb, Hdates. eauto. }
  split; [exact Hall|].
  assert (Hidx : monthIndex mn <= monthIndex mx).
  { apply TimeFacts.monthIndex_mono. specialize (Hb mn Hmn). lia. }
  split; [exact Hidx|].
  rewrite !TimeFacts.firstOfMonth_monthIndex.
  rewrite monthsLoop_spec; [done|lia|].
  pose proof (TimeFacts.absDay_firstOfMonth_le (monthIndex mn)
                (Z.to_nat (monthIndex mx - monthIndex mn))) as Hle.
  replace (monthIndex mn + Z.of_nat (Z.to_nat (monthIndex mx - monthIndex mn)))
    with (monthIndex mx) in Hle by lia.
  lia.
Qed.

(** ** An explicit month *)

(** A month that parses is shown alone. *)
Lemma selectMonths_explicit keys value target :
  time.Parse_YM value = Some target ->
  selectMonths keys (Some value)
  = Some (Months [time.Date (time.Year target) (time.Month target) 1]) /\
  time.Date (time.Year target) (time.Month target) 1 = target.
Proof.
  intros Hp. unfold selectMonths. rewrite Hp. split; [done|].
  apply FormatFacts.Parse_YM_Some in Hp as (y & m & -> & Hy & Hm).
  pose proof (TimeFacts.daysIn_range m y Hm).
  by rewrite TimeFacts.Year_Date, TimeFacts.Month_Date by lia.
Qed.

(** One month is one display row. *)
Lemma renderCalendarGrid_single now noColor ws month postCounts showCounts :
  renderCalendarGrid now noColor ws [month] postCounts showCounts
  = displayRow now noColor (color.New [color.FgWhite])
      (color.New [color.FgHiGreen; color.Bold]) [month] postCounts showCounts.
Proof.
  unfold renderCalendarGrid. cbv zeta.
  assert (HK : 1 <= calendarsPerRowOf (getTerminalWidth ws)).
  { rewrite calendarsPerRowOf_max. lia. }
  revert HK. generalize (calendarsPerRowOf (getTerminalWidth ws)). intros K HK.
  rewrite (displayRows_chunks now noColor K [month] postCounts showCounts
             (length [month]) 0)
    by (try lia; rewrite length_drop; simpl; lia).
  change (drop (Z.to_nat 0) [month]) with [month].
  cbn [length chunksFuel]. rewrite take_ge by (simpl; lia).
  cbn [mapM].
  destruct (displayRow _ _ _ _ [month] _ _) as [lines|]; [|reflexivity].
  cbn [mbind option_bind mret option_ret concat]. by rewrite app_nil_r.
Qed.

Lemma HasPrefix_dash_eqb arg flag :
  strings.HasPrefix arg "-" = false -> strings.HasPrefix flag "-" = true ->
  String.eqb arg flag = false.
Proof.
  intros Ha Hf. apply String.eqb_neq. intros ->. congruence.
Qed.

(** The colour of every day cell of a grid. *)
Lemma generateCalendarCells_colours now month postCounts white brightGreen showCounts :
  exists cells : list (list Cell),
    generateCalendarCells (gridFuel month) now month postCounts white brightGreen
      showCounts = Some cells /\
    forall (r c : nat) (d : Z) (col : color.Color) (text : string),
      gridCell cells r c = Some (DayCell d col text) ->
      1 <= d <= time.daysIn (time.Month month) (time.Year month) /\
      col = (if sameCivilDate now (time.Year month) (time.Month month) d
             then todayColor
             else if 0 <? countOn postCounts month d then brightGreen else white).
Proof.
  rewrite (generateCalendarCells_monthGrid _ now month postCounts white brightGreen
             showCounts (Nat.le_refl _)).
  eexists. split; [reflexivity|].
  pose proof (startWeekdayOf_range month) as Hs.
  pose proof (daysInMonthOf_range month) as HD.
  pose proof (dayCellOf_spec now month postCounts white brightGreen showCounts) as Hdc.
  revert Hdc.
  generalize (dayCellOf now month postCounts white brightGreen showCounts).
  rewrite <- daysInMonthOf_daysIn. revert Hs HD.
  generalize (startWeekdayOf month) (daysInMonthOf month).
  intros s D Hs HD dc Hdc r c d col text Hcell.
  rewrite gridCell_monthGrid in Hcell by lia.
  destruct ((Z.of_nat r <? weekRows s D) && (Z.of_nat c <? 7)); [|discriminate].
  injection Hcell as Hcell. unfold cellAt in Hcell. cbv zeta in Hcell.
  set (k := 7 * Z.of_nat r + Z.of_nat c - s + 1) in *.
  destruct ((1 <=? k) && (k <=? D)) eqn:Ek; [|discriminate].
  apply andb_true_iff in Ek as [Ek1%Z.leb_le Ek2%Z.leb_le].
  rewrite Hdc in Hcell by lia. injection Hcell as <- <- <-.
  split; [lia|done].
Qed.

(** ** The width of a printed row *)

Module WidthFacts.
Import StrFacts.

Lemma visible_plain s rest :
  plain s = true ->
  color.visible false (s +:+ rest) = s +:+ color.visible false rest.
Proof.
  induction s as [|c s IH]; intros Hp; [done|].
  simpl in Hp. apply andb_true_iff in Hp as [Hc Hs].
  apply negb_true_iff in Hc. cbn [String.append color.visible]. rewrite Hc.
  by rewrite IH.
Qed.

Lemma visible_in_escape pre rest :
  noM pre = true ->
  color.visible true (pre +:+ String "m" rest) = color.visible false rest.
Proof.
  induction pre as [|c pre IH]; intros Hp; [done|].
  simpl in Hp. apply andb_true_iff in Hp as [Hc Hs].
  cbn [String.append color.visible]. rewrite Hc. by apply IH.
Qed.

(** What shows of a coloured text is the text. *)
Lemma visible_wrap noColor c text rest :
  noM (color.sequence c) = true -> plain text = true ->
  color.visible false (color.wrap noColor c text +:+ rest)
  = text +:+ color.visible false rest.
Proof.
  intros Hc Ht. unfold color.wrap. destruct noColor; [by apply visible_plain|].
  unfold color.escape.
  rewrite !append_assoc. cbn [String.append color.visible].
  change (Ascii.eqb (ascii_of_nat 27) (ascii_of_nat 27)) with true. cbv iota.
  change (color.visible true (String "[" (color.sequence c +:+ String "m"
            (text +:+ String (ascii_of_nat 27) (String "[" (String "0"
               (String "m" rest)))))))
    with (color.visible true (color.sequence c +:+ String "m"
            (text +:+ String (ascii_of_nat 27) (String "[" (String "0"
               (String "m" rest)))))).
  rewrite visible_in_escape by done. rewrite visible_plain by done.
  reflexivity.
Qed.

Lemma visible_cellString noColor cell rest :
  twoWide cell ->
  color.visible false (cellString noColor cell +:+ rest)
  = cellText cell +:+ color.visible false rest.
Proof.
  destruct cell as [|d c text]; intros H; [reflexivity|].
  destruct H as (Hc & Ht & _). by apply visible_wrap.
Qed.

Lemma length_cellText cell : twoWide cell -> String.length (cellText cell) = 2%nat.
Proof. destruct cell as [|d c text]; [done|]. by intros (_ & _ & H). Qed.

(** A row of [n >= 1] cells shows [3 * n - 1] characters. *)
Lemma visibleWidth_rowString noColor cell row :
  Forall twoWide (cell :: row) ->
  color.visibleWidth (rowString noColor (cell :: row))
  = (3 * length (cell :: row) - 1)%nat.
Proof.
  unfold color.visibleWidth, rowString.
  revert cell. induction row as [|cell' row IH]; intros cell Hall.
  - inversion Hall as [|? ? Hc _]; subst. cbn [map strings.Join].
    rewrite <- (append_nil_r (cellString noColor cell)).
    rewrite visible_cellString by done. cbn [color.visible].
    rewrite append_nil_r, length_cellText by done. done.
  - inversion Hall as [|? ? Hc Hrest]; subst.
    change (strings.Join (map (cellString noColor) (cell :: cell' :: row)) " ")
      with (cellString noColor cell +:+ " "
            +:+ strings.Join (map (cellString noColor) (cell' :: row)) " ").
    rewrite visible_cellString by done.
    cbn [String.append color.visible].
    change (Ascii.eqb " " (ascii_of_nat 27)) with false. cbv iota.
    rewrite length_append, length_cellText by done.
    cbn [String.length]. rewrite (IH cell' Hrest). simpl length. lia.
Qed.

(** The two characters of a number below 100. *)
Lemma Sprintf_2d_twoWide x :
  0 <= x < 100 ->
  plain (fmt.Sprintf_2d x) = true /\ String.length (fmt.Sprintf_2d x) = 2%nat.
Proof.
  intros Hx.
  assert (Hall : forallb (fun x => plain (fmt.Sprintf_2d x)
                                   && Nat.eqb (String.length (fmt.Sprintf_2d x)) 2)
                   (rangeZ 0 100) = true) by (vm_compute; reflexivity).
  pose proof (forallb_rangeZ _ _ _ Hall x ltac:(lia)) as H. cbv beta in H.
  apply andb_true_iff in H as [H1 H2]. by apply Nat.eqb_eq in H2.
Qed.

End WidthFacts.

(** Where the days of a month lie in its grid. *)
Lemma monthGrid_days (s D : Z) (dayCell : Z -> Cell) :
  0 <= s < 7 -> 1 <= D -> (forall k, cellDay (dayCell k) = Some k) ->
  (forall r c : nat,
     Z.of_nat r < weekRows s D -> Z.of_nat c < 7 ->
     gridCell (monthGrid s D dayCell) r c
     = Some (if (s <=? 7 * Z.of_nat r + Z.of_nat c)
                && (7 * Z.of_nat r + Z.of_nat c <? s + D)
             then dayCell (7 * Z.of_nat r + Z.of_nat c - s + 1) else Blank)) /\
  (forall d, 1 <= d <= D ->
     forall r c : nat,
       gridCell (monthGrid s D dayCell) r c ≫= cellDay = Some d
       <-> Z.of_nat r = (s + d - 1) / 7 /\ Z.of_nat c = (s + d - 1) mod 7) /\
  (forall c : nat, Z.of_nat c < s -> gridCell (monthGrid s D dayCell) 0 c = Some Blank) /\
  (forall c : nat,
     (s + D - 1) mod 7 < Z.of_nat c < 7 ->
     gridCell (monthGrid s D dayCell) (Z.to_nat (weekRows s D - 1)) c = Some Blank).
Proof.
  intros Hs HD Hday.
  assert (Hcell : forall r c : nat,
    Z.of_nat r < weekRows s D -> Z.of_nat c < 7 ->
    gridCell (monthGrid s D dayCell) r c
    = Some (if (s <=? 7 * Z.of_nat r + Z.of_nat c)
               && (7 * Z.of_nat r + Z.of_nat c <? s + D)
            then dayCell (7 * Z.of_nat r + Z.of_nat c - s + 1) else Blank)).
  { intros r c Hr Hc. rewrite gridCell_monthGrid by done.
    apply Z.ltb_lt in Hr, Hc. rewrite Hr, Hc. simpl. f_equal.
    unfold cellAt. cbv zeta.
    set (p := 7 * Z.of_nat r + Z.of_nat c).
    replace ((1 <=? p - s + 1) && (p - s + 1 <=? D))
      with ((s <=? p) && (p <? s + D)); [done|].
    apply eq_true_iff_eq. rewrite !andb_true_iff, !Z.leb_le, Z.ltb_lt. lia. }
  pose proof (weekRows_pos s D Hs HD) as HR.
  split; [exact Hcell|]. split; [|split].
  - intros d Hd r c.
    destruct (decide (Z.of_nat r < weekRows s D /\ Z.of_nat c < 7)) as [[Hr Hc]|Hout].
    + rewrite Hcell by done.
      set (p := 7 * Z.of_nat r + Z.of_nat c).
      destruct ((s <=? p) && (p <? s + D)) eqn:E; simpl.
      * rewrite Hday. apply andb_true_iff in E as [E1%Z.leb_le E2%Z.ltb_lt].
        split.
        -- intros [= <-]. subst p. dlia.
        -- intros [Hr' Hc']. f_equal. subst p. dlia.
      * split; [done|]. intros [Hr' Hc']. exfalso.
        apply andb_false_iff in E as [E%Z.leb_gt|E%Z.ltb_ge]; subst p; dlia.
    + rewrite gridCell_monthGrid by done.
      destruct (Z.ltb_spec (Z.of_nat r) (weekRows s D));
        destruct (Z.ltb_spec (Z.of_nat c) 7); simpl; try (exfalso; lia).
      all: split; [done|]; intros [Hr' Hc']; exfalso;
        unfold weekRows in *; dlia.
  - intros c Hc. rewrite Hcell by lia.
    replace ((s <=? 7 * Z.of_nat 0 + Z.of_nat c)
             && (7 * Z.of_nat 0 + Z.of_nat c <? s + D)) with false; [done|].
    symmetry. apply andb_false_iff. left. apply Z.leb_gt. lia.
  - intros c Hc. rewrite Hcell by lia.
    replace (Z.of_nat (Z.to_nat (weekRows s D - 1))) with (weekRows s D - 1) by lia.
    replace ((s <=? 7 * (weekRows s D - 1) + Z.of_nat c)
             && (7 * (weekRows s D - 1) + Z.of_nat c <? s + D)) with false; [done|].
    symmetry. apply andb_false_iff. right. apply Z.ltb_ge.
    unfold weekRows in *. dlia.
Qed.

(** ** Reading a post file *)

(** Before the first delimiter nothing is kept. *)
Lemma scan_before st pre :
  inFrontMatter st = false -> frontMatterEnded st = false ->
  "---" ∉ pre -> foldl scanLine st pre = st.
Proof.
  intros Hin Hend. induction pre as [|line pre IH]; intros Hpre; [done|].
  cbn [foldl]. apply not_elem_of_cons in Hpre as [Hne Hpre].
  unfold scanLine at 2. rewrite (proj2 (String.eqb_neq line "---")) by congruence.
  rewrite Hin, Hend. cbn. by apply IH.
Qed.

(** Between the delimiters every line goes to the front matter. *)
Lemma scan_front f b fm :
  "---" ∉ fm ->
  foldl scanLine (mkScanState f b true false) fm = mkScanState (f ++ fm) b true false.
Proof.
  revert f. induction fm as [|line fm IH]; intros f Hfm; [by rewrite app_nil_r|].
  apply not_elem_of_cons in Hfm as [Hne Hfm].
  cbn [foldl]. unfold scanLine at 2.
  rewrite (proj2 (String.eqb_neq line "---")) by congruence. cbn.
  rewrite IH by done. by rewrite <- app_assoc.
Qed.

(** After the second delimiter every line but the delimiters goes to the
    body. *)
Lemma scan_body f b rest :
  foldl scanLine (mkScanState f b true true) rest
  = mkScanState f (b ++ filter (fun line => line <> "---") rest) true true.
Proof.
  revert b. induction rest as [|line rest IH]; intros b; [by rewrite app_nil_r|].
  cbn [foldl]. unfold scanLine at 2.
  cbn [inFrontMatter frontMatterEnded frontMatterLines bodyLines negb andb].
  destruct (String.eqb_spec line "---") as [->|Hne].
  - rewrite IH. rewrite filter_cons_False; [done|]. by intros H.
  - rewrite IH, filter_cons_True by done. by rewrite <- app_assoc.
Qed.

(** The front matter has ended when two delimiters were read. *)
Lemma scan_ended st lines :
  frontMatterEnded (foldl scanLine st lines)
  = frontMatterEnded st
    || (2 <=? delimiters lines + (if inFrontMatter st then 1 else 0))%nat.
Proof.
  revert st. induction lines as [|line lines IH]; intros st.
  { cbn. destruct (inFrontMatter st); cbn; by rewrite orb_false_r. }
  cbn [foldl]. rewrite IH. unfold scanLine, delimiters.
  destruct (String.eqb_spec line "---") as [->|Hne].
  - rewrite filter_cons_True by done. cbn [length].
    destruct (inFrontMatter st); cbn [negb inFrontMatter frontMatterEnded].
    + rewrite orb_true_l. symmetry. apply orb_true_iff. right.
      apply Nat.leb_le. lia.
    + f_equal. apply eq_true_iff_eq. rewrite !Nat.leb_le. lia.
  - rewrite filter_cons_False by done.
    destruct (inFrontMatter st) eqn:E1, (frontMatterEnded st) eqn:E2;
      cbn [negb andb inFrontMatter frontMatterEnded]; rewrite ?E1, ?E2; reflexivity.
Qed.

Lemma delimiters_app l1 l2 : delimiters (l1 ++ l2) = (delimiters l1 + delimiters l2)%nat.
Proof. unfold delimiters. by rewrite filter_app, length_app. Qed.

Lemma delimiters_none l : "---" ∉ l -> delimiters l = 0%nat.
Proof.
  intros H. unfold delimiters.
  destruct (filter (fun line => line = "---") l) as [|x xs] eqn:E; [done|].
  assert (Hx : x ∈ filter (fun line => line = "---") l) by (rewrite E; constructor).
  apply list_elem_of_filter in Hx as [-> Hx]. done.
Qed.

Lemma delimiters_cons l : delimiters ("---" :: l) = S (delimiters l).
Proof. unfold delimiters. by rewrite filter_cons_True. Qed.

Lemma delimiters_first l :
  (1 <= delimiters l)%nat -> exists a b, l = a ++ "---" :: b /\ ("---" ∉ a).
Proof.
  intros Hl. apply list_elem_of_split_l. apply dec_stable. intros Hn.
  apply delimiters_none in Hn. lia.
Qed.

(** A file with two delimiters or more: what is before the first, what
    is between the first two, and the rest. *)
Lemma delimiters_split lines :
  (2 <= delimiters lines)%nat ->
  exists pre fm rest,
    lines = pre ++ "---" :: fm ++ "---" :: rest /\ ("---" ∉ pre) /\ ("---" ∉ fm).
Proof.
  intros H.
  assert (H1 : (1 <= delimiters lines)%nat) by lia.
  destruct (delimiters_first lines H1) as (pre & l2 & -> & Hpre).
  rewrite delimiters_app, delimiters_cons, (delimiters_none pre) in H by done.
  assert (H2 : (1 <= delimiters l2)%nat) by lia.
  destruct (delimiters_first l2 H2) as (fm & rest & -> & Hfm).
  by exists pre, fm, rest.
Qed.

Lemma parsePostFile_few_delimiters (unmarshal : string -> result PostFrontMatter)
    (lines : list string) :
  (delimiters lines < 2)%nat ->
  parsePostFile unmarshal (Ok lines) = Err "front matter not properly closed".
Proof.
  intros H. unfold parsePostFile. cbv zeta. rewrite scan_ended.
  cbn [frontMatterEnded inFrontMatter orb].
  rewrite (proj2 (Nat.leb_gt _ _)) by lia. reflexivity.
Qed.

(** The loop of the earlier version stops where the front matter of the
    later one ends, with the same lines. *)
Lemma scanFrontMatter_scan lines f b inFM :
  (v1.scanFrontMatter lines f inFM).2
  = frontMatterEnded (foldl scanLine (mkScanState f b inFM false) lines) /\
  (frontMatterEnded (foldl scanLine (mkScanState f b inFM false) lines) = true ->
   (v1.scanFrontMatter lines f inFM).1
   = frontMatterLines (foldl scanLine (mkScanState f b inFM false) lines)).
Proof.
  revert f b inFM. induction lines as [|line lines IH]; intros f b inFM; [done|].
  cbn [foldl v1.scanFrontMatter]. unfold scanLine at 2 4 6.
  cbn [inFrontMatter frontMatterEnded frontMatterLines bodyLines].
  destruct (String.eqb line "---"), inFM; cbn [negb andb]; try apply IH.
  rewrite scan_body. by split.
Qed.

(** Both versions read the same front matter. *)
Lemma parseFrontMatter_parsePostFile (unmarshal : string -> result PostFrontMatter)
    (file : result (list string)) :
  v1.parseFrontMatter unmarshal file
  = match parsePostFile unmarshal file with
    | Ok (frontMatter, _) => Ok frontMatter
    | Err err => Err err
    end.
Proof.
  destruct file as [lines|err]; [|done].
  unfold v1.parseFrontMatter, parsePostFile. cbv zeta.
  destruct (scanFrontMatter_scan lines [] [] false) as [H2 H1].
  destruct (v1.scanFrontMatter lines [] false) as [fmLines ended].
  cbn [fst snd] in H1, H2. rewrite <- H2 in *.
  destruct ended; cbn [negb]; [|done].
  rewrite <- H1 by done. by destruct (unmarshal _).
Qed.

(** ** The arguments of the command line *)

Lemma parseArgs_loop_option now o rest config :
  optionOk o = true ->
  parseArgs_loop now (optionArgs o ++ rest) config
  = parseArgs_loop now rest (applyOption config o).
Proof.
  intros Hok. destruct o as [[|] text|[|]|[|] value]; cbn in Hok |- *; try reflexivity.
  all: by rewrite Hok.
Qed.

(** The loop reads a list of options one option at a time. *)
Lemma parseArgs_loop_options now opts rest config :
  forallb optionOk opts = true ->
  parseArgs_loop now (optionsArgs opts ++ rest) config
  = parseArgs_loop now rest (foldl applyOption config opts).
Proof.
  revert config. induction opts as [|o opts IH]; intros config Hok; [done|].
  cbn in Hok. apply andb_true_iff in Hok as [Ho Hok].
  unfold optionsArgs. cbn [map concat foldl]. rewrite <- app_assoc.
  rewrite parseArgs_loop_option by done. by apply IH.
Qed.

Lemma ProjectPath_applyOptions config opts :
  ProjectPath (foldl applyOption config opts) = ProjectPath config.
Proof.
  revert config. induction opts as [|o opts IH]; intros config; [done|].
  cbn [foldl]. rewrite IH. by destruct o.
Qed.

Lemma applyOptions_path config opts path :
  foldl applyOption
    (mkConfig path (FilterText config) (ShowCounts config) (Month config)) opts
  = mkConfig path (FilterText (foldl applyOption config opts))
      (ShowCounts (foldl applyOption config opts))
      (Month (foldl applyOption config opts)).
Proof.
  revert config. induction opts as [|o opts IH]; intros config; [done|].
  cbn [foldl]. rewrite <- IH. by destruct o.
Qed.

(** An argument that is no flag is the project path, once. *)
Lemma parseArgs_loop_path now path rest config :
  strings.HasPrefix path "-" = false ->
  parseArgs_loop now (path :: rest) config
  = if String.eqb (ProjectPath config) ""
    then parseArgs_loop now rest
           (mkConfig path (FilterText config) (ShowCounts config) (Month config))
    else Err ("unexpected argument: " +:+ path).
Proof.
  intros Hdash. cbn [parseArgs_loop].
  rewrite !(HasPrefix_dash_eqb path) by (reflexivity || done).
  cbn [orb]. by rewrite Hdash.
Qed.

Lemma parseArgs_validated now args :
  args <> [] ->
  parseArgs now args
  = match parseArgs_loop now args (mkConfig "" "" false None) with
    | Err e => Err e
    | Ok config => validated config
    end.
Proof.
  intros Hne. unfold parseArgs, validated.
  destruct args; [done|]. reflexivity.
Qed.

(** Options, the project path or not, and options again. *)
Lemma parseArgs_loop_prefix now opts1 opts2 (p : option string) rest :
  forallb optionOk (opts1 ++ opts2) = true ->
  match p with Some path => pathOk path = true | None => True end ->
  parseArgs_loop now
    (optionsArgs opts1 ++ option_list p ++ optionsArgs opts2 ++ rest)
    (mkConfig "" "" false None)
  = parseArgs_loop now rest
      (foldl applyOption (mkConfig (default "" p) "" false None) (opts1 ++ opts2)).
Proof.
  intros Hok Hp. rewrite forallb_app in Hok. apply andb_true_iff in Hok as [H1 H2].
  rewrite parseArgs_loop_options by done. rewrite foldl_app.
  destruct p as [path|].
  - change (option_list (Some path)) with [path].
    change (default "" (Some path)) with path. cbn [app].
    apply andb_true_iff in Hp as [Hne Hdash]. apply negb_true_iff in Hdash.
    rewrite parseArgs_loop_path, ProjectPath_applyOptions by done.
    cbn [ProjectPath String.eqb]. rewrite parseArgs_loop_options by done.
    f_equal. f_equal.
    symmetry. exact (applyOptions_path (mkConfig "" "" false None) opts1 path).
  - change (option_list None ++ optionsArgs opts2 ++ rest)
      with (optionsArgs opts2 ++ rest).
    by rewrite parseArgs_loop_options.
Qed.

(** What the loop leaves in the configuration comes from the arguments. *)
Lemma parseArgs_loop_ok now n args cfg c :
  (length args <= n)%nat ->
  parseArgs_loop now args cfg = Ok c ->
  (ProjectPath c = ProjectPath cfg \/
   (ProjectPath cfg = "" /\ ProjectPath c ∈ args /\
    strings.HasPrefix (ProjectPath c) "-" = false)) /\
  (Month c = Month cfg \/
   exists m, Month c = Some m /\ (m ∈ args \/ m = time.Format_YM now)) /\
  (FilterText c = FilterText cfg \/ FilterText c ∈ args) /\
  (ShowCounts c = ShowCounts cfg \/
   (ShowCounts c = true /\ ("-c" ∈ args \/ "--counts" ∈ args))).
Proof.
  revert args cfg. induction n as [|n IH]; intros args cfg Hlen Hok.
  { destruct args; [|simpl in Hlen; lia]. cbn in Hok. injection Hok as <-. tauto. }
  destruct args as [|arg rest]; [cbn in Hok; injection Hok as <-; tauto|].
  cbn [length] in Hlen. cbn [parseArgs_loop] in Hok.
  assert (Hstep : forall rest' cfg',
    (length rest' <= n)%nat ->
    (forall x, x ∈ rest' -> x ∈ arg :: rest) ->
    parseArgs_loop now rest' cfg' = Ok c ->
    (ProjectPath cfg' = ProjectPath cfg \/
     (ProjectPath cfg = "" /\ ProjectPath cfg' ∈ arg :: rest /\
      strings.HasPrefix (ProjectPath cfg') "-" = false)) ->
    (Month cfg' = Month cfg \/
     exists m, Month cfg' = Some m /\ (m ∈ arg :: rest \/ m = time.Format_YM now)) ->
    (FilterText cfg' = FilterText cfg \/ FilterText cfg' ∈ arg :: rest) ->
    (ShowCounts cfg' = ShowCounts cfg \/
     (ShowCounts cfg' = true /\ ("-c" ∈ arg :: rest \/ "--counts" ∈ arg :: rest))) ->
    (ProjectPath c = ProjectPath cfg \/
     (ProjectPath cfg = "" /\ ProjectPath c ∈ arg :: rest /\
      strings.HasPrefix (ProjectPath c) "-" = false)) /\
    (Month c = Month cfg \/
     exists m, Month c = Some m /\ (m ∈ arg :: rest \/ m = time.Format_YM now)) /\
    (FilterText c = FilterText cfg \/ FilterText c ∈ arg :: rest) /\
    (ShowCounts c = ShowCounts cfg \/
     (ShowCounts c = true /\ ("-c" ∈ arg :: rest \/ "--counts" ∈ arg :: rest)))).
  { intros rest' cfg' Hl Hsub Hok' HP HM HF HS.
    destruct (IH rest' cfg' Hl Hok') as (IP & IM & IF & IS).
    split; [|split; [|split]].
    - destruct IP as [->|(E & Hin & Hd)]; [exact HP|].
      right. split; [|split; [by apply Hsub|done]].
      destruct HP as [HP|(HP & _)]; congruence.
    - destruct IM as [->|(m & -> & [Hin| ->])]; [exact HM| |]; right; eauto.
    - destruct IF as [->|Hin]; [exact HF|]. right. by apply Hsub.
    - destruct IS as [->|(-> & [Hin|Hin])]; [exact HS| |]; right; split; auto. }
  assert (Htl : forall x, x ∈ rest -> x ∈ arg :: rest) by (intros; by constructor).
  destruct (String.eqb arg "-f" || String.eqb arg "--filter") eqn:Ef.
  { destruct rest as [|value rest']; [discriminate|].
    apply (Hstep rest' _) in Hok; [exact Hok|simpl in Hlen; lia| | | | |]; cbn; auto.
    - intros x Hx. by do 2 constructor.
    - right. by do 2 constructor. }
  destruct (String.eqb arg "-c" || String.eqb arg "--counts") eqn:Ec.
  { apply (Hstep rest _) in Hok; [exact Hok|lia|done| | | |]; cbn; auto.
    right. split; [done|].
    apply orb_true_iff in Ec as [->%String.eqb_eq| ->%String.eqb_eq];
      [left|right]; constructor. }
  destruct (String.eqb arg "-m" || String.eqb arg "--month") eqn:Em.
  { destruct rest as [|value rest'].
    - apply (Hstep [] _) in Hok; [exact Hok|simpl; lia|done| | | |]; cbn; eauto.
    - destruct (negb (strings.HasPrefix value "-")).
      + apply (Hstep rest' _) in Hok; [exact Hok|simpl in Hlen; lia| | | | |]; cbn; auto.
        * intros x Hx. by do 2 constructor.
        * right. eexists. split; [done|]. left. by do 2 constructor.
      + apply (Hstep (value :: rest') _) in Hok; [exact Hok|lia|done| | | |]; cbn; eauto. }
  destruct (strings.HasPrefix arg "-") eqn:Ed; [discriminate|].
  destruct (String.eqb_spec (ProjectPath cfg) ""); [|discriminate].
  apply (Hstep rest _) in Hok; [exact Hok|lia|done| | | |]; cbn; auto.
  right. split; [done|]. split; [constructor|done].
Qed.

(** ** The posts of a day *)

Lemma eligibleKey_countedOn filterText y m d entry :
  1 <= m <= 12 -> 1 <= d <= time.daysIn m y ->
  countedOn filterText y m d entry
  = bool_decide (eligibleKey filterText entry = Some (time.Format_YMD (time.Date y m d))).
Proof.
  intros Hm Hd. destruct entry as [err|path name [[frontMatter postBody]|err]]; try done.
  cbn [countedOn eligibleKey].
  destruct (String.eqb name "index.md" && negb (Draft frontMatter)
            && negb (negb (String.eqb filterText "")
                     && strings.Contains postBody filterText)); [|done].
  cbn [andb]. rewrite <- (isToday_sameCivilDate (Date frontMatter) y m d Hm Hd).
  destruct (String.eqb_spec (time.Format_YMD (time.Date y m d))
              (time.Format_YMD (Date frontMatter))) as [E|E].
  - symmetry. apply bool_decide_eq_true. by rewrite E.
  - symmetry. apply bool_decide_eq_false. intros [= E']. by rewrite E' in E.
Qed.

(** The count of a key after the walk: the count before, and one more
    for every file that counts for the key. *)
Lemma foldl_countStep_lookup filterText k entries :
  forall (postCounts : gmap string Z) (n0 : Z),
    0 <= n0 ->
    postCounts !! k = (if n0 =? 0 then None else Some n0) ->
    n0 + Z.of_nat (length (List.filter
                             (fun entry => bool_decide (eligibleKey filterText entry = Some k))
                             entries)) < 2 ^ 63 ->
    foldl (countStep filterText) postCounts entries !! k
    = (let n := n0 + Z.of_nat (length (List.filter
                                 (fun entry =>
                                    bool_decide (eligibleKey filterText entry = Some k))
                                 entries)) in
       if n =? 0 then None else Some n).
Proof.
  assert (H63 : 0 < 2 ^ 63) by reflexivity.
  induction entries as [|entry entries IH]; intros postCounts n0 Hn0 Hk Hlt.
  { cbn. by rewrite Z.add_0_r. }
  cbn [foldl List.filter] in Hlt |- *. unfold countStep at 2.
  destruct (decide (eligibleKey filterText entry = Some k)) as [E|E].
  - rewrite (bool_decide_eq_true_2 _ E) in Hlt |- *. cbn [length] in Hlt |- *.
    rewrite E. rewrite (IH _ (n0 + 1)); [|lia| |lia].
    + cbv zeta.
      match goal with
      | |- (if ?a =? 0 then _ else _) = (if ?b =? 0 then _ else _) =>
          replace a with b by lia
      end. reflexivity.
    + rewrite lookup_increment_eq, Hk.
      destruct (Z.eqb_spec n0 0) as [->|Hne].
      * cbn [default]. rewrite intWrap_small by lia. reflexivity.
      * cbn [default]. unfold id. rewrite intWrap_small by lia.
        destruct (Z.eqb_spec (n0 + 1) 0); [lia|done].
  - rewrite (bool_decide_eq_false_2 _ E) in Hlt |- *.
    destruct (eligibleKey filterText entry) as [k'|] eqn:Ek.
    + rewrite (IH _ n0); [done|lia| |lia].
      rewrite lookup_increment_ne by congruence. done.
    + by rewrite (IH _ n0).
Qed.

Lemma length_List_filter_le {A} (f : A -> bool) (l : list A) :
  (length (List.filter f l) <= length l)%nat.
Proof. induction l as [|x l IH]; [done|]. cbn. destruct (f x); cbn; lia. Qed.

(** A file that counts with a filter counts without one. *)
Lemma countedOn_no_filter filterText y m d entry :
  countedOn filterText y m d entry = true -> countedOn "" y m d entry = true.
Proof.
  destruct entry as [err|path name [[frontMatter postBody]|err]]; try done.
  cbn [countedOn]. change (String.eqb "" "") with true. cbn [negb andb].
  intros H. apply andb_true_iff in H as [H Hc]. apply andb_true_iff in H as [H _].
  by rewrite H, Hc.
Qed.

(** ** Warnings and errors of the walk *)

Lemma walkPosts_warnings entries filterText (postCounts : gmap string Z) out :
  forallb isWalkFile entries = true ->
  (walkPosts entries filterText postCounts out).1.2 = out ++ omap warningOf entries.
Proof.
  revert postCounts out.
  induction entries as [|[err|path name parsed] entries IH]; intros postCounts out Hw.
  - cbn. by rewrite app_nil_r.
  - discriminate.
  - cbn in Hw. cbn [walkPosts omap list_omap warningOf].
    destruct (String.eqb name "index.md").
    + destruct parsed as [[frontMatter postBody]|err].
      * destruct (Draft frontMatter); [by apply IH|].
        destruct (negb _ && _); by apply IH.
      * rewrite IH by done. by rewrite <- app_assoc.
    + destruct parsed as [[frontMatter postBody]|err]; by apply IH.
Qed.

Lemma walkPosts_app l1 l2 filterText (postCounts : gmap string Z) out :
  forallb isWalkFile l1 = true ->
  walkPosts (l1 ++ l2) filterText postCounts out
  = walkPosts l2 filterText (walkPosts l1 filterText postCounts out).1.1
      (walkPosts l1 filterText postCounts out).1.2.
Proof.
  revert postCounts out.
  induction l1 as [|[err|path name parsed] l1 IH]; intros postCounts out Hw.
  - done.
  - discriminate.
  - cbn in Hw. cbn [app walkPosts].
    destruct (String.eqb name "index.md"); [|by apply IH].
    destruct parsed as [[frontMatter postBody]|err]; [|by apply IH].
    destruct (Draft frontMatter); [by apply IH|].
    destruct (negb _ && _); by apply IH.
Qed.

(** ** The run of the whole program *)

(** In span mode the months depend on the keys that parse as dates
    only: none gives no month, otherwise the months run from the month
    of the earliest date to the month of the latest. *)
Lemma selectMonths_dates (keys : list string) :
  match omap time.Parse_YMD keys with
  | [] => selectMonths keys None = Some NoDates
  | _ :: _ =>
      exists minDate maxDate : time.Time,
        minDate ∈ omap time.Parse_YMD keys /\ maxDate ∈ omap time.Parse_YMD keys /\
        (forall t, t ∈ omap time.Parse_YMD keys ->
                   time.absDay minDate <= time.absDay t <= time.absDay maxDate) /\
        monthIndex minDate <= monthIndex maxDate /\
        selectMonths keys None
        = Some (Months (map firstOfMonth
                          (rangeZ (monthIndex minDate)
                             (Z.to_nat (monthIndex maxDate + 1 - monthIndex minDate)))))
  end.
Proof.
  unfold selectMonths.
  assert (Hmid : Forall (fun t => time.daySec t = 0) (omap time.Parse_YMD keys)).
  { apply Forall_forall. intros t (k & _ & Hk)%list_elem_of_omap.
    apply FormatFacts.Parse_YMD_Some in Hk as (y & m & d & -> & _). reflexivity. }
  destruct (omap time.Parse_YMD keys) as [|first rest]; [done|].
  assert (Hfirst : first ∈ first :: rest) by constructor.
  destruct (minMax_spec (first :: rest) first Hfirst Hmid)
    as (mn & mx & -> & Hmn & Hmx & Hb).
  exists mn, mx. split; [done|]. split; [done|]. split; [exact Hb|].
  assert (Hidx : monthIndex mn <= monthIndex mx).
  { apply TimeFacts.monthIndex_mono. specialize (Hb mn Hmn). lia. }
  split; [exact Hidx|].
  rewrite !TimeFacts.firstOfMonth_monthIndex.
  rewrite monthsLoop_spec; [done|lia|].
  pose proof (TimeFacts.absDay_firstOfMonth_le (monthIndex mn)
                (Z.to_nat (monthIndex mx - monthIndex mn))) as Hle.
  replace (monthIndex mn + Z.of_nat (Z.to_nat (monthIndex mx - monthIndex mn)))
    with (monthIndex mx) in Hle by lia.
  lia.
Qed.

Lemma selectMonths_is_Some keys monthFilter : is_Some (selectMonths keys monthFilter).
Proof.
  destruct monthFilter as [value|].
  - unfold selectMonths. by destruct (time.Parse_YM value).
  - pose proof (selectMonths_dates keys) as H.
    destruct (omap time.Parse_YMD keys); [by rewrite H|].
    destruct H as (mn & mx & _ & _ & _ & _ & ->). done.
Qed.

(** The lines of [renderCalendarGrid] are those of its display rows. *)
Lemma renderCalendarGrid_blocks now noColor ws months postCounts showCounts :
  exists blocks : list (list string),
    mapM (fun rowMonths =>
            displayRow now noColor (color.New [color.FgWhite])
              (color.New [color.FgHiGreen; color.Bold]) rowMonths postCounts
              showCounts)
      (chunks (Z.to_nat (calendarsPerRowOf (getTerminalWidth ws))) months)
    = Some blocks /\
    renderCalendarGrid now noColor ws months postCounts showCounts
    = Some (concat blocks).
Proof.
  unfold renderCalendarGrid. cbv zeta.
  set (K := calendarsPerRowOf (getTerminalWidth ws)).
  assert (HK : 1 <= K) by (unfold K; rewrite calendarsPerRowOf_max; lia).
  clearbody K.
  rewrite (displayRows_chunks now noColor K months postCounts showCounts
             (length months) 0) by (try lia; rewrite length_drop; lia).
  change (drop (Z.to_nat 0) months) with months.
  fold (chunks (Z.to_nat K) months).
  destruct (mapM _ (chunks (Z.to_nat K) months)) as [blocks|] eqn:E.
  - by exists blocks.
  - exfalso. apply eq_None_not_Some in E. apply E. apply mapM_is_Some.
    apply Forall_forall. intros rowMonths _. cbv [compose]. cbv beta.
    apply displayRow_is_Some.
Qed.

Lemma renderCalendars_is_Some now noColor ws parseErrText keys postCounts showCounts
    monthFilter :
  is_Some (renderCalendars now noColor ws parseErrText keys postCounts showCounts
             monthFilter).
Proof.
  unfold renderCalendars.
  destruct (selectMonths_is_Some keys monthFilter) as [[value| |months] ->];
    cbn [mbind option_bind]; [done|done|].
  destruct (renderCalendarGrid_blocks now noColor ws months postCounts showCounts)
    as (blocks & _ & ->). done.
Qed.

(** ** What the terminal shows of a line *)

Module ShowFacts.
Import StrFacts WidthFacts.

Lemma shows_plain s : plain s = true -> shows s s.
Proof. intros H rest. by apply visible_plain. Qed.

Lemma shows_wrap noColor c text :
  noM (color.sequence c) = true -> plain text = true ->
  shows (color.wrap noColor c text) text.
Proof. intros Hc Ht rest. by apply visible_wrap. Qed.

Lemma shows_append a va b vb : shows a va -> shows b vb -> shows (a +:+ b) (va +:+ vb).
Proof. intros Ha Hb rest. by rewrite !append_assoc, Ha, Hb. Qed.

Lemma shows_width s v : shows s v -> color.visibleWidth s = String.length v.
Proof.
  intros H. unfold color.visibleWidth. rewrite <- (append_nil_r s), H.
  cbn [color.visible]. by rewrite append_nil_r.
Qed.

Lemma Join_cons e e' rest sep :
  strings.Join (e :: e' :: rest) sep = e +:+ sep +:+ strings.Join (e' :: rest) sep.
Proof. reflexivity. Qed.

Lemma shows_Join items vs sep :
  plain sep = true -> Forall2 shows items vs ->
  shows (strings.Join items sep) (strings.Join vs sep).
Proof.
  intros Hsep H. induction H as [|s v items vs Hs Hrest IH].
  - by apply shows_plain.
  - destruct Hrest as [|s' v' items vs Hs' Hrest]; [exact Hs|].
    rewrite !Join_cons. apply shows_append; [done|].
    apply shows_append; [by apply shows_plain|done].
Qed.

Lemma length_Join vs sep n :
  Forall (fun v => String.length v = n) vs -> vs <> [] ->
  (String.length (strings.Join vs sep) + String.length sep
   = length vs * (n + String.length sep))%nat.
Proof.
  intros H Hne. induction H as [|v vs Hv Hrest IH]; [done|].
  destruct vs as [|v' vs]; [cbn; lia|].
  assert (Hne' : v' :: vs <> []) by done.
  specialize (IH Hne'). rewrite Join_cons, !length_append, Hv.
  change (length (v :: v' :: vs)) with (S (length (v' :: vs))).
  rewrite Nat.mul_succ_l. lia.
Qed.

(** Strings that show twenty characters each, two spaces between them. *)
Lemma visibleWidth_Join items :
  items <> [] -> Forall twentyWide items ->
  color.visibleWidth (strings.Join items "  ") = (22 * length items - 2)%nat.
Proof.
  intros Hne Hall.
  assert (Hvs : exists vs, Forall2 shows items vs /\
                           Forall (fun v => String.length v = 20%nat) vs).
  { clear Hne. induction Hall as [|s items (v & Hs & Hv) _ (vs & H2 & Hl)].
    - exists []. by split.
    - exists (v :: vs). split; by constructor. }
  destruct Hvs as (vs & H2 & Hl).
  rewrite (shows_width _ _ (shows_Join items vs "  " eq_refl H2)).
  assert (Hvne : vs <> []).
  { intros ->. apply Forall2_nil_inv_r in H2. done. }
  pose proof (length_Join vs "  " 20%nat Hl Hvne) as H.
  rewrite <- (Forall2_length _ _ _ H2) in H. cbn [String.length] in H. lia.
Qed.

Lemma plain_append a b : plain (a +:+ b) = plain a && plain b.
Proof. induction a as [|c a IH]; [done|]. cbn. by rewrite IH, andb_assoc. Qed.

Lemma plain_Repeat c n : plain c = true -> plain (strings.Repeat c n) = true.
Proof.
  intros Hc. induction n as [|n IH]; [done|]. cbn [strings.Repeat].
  by rewrite plain_append, Hc, IH.
Qed.

Lemma allDigits_plain s : allDigits s = true -> plain s = true.
Proof.
  induction s as [|c s IH]; [done|]. cbn. intros [Hc Hs]%andb_true_iff.
  rewrite IH by done. rewrite andb_true_r. apply negb_true_iff.
  destruct (Ascii.eqb_spec c (ascii_of_nat 27)) as [->|]; [|done].
  by vm_compute in Hc.
Qed.

Lemma plain_appendInt x w : plain (time.appendInt x w) = true.
Proof.
  unfold time.appendInt. cbv zeta.
  assert (H : plain (strings.Repeat "0" (w - String.length (strconv.utoa (Z.abs x)))
                     +:+ strconv.utoa (Z.abs x)) = true).
  { rewrite plain_append, plain_Repeat by done.
    apply allDigits_plain. apply utoa_spec. lia. }
  destruct (x <? 0); [|done]. cbn [plain]. by rewrite H.
Qed.

Lemma twentyWide_plain s : plain s = true -> String.length s = 20%nat -> twentyWide s.
Proof. intros Hp Hl. exists s. split; [by apply shows_plain|done]. Qed.

(** The header of a month with a year of four digits. *)
Lemma twentyWide_header noColor month :
  0 <= time.Year month <= 9999 ->
  twentyWide (color.wrap noColor (color.New [color.FgWhite])
                (fmt.Sprintf_left20 (time.Format_MonthYear month))).
Proof.
  intros Hy. exists (fmt.Sprintf_left20 (time.Format_MonthYear month)).
  assert (Hname : plain (time.monthName (time.Month month)) = true /\
                  (String.length (time.monthName (time.Month month)) <= 9)%nat).
  { pose proof (TimeFacts.Month_range month) as Hm.
    assert (Hall : forallb (fun m => plain (time.monthName m)
                                     && (String.length (time.monthName m) <=? 9)%nat)
                     (rangeZ 1 12) = true) by (vm_compute; reflexivity).
    assert (Hm' : 1 <= time.Month month < 1 + Z.of_nat 12) by lia.
    pose proof (forallb_rangeZ _ _ _ Hall (time.Month month) Hm') as H.
    cbv beta in H. apply andb_true_iff in H as [H1 H2].
    by apply Nat.leb_le in H2. }
  destruct Hname as [Hn1 Hn2].
  assert (Hlen : String.length (time.appendInt (time.Year month) 4) = 4%nat).
  { rewrite FormatFacts.appendInt_4 by lia. reflexivity. }
  unfold fmt.Sprintf_left20, time.Format_MonthYear. split.
  - apply shows_wrap; [reflexivity|].
    rewrite !plain_append, Hn1, plain_appendInt, plain_Repeat by done. done.
  - rewrite !length_append, length_Repeat, Hlen. cbn [String.length]. lia.
Qed.

Lemma shows_rowString noColor row :
  Forall twoWide row ->
  shows (rowString noColor row) (strings.Join (map cellText row) " ").
Proof.
  intros H. unfold rowString. apply shows_Join; [done|].
  induction H as [|cell row Hc _ IH]; constructor; [|done].
  intros rest. by apply visible_cellString.
Qed.

(** A week row shows twenty characters. *)
Lemma twentyWide_row noColor row :
  Forall twoWide row -> length row = 7%nat -> twentyWide (rowString noColor row).
Proof.
  intros H Hlen. eexists. split; [by apply shows_rowString|].
  assert (Hl : Forall (fun v => String.length v = 2%nat) (map cellText row)).
  { apply Forall_fmap. eapply Forall_impl; [exact H|]. intros c. apply length_cellText. }
  assert (Hne : map cellText row <> []) by (by destruct row).
  pose proof (length_Join _ " " _ Hl Hne) as HJ.
  rewrite length_map, Hlen in HJ. cbn [String.length] in HJ. lia.
Qed.

End ShowFacts.

(** ** The shape of a display row *)

(** A grid has four to six lines, and they show twenty characters each. *)
Lemma generateCalendarGrid_twentyWide now noColor month postCounts showCounts :
  (showCounts = true ->
   forall d, 1 <= d <= time.daysIn (time.Month month) (time.Year month) ->
             countOn postCounts month d < 100) ->
  exists grid,
    generateCalendarGrid now noColor month postCounts (color.New [color.FgWhite])
      (color.New [color.FgHiGreen; color.Bold]) showCounts = Some grid /\
    4 <= len grid <= 6 /\ Forall twentyWide grid.
Proof.
  intros Hcount. unfold generateCalendarGrid.
  rewrite (generateCalendarCells_monthGrid _ now month postCounts _ _ showCounts
             (Nat.le_refl _)).
  eexists. split; [reflexivity|].
  pose proof (daysInMonthOf_range month) as HD.
  pose proof (startWeekdayOf_range month) as Hs.
  pose proof (dayCellOf_spec now month postCounts (color.New [color.FgWhite])
                (color.New [color.FgHiGreen; color.Bold]) showCounts) as Hdc.
  revert Hdc. generalize (dayCellOf now month postCounts (color.New [color.FgWhite])
                            (color.New [color.FgHiGreen; color.Bold]) showCounts).
  revert Hcount. rewrite <- daysInMonthOf_daysIn. revert HD Hs.
  generalize (startWeekdayOf month) (daysInMonthOf month).
  intros s D HD Hs Hcount dc Hdc.
  split.
  { unfold len. rewrite length_map. fold (len (monthGrid s D dc)).
    rewrite length_monthGrid by lia. unfold weekRows. dlia. }
  assert (Hcell : forall p, twoWide (cellAt s D dc p)).
  { intros p. unfold cellAt. cbv zeta.
    destruct ((1 <=? p - s + 1) && (p - s + 1 <=? D)) eqn:E; [|exact I].
    apply andb_true_iff in E as [E1%Z.leb_le E2%Z.leb_le].
    rewrite Hdc by lia. cbn [twoWide]. split.
    { unfold todayColor.
      destruct (sameCivilDate _ _ _ _); [reflexivity|].
      destruct (0 <? countOn postCounts month (p - s + 1)); reflexivity. }
    destruct showCounts.
    - destruct (0 <? countOn postCounts month (p - s + 1)) eqn:Ec; [|done].
      apply Z.ltb_lt in Ec. apply WidthFacts.Sprintf_2d_twoWide.
      assert (Hp : 1 <= p - s + 1 <= D) by lia.
      specialize (Hcount eq_refl (p - s + 1) Hp). lia.
    - apply WidthFacts.Sprintf_2d_twoWide. lia. }
  apply Forall_forall. intros line Hline.
  apply list_elem_of_fmap in Hline as (row & -> & Hrow).
  unfold monthGrid in Hrow. apply list_elem_of_fmap in Hrow as (r & -> & _).
  apply ShowFacts.twentyWide_row; [|by apply length_weekRowOf].
  unfold weekRowOf. apply Forall_fmap, Forall_forall. intros p _. apply Hcell.
Qed.

Lemma maxRowsOf_range (grids : list (list string)) a b :
  0 <= a -> grids <> [] -> Forall (fun grid => a <= len grid <= b) grids ->
  a <= maxRowsOf grids <= b.
Proof.
  intros Ha Hne Hall. unfold maxRowsOf.
  assert (H : forall acc, 0 <= acc <= b ->
            acc <= foldl (fun maxRows grid : _ =>
                              if maxRows <? len grid then len grid else maxRows)
                     acc grids <= b /\
            (grids <> [] ->
             a <= foldl (fun maxRows grid =>
                           if maxRows <? len grid then len grid else maxRows)
                    acc grids)).
  { clear Hne. induction Hall as [|g grids Hg _ IH]; intros acc Hacc; [cbn; split; [lia|done]|].
    cbn [foldl]. destruct (Z.ltb_spec acc (len g)) as [Hlt|Hge].
    - assert (Hg' : 0 <= len g <= b) by lia.
      destruct (IH (len g) Hg') as [H1 _]. split; [lia|]. intros _. lia.
    - destruct (IH acc Hacc) as [H1 _]. split; [lia|]. intros _. lia. }
  destruct grids as [|g grids]; [done|].
  inversion Hall as [|? ? Hg _]; subst.
  assert (H0 : 0 <= 0 <= b) by lia.
  destruct (H 0 H0) as [H1 H2]. specialize (H2 Hne). lia.
Qed.

(** A display row of [k] months: the two header lines and four to six
    lines of weeks, which show [22 * k - 2] characters each, and an
    empty line. *)
Lemma displayRow_shape now noColor rowMonths postCounts showCounts :
  rowMonths <> [] ->
  Forall (fun month => 0 <= time.Year month <= 9999) rowMonths ->
  (showCounts = true ->
   forall month d,
     month ∈ rowMonths ->
     1 <= d <= time.daysIn (time.Month month) (time.Year month) ->
     countOn postCounts month d < 100) ->
  exists lines,
    displayRow now noColor (color.New [color.FgWhite])
      (color.New [color.FgHiGreen; color.Bold]) rowMonths postCounts showCounts
    = Some (lines ++ [""]) /\
    (6 <= length lines <= 8)%nat /\
    Forall (fun line => color.visibleWidth line = (22 * length rowMonths - 2)%nat) lines.
Proof.
  intros Hne Hyears Hcount. unfold displayRow. cbv zeta.
  assert (Hgrids : exists grids,
    mapM (fun month =>
            generateCalendarGrid now noColor month postCounts (color.New [color.FgWhite])
              (color.New [color.FgHiGreen; color.Bold]) showCounts) rowMonths
    = Some grids /\ length grids = length rowMonths /\
    Forall (fun grid => 4 <= len grid <= 6 /\ Forall twentyWide grid) grids).
  { clear Hne Hyears. induction rowMonths as [|month rowMonths IH].
    - exists []. by repeat split.
    - destruct IH as (grids & Hm & Hl & Hall).
      { intros Hs month' d Hin. apply Hcount; [done|by constructor]. }
      destruct (generateCalendarGrid_twentyWide now noColor month postCounts showCounts)
        as (grid & Hg & Hlen & Hw).
      { intros Hs d. apply Hcount; [done|constructor]. }
      exists (grid :: grids). split; [|split].
      + cbn [mapM]. rewrite Hg. cbn [mbind option_bind]. rewrite Hm. reflexivity.
      + cbn [length]. by rewrite Hl.
      + by constructor. }
  destruct Hgrids as (grids & -> & Hlen & Hall). cbn [mbind option_bind].
  eexists. split.
  { rewrite (app_assoc [_; _]). reflexivity. }
  assert (Hgne : grids <> []) by (destruct grids, rowMonths; done).
  assert (H4 : 0 <= 4) by lia.
  pose proof (maxRowsOf_range grids 4 6 H4 Hgne) as Hmax.
  destruct Hmax as [Hmax1 Hmax2].
  { eapply Forall_impl; [exact Hall|]. by intros g [? _]. }
  split.
  { rewrite length_app, length_map, length_seq. cbn [length]. lia. }
  assert (Hw : forall items : list string,
            length items = length rowMonths -> Forall twentyWide items ->
            color.visibleWidth (strings.Join items "  ")
            = (22 * length rowMonths - 2)%nat).
  { intros items Hl Hi. rewrite ShowFacts.visibleWidth_Join, Hl; [done| |done].
    destruct items, rowMonths; done. }
  apply Forall_app. split; [repeat constructor|].
  - apply Hw; [by rewrite length_map|].
    apply Forall_fmap. eapply Forall_impl; [exact Hyears|].
    intros month Hy. by apply ShowFacts.twentyWide_header.
  - apply Hw; [by rewrite length_map|].
    apply Forall_fmap, Forall_forall. intros month _. cbv [compose].
    exists "Su Mo Tu We Th Fr Sa". split; [by apply ShowFacts.shows_wrap|done].
  - apply Forall_fmap, Forall_forall. intros row _. cbv [compose].
    unfold gridLine. apply Hw; [by rewrite length_map|].
    apply Forall_fmap. eapply Forall_impl; [exact Hall|].
    intros grid [_ Hg]. cbv [compose].
    destruct (grid !! row) as [line|] eqn:E.
    + eapply Forall_forall; [exact Hg|]. by eapply list_elem_of_lookup_2.
    + by apply ShowFacts.twentyWide_plain.
Qed.

(** The number of pieces: [ceil (len l / k)]. *)
Lemma length_chunksFuel {A} fuel k (l : list A) :
  (1 <= k)%nat -> (length l <= fuel)%nat ->
  len (chunksFuel fuel k l) = (len l + Z.of_nat k - 1) / Z.of_nat k.
Proof.
  intros Hk.
  assert (Hnil : 0 = (0 + Z.of_nat k - 1) / Z.of_nat k).
  { assert (Hb : 1 <= Z.of_nat k) by lia. revert Hb. generalize (Z.of_nat k).
    intros b Hb. rewrite Z.div_small; lia. }
  revert l. induction fuel as [|fuel IH]; intros l Hl.
  - destruct l; [exact Hnil|simpl in Hl; lia].
  - destruct l as [|x l]; [exact Hnil|].
    cbn [chunksFuel]. unfold len in *. cbn [length].
    rewrite Nat2Z.inj_succ, IH by (rewrite length_drop; cbn [length] in *; lia).
    rewrite length_drop. cbn [length].
    destruct (Nat.le_gt_cases k (S (length l))) as [Hle|Hgt].
    + replace (Z.of_nat (S (length l) - k)) with (Z.of_nat (S (length l)) - Z.of_nat k)
        by lia.
      assert (Hb : 1 <= Z.of_nat k) by lia. revert Hb.
      generalize (Z.of_nat (S (length l))) (Z.of_nat k).
      intros a b Hb. replace (a - b + b - 1) with (a - 1) by lia.
      replace (a + b - 1) with (a - 1 + 1 * b) by lia.
      rewrite Z.div_add by lia. lia.
    + replace (S (length l) - k)%nat with 0%nat by lia.
      change (Z.of_nat 0) with 0. rewrite <- Hnil.
      assert (H1 : 1 <= Z.of_nat (S (length l)) < Z.of_nat k) by lia.
      revert H1. generalize (Z.of_nat (S (length l))) (Z.of_nat k). intros a b H1.
      replace (a + b - 1) with (a - 1 + 1 * b) by lia.
      rewrite Z.div_add, Z.div_small by lia. lia.
Qed.

Lemma elem_of_concat {A} (x : A) (ls : list (list A)) :
  x ∈ concat ls <-> exists l, l ∈ ls /\ x ∈ l.
Proof.
  induction ls as [|l ls IH]; cbn [concat].
  - split; [by intros ?%elem_of_nil|by intros (l & ?%elem_of_nil & _)].
  - rewrite elem_of_app, IH. split.
    + intros [H|(l' & H1 & H2)]; [exists l; split; [constructor|done]|].
      exists l'. split; [by constructor|done].
    + intros (l' & [->|H1]%elem_of_cons & H2); [by left|right; eauto].
Qed.

(** ** The earlier version and the later one *)

Lemma monthGrid_ext s D (dc1 dc2 : Z -> Cell) :
  (forall d, 1 <= d <= D -> dc1 d = dc2 d) -> monthGrid s D dc1 = monthGrid s D dc2.
Proof.
  intros H. unfold monthGrid. apply map_ext. intros r. unfold weekRowOf.
  apply map_ext. intros p. unfold cellAt. cbv zeta.
  destruct ((1 <=? p - s + 1) && (p - s + 1 <=? D)) eqn:E; [|done].
  apply andb_true_iff in E as [E1%Z.leb_le E2%Z.leb_le]. apply H. lia.
Qed.

(** In day-number mode a day that is not today is drawn as before. *)
Lemma dayCellOf_v1 now month postCounts white brightGreen d :
  1 <= d <= time.daysIn (time.Month month) (time.Year month) ->
  dayCellOf now month postCounts white brightGreen false d
  = if sameCivilDate now (time.Year month) (time.Month month) d
    then DayCell d todayColor (fmt.Sprintf_2d d)
    else v1.dayCellOf month postCounts white brightGreen d.
Proof.
  intros Hd. rewrite dayCellOf_spec by done. unfold v1.dayCellOf, countOn. cbv zeta.
  destruct (sameCivilDate _ _ _ _); [done|].
  by destruct (0 <? default 0 _).
Qed.

Lemma sameCivilDate_inMonth now month d :
  inMonth now month = false ->
  sameCivilDate now (time.Year month) (time.Month month) d = false.
Proof. unfold inMonth, sameCivilDate. intros ->. reflexivity. Qed.

Lemma generateCalendarGrid_v1 now noColor month postCounts white brightGreen :
  inMonth now month = false ->
  generateCalendarGrid now noColor month postCounts white brightGreen false
  = v1.generateCalendarGrid noColor month postCounts white brightGreen.
Proof.
  intros Hin. unfold generateCalendarGrid, v1.generateCalendarGrid.
  rewrite (generateCalendarCells_monthGrid _ now month postCounts white brightGreen
             false (Nat.le_refl _)).
  rewrite (v1_generateCalendarCells_monthGrid _ month postCounts white brightGreen
             (Nat.le_refl _)).
  do 2 f_equal. apply monthGrid_ext. intros d Hd.
  rewrite daysInMonthOf_daysIn in Hd.
  rewrite dayCellOf_v1 by done. by rewrite sameCivilDate_inMonth.
Qed.

Lemma mapM_ext_in {A B} (f g : A -> option B) (l : list A) :
  (forall x, x ∈ l -> f x = g x) -> mapM f l = mapM g l.
Proof.
  intros H. induction l as [|x l IH]; [done|].
  cbn [mapM]. rewrite (H x) by constructor. rewrite IH; [done|].
  intros y Hy. apply H. by constructor.
Qed.

Lemma displayRow_v1 now noColor white brightGreen rowMonths postCounts :
  (forall month, month ∈ rowMonths -> inMonth now month = false) ->
  displayRow now noColor white brightGreen rowMonths postCounts false
  = v1.displayRow noColor white brightGreen rowMonths postCounts.
Proof.
  intros H. unfold displayRow, v1.displayRow. cbv zeta.
  rewrite (mapM_ext_in _ (fun month =>
             v1.generateCalendarGrid noColor month postCounts white brightGreen));
    [done|].
  intros month Hm. by apply generateCalendarGrid_v1, H.
Qed.

Lemma elem_of_slice {A} (l : list A) i j x : x ∈ slice l i j -> x ∈ l.
Proof.
  unfold slice. intros H.
  by apply (subseteq_drop (Z.to_nat i) l), (subseteq_take (Z.to_nat (j - i))).
Qed.

Lemma displayRows_v1 fuel now noColor K months postCounts i :
  (forall month, month ∈ months -> inMonth now month = false) ->
  displayRows fuel now noColor K months postCounts false i
  = v1.displayRows fuel noColor K months postCounts i.
Proof.
  intros H. revert i. induction fuel as [|fuel IH]; intros i; [done|].
  cbn [displayRows v1.displayRows]. destruct (i <? len months); [|done].
  cbv zeta. rewrite displayRow_v1, IH; [done|].
  intros month Hm. eapply H, elem_of_slice, Hm.
Qed.

Lemma renderCalendarGrid_v1 now noColor ws months postCounts :
  109 < getTerminalWidth ws < 132 ->
  (forall month, month ∈ months -> inMonth now month = false) ->
  renderCalendarGrid now noColor ws months postCounts false
  = v1.renderCalendarGrid noColor months postCounts.
Proof.
  intros Hw Hin. unfold renderCalendarGrid, v1.renderCalendarGrid.
  cbv zeta. rewrite displayRows_v1 by done. f_equal.
  rewrite calendarsPerRowOf_max. change (Z.quot v1.terminalWidth calendarWidth) with 5.
  dlia.
Qed.

Lemma walkPosts_v1 entries (postCounts : gmap string Z) out out1 :
  length out1 = length out ->
  (v1.walkPosts (map forgetBody entries) postCounts out1).1.1
  = (walkPosts entries "" postCounts out).1.1 /\
  (v1.walkPosts (map forgetBody entries) postCounts out1).2
  = (walkPosts entries "" postCounts out).2 /\
  length (v1.walkPosts (map forgetBody entries) postCounts out1).1.2
  = length (walkPosts entries "" postCounts out).1.2.
Proof.
  revert postCounts out out1.
  induction entries as [|[err|path name [[frontMatter postBody]|err]] entries IH];
    intros postCounts out out1 Hlen; cbn [map forgetBody v1.walkPosts walkPosts].
  - done.
  - done.
  - destruct (String.eqb name "index.md"); [|by apply IH].
    destruct (Draft frontMatter); [by apply IH|].
    change (negb (String.eqb "" "") && strings.Contains postBody "") with false.
    cbv iota zeta. by apply IH.
  - destruct (String.eqb name "index.md"); [|by apply IH].
    apply IH. rewrite !length_app. cbn [length]. lia.
Qed.

Lemma Before_false_absDay t u :
  time.daySec t = 0 -> time.daySec u = 0 ->
  time.Before u t = false <-> time.absDay t <= time.absDay u.
Proof.
  intros Ht Hu. rewrite Before_midnight by done. rewrite Z.ltb_ge. done.
Qed.

Lemma monthIndex_absDay t u : time.absDay t = time.absDay u -> monthIndex t = monthIndex u.
Proof. intros H. unfold monthIndex, time.Year, time.Month. by rewrite H. Qed.

Lemma StronglySorted_lookup {A} (R : A -> A -> Prop) (l : list A) (i j : nat) a b :
  StronglySorted R l -> (i < j)%nat -> l !! i = Some a -> l !! j = Some b -> R a b.
Proof.
  intros H. revert i j. induction H as [|x l Hs IH Hall]; intros i j Hij Hi Hj; [done|].
  destruct j as [|j]; [lia|]. cbn in Hj. destruct i as [|i].
  - cbn in Hi. injection Hi as ->.
    apply (proj1 (Forall_forall _ _) Hall). by eapply list_elem_of_lookup_2.
  - cbn in Hi. apply (IH i j); [lia|done|done].
Qed.

(** With a sort that sorts, the earlier version selects the months of
    the later one. *)
Lemma selectMonths_v1
    (sortSlice : (time.Time -> time.Time -> bool) -> list time.Time -> list time.Time)
    (keys : list string) :
  (forall dates, sortSlice time.Before dates ≡ₚ dates) ->
  (forall dates,
     StronglySorted (fun a b => time.Before b a = false) (sortSlice time.Before dates)) ->
  v1.selectMonths sortSlice keys = selectMonths keys None.
Proof.
  intros Hperm Hsorted. unfold v1.selectMonths. cbv zeta.
  pose proof (selectMonths_dates keys) as Hnew.
  assert (Hmid : Forall (fun t => time.daySec t = 0) (omap time.Parse_YMD keys)).
  { apply Forall_forall. intros t (k & _ & Hk)%list_elem_of_omap.
    apply FormatFacts.Parse_YMD_Some in Hk as (y & m & d & -> & _). reflexivity. }
  specialize (Hperm (omap time.Parse_YMD keys)).
  specialize (Hsorted (omap time.Parse_YMD keys)).
  revert Hnew Hmid Hperm Hsorted.
  generalize (sortSlice time.Before (omap time.Parse_YMD keys)) as sorted.
  generalize (omap time.Parse_YMD keys) as dates.
  intros dates sorted Hnew Hmid Hperm Hsorted.
  destruct dates as [|first rest]; [by rewrite Hnew|].
  change (len (first :: rest) =? 0) with false. cbv iota.
  destruct Hnew as (mn & mx & Hmn & Hmx & Hb & Hidx & ->).
  assert (Hin : forall t, t ∈ sorted <-> t ∈ first :: rest).
  { intros t. by rewrite Hperm. }
  assert (Hmids : forall t, t ∈ sorted -> time.daySec t = 0).
  { intros t Ht%Hin. by apply (proj1 (Forall_forall _ _) Hmid). }
  destruct sorted as [|minDate sorted'] eqn:Es.
  { apply Permutation_nil_l in Hperm. done. }
  cbn [lookup list_lookup mbind option_bind].
  destruct (last_is_Some (minDate :: sorted')) as [_ [maxDate Hlast]]; [done|].
  rewrite last_lookup in Hlast.
  replace (Z.to_nat (len (minDate :: sorted') - 1))
    with (Init.Nat.pred (length (minDate :: sorted'))) by (unfold len; lia).
  rewrite Hlast. cbn [mbind option_bind].
  assert (Hmin : time.absDay minDate = time.absDay mn).
  { apply StronglySorted_inv in Hsorted as [_ Hall].
    assert (time.absDay mn <= time.absDay minDate).
    { apply Hb, Hin. constructor. }
    apply Hin in Hmn. apply elem_of_cons in Hmn as [->|Hmn]; [done|].
    pose proof (proj1 (Forall_forall _ _) Hall mn Hmn) as Hle. cbv beta in Hle.
    apply Before_false_absDay in Hle; [lia| |]; apply Hmids; by constructor. }
  assert (Hmax : time.absDay maxDate = time.absDay mx).
  { assert (HmaxIn : maxDate ∈ minDate :: sorted') by (by eapply list_elem_of_lookup_2).
    assert (time.absDay maxDate <= time.absDay mx) by (by apply Hb, Hin).
    apply Hin in Hmx.
    apply list_elem_of_lookup_1 in Hmx as [i Hi].
    destruct (decide (i = Init.Nat.pred (length (minDate :: sorted')))) as [->|Hne].
    { rewrite Hi in Hlast. by injection Hlast as ->. }
    assert (Hlt : (i < Init.Nat.pred (length (minDate :: sorted')))%nat).
    { apply lookup_lt_Some in Hi. lia. }
    pose proof (StronglySorted_lookup _ _ _ _ _ _ Hsorted Hlt Hi Hlast) as Hle.
    cbv beta in Hle.
    apply Before_false_absDay in Hle; [lia| |]; apply Hmids; by eapply list_elem_of_lookup_2. }
  rewrite !TimeFacts.firstOfMonth_monthIndex.
  rewrite (monthIndex_absDay _ _ Hmin), (monthIndex_absDay _ _ Hmax).
  rewrite monthsLoop_spec; [done|lia|].
  pose proof (TimeFacts.absDay_firstOfMonth_le (monthIndex mn)
                (Z.to_nat (monthIndex mx - monthIndex mn))) as Hle.
  replace (monthIndex mn + Z.of_nat (Z.to_nat (monthIndex mx - monthIndex mn)))
    with (monthIndex mx) in Hle by lia.
  lia.
Qed.

(** Merge sort sorts the dates. *)
Lemma mergeSort_sorts dates :
  mergeSort time.Before dates ≡ₚ dates /\
  StronglySorted (fun a b => time.Before b a = false) (mergeSort time.Before dates).
Proof.
  unfold mergeSort. split; [apply merge_sort_Permutation|].
  apply StronglySorted_merge_sort.
  - intros a b c. unfold time.Before.
    rewrite !orb_false_iff, !andb_false_iff, !Z.ltb_ge, !Z.eqb_neq. lia.
  - intros a b. unfold time.Before.
    rewrite !orb_false_iff, !andb_false_iff, !Z.ltb_ge, !Z.eqb_neq. lia.
Qed.

(** ** Counts of three digits *)

Lemma shows_cells noColor row :
  Forall plainCell row ->
  shows (rowString noColor row) (strings.Join (map cellText row) " ").
Proof.
  intros H. unfold rowString. apply ShowFacts.shows_Join; [done|].
  induction H as [|cell row Hc _ IH]; constructor; [|done].
  intros rest. destruct cell as [|d c text]; [reflexivity|].
  destruct Hc as [Hc Ht]. by apply WidthFacts.visible_wrap.
Qed.

(** The length of joined strings, with one character between them. *)
Lemma length_Join_sum vs :
  vs <> [] ->
  (String.length (strings.Join vs " ") + 1
   = foldr (fun v n => String.length v + 1 + n) 0 vs)%nat.
Proof.
  induction vs as [|v vs IH]; [done|]. intros _.
  destruct vs as [|v' vs]; [cbn; lia|].
  assert (Hne : v' :: vs <> []) by done. specialize (IH Hne).
  rewrite ShowFacts.Join_cons, !StrFacts.length_append.
  cbn [String.length foldr] in IH |- *. lia.
Qed.

Lemma digitVal_le c : strconv.isDigit c = true -> 0 <= strconv.digitVal c <= 9.
Proof.
  unfold strconv.isDigit, strconv.digitVal.
  intros [H1%Z.leb_le H2%Z.leb_le]%andb_true_iff. lia.
Qed.

Lemma Sprintf_2d_plain x : 0 <= x -> plain (fmt.Sprintf_2d x) = true.
Proof.
  intros Hx. unfold fmt.Sprintf_2d, strconv.Itoa. cbv zeta.
  destruct (Z.ltb_spec x 0) as [|_]; [lia|].
  rewrite ShowFacts.plain_append, ShowFacts.plain_Repeat by done.
  apply ShowFacts.allDigits_plain. by apply StrFacts.utoa_spec.
Qed.

Lemma Sprintf_2d_length x : (2 <= String.length (fmt.Sprintf_2d x))%nat.
Proof.
  unfold fmt.Sprintf_2d. cbv zeta.
  rewrite StrFacts.length_append, StrFacts.length_Repeat.
  cbn [String.length]. lia.
Qed.

(** A number of three digits or more is printed with three characters or
    more. *)
Lemma Sprintf_2d_wide x : 100 <= x -> (3 <= String.length (fmt.Sprintf_2d x))%nat.
Proof.
  intros Hx. unfold fmt.Sprintf_2d, strconv.Itoa. cbv zeta.
  destruct (Z.ltb_spec x 0) as [|_]; [lia|].
  assert (H0 : 0 <= x) by lia.
  destruct (StrFacts.utoa_spec x H0) as (Hv & Hd & _).
  rewrite StrFacts.length_append.
  destruct (strconv.utoa x) as [|c1 [|c2 [|c3 s]]]; cbn [String.length]; try lia.
  - cbn in Hv. lia.
  - cbn in Hv, Hd. rewrite andb_true_r in Hd. apply digitVal_le in Hd. lia.
  - cbn in Hv, Hd. rewrite andb_true_r in Hd.
    apply andb_true_iff in Hd as [H1%digitVal_le H2%digitVal_le]. lia.
Qed.

Lemma foldr_lengths_ge (vs : list string) :
  Forall (fun v => (2 <= String.length v)%nat) vs ->
  (3 * length vs <= foldr (fun v n => String.length v + 1 + n) 0 vs)%nat /\
  ((exists v, v ∈ vs /\ (3 <= String.length v)%nat) ->
   (3 * length vs + 1 <= foldr (fun v n => String.length v + 1 + n) 0 vs)%nat).
Proof.
  induction 1 as [|v vs Hv _ [IH1 IH2]]; cbn [foldr length].
  - split; [lia|]. by intros (v & ?%elem_of_nil & _).
  - split; [lia|]. intros (v' & [->|Hin]%elem_of_cons & H3); [lia|].
    assert (Hex : exists v, v ∈ vs /\ (3 <= String.length v)%nat) by eauto.
    specialize (IH2 Hex). lia.
Qed.

(** A row of seven cells with texts of two characters or more shows
    twenty characters or more, and more when a text has three. *)
Lemma visibleWidth_row_ge noColor row :
  Forall plainCell row -> length row = 7%nat ->
  Forall (fun cell => (2 <= String.length (cellText cell))%nat) row ->
  (20 <= color.visibleWidth (rowString noColor row))%nat /\
  ((exists cell, cell ∈ row /\ (3 <= String.length (cellText cell))%nat) ->
   (21 <= color.visibleWidth (rowString noColor row))%nat).
Proof.
  intros Hp Hlen Hl.
  rewrite (ShowFacts.shows_width _ _ (shows_cells noColor row Hp)).
  assert (Hne : map cellText row <> []) by (by destruct row).
  pose proof (length_Join_sum (map cellText row) Hne) as Hsum.
  assert (Hl' : Forall (fun v => (2 <= String.length v)%nat) (map cellText row)).
  { by apply Forall_fmap. }
  destruct (foldr_lengths_ge _ Hl') as [H1 H2].
  rewrite length_map, Hlen in H1, H2.
  split; [lia|].
  intros (cell & Hin & H3).
  assert (Hex : exists v, v ∈ map cellText row /\ (3 <= String.length v)%nat).
  { exists (cellText cell). split; [|done]. apply list_elem_of_fmap. eauto. }
  specialize (H2 Hex). lia.
Qed.

(** ** The order of iteration over the map *)

Lemma omap_perm {A B} (f : A -> option B) (l1 l2 : list A) :
  l1 ≡ₚ l2 -> omap f l1 ≡ₚ omap f l2.
Proof.
  induction 1 as [|x l1 l2 _ IH|x y l|l1 l2 l3 _ IH1 _ IH2]; cbn [omap list_omap].
  - done.
  - destruct (f x); [by constructor|done].
  - destruct (f x), (f y); try done. apply perm_swap.
  - by etrans.
Qed.

(** The months do not depend on the order of the keys. *)
Lemma selectMonths_perm keys1 keys2 monthFilter :
  keys1 ≡ₚ keys2 -> selectMonths keys1 monthFilter = selectMonths keys2 monthFilter.
Proof.
  intros Hperm. destruct monthFilter as [value|]; [reflexivity|].
  pose proof (selectMonths_dates keys1) as H1.
  pose proof (selectMonths_dates keys2) as H2.
  pose proof (omap_perm time.Parse_YMD _ _ Hperm) as Hd.
  destruct (omap time.Parse_YMD keys1) as [|a l1] eqn:E1.
  { apply Permutation_nil_l in Hd. rewrite <- Hd in H2. by rewrite H1, H2. }
  destruct (omap time.Parse_YMD keys2) as [|b l2] eqn:E2.
  { symmetry in Hd. by apply Permutation_nil_cons in Hd. }
  destruct H1 as (mn1 & mx1 & Hmn1 & Hmx1 & Hb1 & _ & ->).
  destruct H2 as (mn2 & mx2 & Hmn2 & Hmx2 & Hb2 & _ & ->).
  assert (Hmn : time.absDay mn1 = time.absDay mn2).
  { rewrite Hd in Hmn1. rewrite <- Hd in Hmn2.
    specialize (Hb1 _ Hmn2). specialize (Hb2 _ Hmn1). lia. }
  assert (Hmx : time.absDay mx1 = time.absDay mx2).
  { rewrite Hd in Hmx1. rewrite <- Hd in Hmx2.
    specialize (Hb1 _ Hmx2). specialize (Hb2 _ Hmx1). lia. }
  by rewrite (monthIndex_absDay _ _ Hmn), (monthIndex_absDay _ _ Hmx).
Qed.

(** ** A run of the earlier version *)

Lemma renderCalendars_v1
    (sortSlice : (time.Time -> time.Time -> bool) -> list time.Time -> list time.Time)
    (keys : list string) now noColor ws parseErrText postCounts :
  (forall dates, sortSlice time.Before dates ≡ₚ dates) ->
  (forall dates,
     StronglySorted (fun a b => time.Before b a = false) (sortSlice time.Before dates)) ->
  109 < getTerminalWidth ws < 132 ->
  (forall months month,
     selectMonths keys None = Some (Months months) -> month ∈ months ->
     inMonth now month = false) ->
  v1.renderCalendars sortSlice noColor keys postCounts
  = renderCalendars now noColor ws parseErrText keys postCounts false None.
Proof.
  intros Hperm Hsorted Hw Hin.
  unfold v1.renderCalendars, renderCalendars.
  rewrite (selectMonths_v1 sortSlice keys Hperm Hsorted).
  pose proof (selectMonths_dates keys) as Hd.
  destruct (omap time.Parse_YMD keys).
  - by rewrite Hd.
  - destruct Hd as (mn & mx & _ & _ & _ & _ & Hd). rewrite Hd in Hin |- *.
    cbn [mbind option_bind]. symmetry. apply renderCalendarGrid_v1; [done|].
    intros month Hm. by eapply Hin.
Qed.

(** Files that all can be read are counted alike by both versions. *)
Lemma walkPosts_v1_same entries (postCounts : gmap string Z) out :
  omap warningOf entries = [] ->
  v1.walkPosts (map forgetBody entries) postCounts out
  = walkPosts entries "" postCounts out.
Proof.
  revert postCounts out.
  induction entries as [|[err|path name [[frontMatter postBody]|err]] entries IH];
    intros postCounts out Hw; cbn [map forgetBody v1.walkPosts walkPosts].
  - done.
  - done.
  - destruct (String.eqb name "index.md"); [|by apply IH].
    destruct (Draft frontMatter); [by apply IH|].
    change (negb (String.eqb "" "") && strings.Contains postBody "") with false.
    cbv iota zeta. by apply IH.
  - cbn [omap list_omap warningOf] in Hw.
    destruct (String.eqb name "index.md"); [discriminate|]. by apply IH.
Qed.

(* ===================================================================== *)
(** * The claims                                                          *)
(* ===================================================================== *)

(** C1, as the claim states it, fails: with an empty index [main] prints
    that no posts were found and returns before it renders, also when a
    month is requested.  And when [renderCalendars] is called with an
    empty index for the month that holds today, the cell of today is not
    in the neutral state. *)
Lemma C1_counterexample :
  Args worldNoPosts = ["blog"; "-m"; "2024-02"] /\
  (parsePostsAndCount (Walk worldNoPosts "blog/content/posts") "").1.1 = ∅ /\
  main worldNoPosts
  = Some (mkOutcome ["No posts found in the Hugo project."] 0) /\
  (exists cells,
     generateCalendarCells (gridFuel (time.Date 2024 2 1)) (Now worldNoPosts)
       (time.Date 2024 2 1) ∅ (color.New [color.FgWhite])
       (color.New [color.FgHiGreen; color.Bold]) false = Some cells /\
     gridCell cells 2 3
     = Some (DayCell 14 (color.New [color.FgBlack; color.BgWhite]) "14")).
Proof.
  split; [reflexivity|]. split; [reflexivity|]. split; [vm_compute; reflexivity|].
  eexists. split; vm_compute; reflexivity.
Qed.

(** C1, amended.  When the month requested parses, the months to render
    are that month alone, whatever the index holds, and [renderCalendars]
    returns the lines of its one display row: it does not fail.  With an
    empty index every cell of that month that shows a day has the colour
    of today if the day is the current date, and the white colour
    otherwise.  [main] itself does not get that far: when the index is
    empty it prints that no posts were found, after the warnings of the
    walk, and returns normally without rendering. *)
Theorem C1_explicit_month_empty_index (value : string) (target : time.Time) :
  time.Parse_YM value = Some target ->
  (forall keys, selectMonths keys (Some value) = Some (Months [target])) /\
  (forall now noColor ws parseErrText keys postCounts showCounts,
     exists lines,
       displayRow now noColor (color.New [color.FgWhite])
         (color.New [color.FgHiGreen; color.Bold]) [target] postCounts showCounts
       = Some lines /\
       renderCalendars now noColor ws parseErrText keys postCounts showCounts
         (Some value) = Some lines) /\
  (forall now white brightGreen showCounts,
     exists cells,
       generateCalendarCells (gridFuel target) now target ∅ white brightGreen
         showCounts = Some cells /\
       forall (r c : nat) (d : Z) (col : color.Color) (text : string),
         gridCell cells r c = Some (DayCell d col text) ->
         col = if sameCivilDate now (time.Year target) (time.Month target) d
               then todayColor else white) /\
  (forall (w : World) (config : Config) (warnings : list string),
     parseArgs (Now w) (Args w) = Ok config ->
     Month config = Some value ->
     PostsMissing w (JoinPosts w (ProjectPath config)) = false ->
     parsePostsAndCount (Walk w (JoinPosts w (ProjectPath config))) (FilterText config)
     = (∅, warnings, None) ->
     main w
     = Some (mkOutcome (warnings ++ ["No posts found in the Hugo project."]) 0)).
Proof.
  intros Hp.
  assert (Hsel : forall keys, selectMonths keys (Some value) = Some (Months [target])).
  { intros keys. destruct (selectMonths_explicit keys _ _ Hp) as [-> Heq].
    by rewrite Heq. }
  split; [exact Hsel|]. split; [|split].
  - intros now noColor ws parseErrText keys postCounts showCounts.
    destruct (displayRow_is_Some now noColor (color.New [color.FgWhite])
                (color.New [color.FgHiGreen; color.Bold]) [target] postCounts
                showCounts) as [lines Hl].
    exists lines. split; [exact Hl|].
    unfold renderCalendars. rewrite Hsel. cbn [mbind option_bind].
    by rewrite renderCalendarGrid_single.
  - intros now white brightGreen showCounts.
    destruct (generateCalendarCells_colours now target ∅ white brightGreen showCounts)
      as (cells & Hc & Hcol).
    exists cells. split; [exact Hc|].
    intros r c d col text Hcell.
    destruct (Hcol r c d col text Hcell) as (_ & ->).
    unfold countOn. by rewrite lookup_empty.
  - intros w config warnings Hargs Hmonth Hmiss Hwalk.
    unfold main. rewrite Hargs. cbv zeta. rewrite Hmiss, Hwalk. reflexivity.
Qed.

Lemma C1_explicit_month_empty_index_witness :
  selectMonths [] (Some "2024-02") = Some (Months [time.Date 2024 2 1]).
Proof.
  refine (proj1 (C1_explicit_month_empty_index "2024-02" (time.Date 2024 2 1) _) []).
  reflexivity.
Defined.

(** C2.  For every month, [generateCalendarGrid] returns a grid of
    exactly [ceil ((startWeekday + daysInMonth) / 7)] rows of exactly 7
    cells each, where [startWeekday] is the weekday of day 1 (0 = Sunday)
    and [daysInMonth] is the length of the month, 29 for the February of
    a leap year.  The ceiling is given both by its formula and by the two
    inequalities that define it.  The same holds for the earlier version
    of the function. *)
Theorem C2_row_count (now : time.Time) (noColor : bool) (month : time.Time)
    (postCounts : gmap string Z) (white brightGreen : color.Color) (showCounts : bool) :
  let s := time.Weekday (time.Date (time.Year month) (time.Month month) 1) in
  let D := time.daysIn (time.Month month) (time.Year month) in
  startWeekdayOf month = s /\ daysInMonthOf month = D /\
  0 <= s <= 6 /\ 28 <= D <= 31 /\
  exists cells cells1 : list (list Cell),
    generateCalendarCells (gridFuel month) now month postCounts white brightGreen
      showCounts = Some cells /\
    generateCalendarGrid now noColor month postCounts white brightGreen showCounts
      = Some (map (rowString noColor) cells) /\
    v1.generateCalendarCells (gridFuel month) month postCounts white brightGreen
      = Some cells1 /\
    v1.generateCalendarGrid noColor month postCounts white brightGreen
      = Some (map (rowString noColor) cells1) /\
    len (map (rowString noColor) cells) = (s + D + 6) / 7 /\
    len (map (rowString noColor) cells1) = (s + D + 6) / 7 /\
    7 * ((s + D + 6) / 7 - 1) < s + D <= 7 * ((s + D + 6) / 7) /\
    Forall (fun row => length row = 7%nat) cells /\
    Forall (fun row => length row = 7%nat) cells1.
Proof.
  cbv zeta. rewrite <- daysInMonthOf_daysIn.
  pose proof (startWeekdayOf_range month) as Hs.
  pose proof (daysInMonthOf_range month) as HD.
  rewrite (generateCalendarCells_monthGrid _ now month postCounts white brightGreen
             showCounts (Nat.le_refl _)).
  rewrite (v1_generateCalendarCells_monthGrid _ month postCounts white brightGreen
             (Nat.le_refl _)).
  unfold generateCalendarGrid, v1.generateCalendarGrid.
  rewrite (generateCalendarCells_monthGrid _ now month postCounts white brightGreen
             showCounts (Nat.le_refl _)).
  rewrite (v1_generateCalendarCells_monthGrid _ month postCounts white brightGreen
             (Nat.le_refl _)).
  generalize (dayCellOf now month postCounts white brightGreen showCounts).
  generalize (v1.dayCellOf month postCounts white brightGreen).
  revert Hs HD. rewrite !startWeekdayOf_eq.
  generalize (time.Weekday (time.Date (time.Year month) (time.Month month) 1))
    (daysInMonthOf month).
  intros s D Hs HD dc1 dc.
  split; [done|]. split; [done|]. split; [lia|]. split; [done|].
  exists (monthGrid s D dc), (monthGrid s D dc1).
  assert (Hlen : forall dc, len (map (rowString noColor) (monthGrid s D dc))
                            = (s + D + 6) / 7).
  { intros dc'. unfold len. rewrite length_map.
    apply (length_monthGrid s D dc'); lia. }
  do 4 (split; [reflexivity|]).
  split; [apply Hlen|]. split; [apply Hlen|]. split; [dlia|].
  split; apply Forall_forall; intros row Hrow; by eapply monthGrid_rows.
Qed.

(** C3.  Every day [d] of the month stands in exactly one cell of the
    grid: the cell of row [(s + d - 1) / 7] whose column is the weekday of
    [d] (0 = Sunday), and no other cell shows [d].  The cells of row 0
    before the weekday of day 1 are blank, the cells of the last row after
    the weekday of the last day are blank, and every cell in between
    shows the next day. *)
Theorem C3_days_in_weekday_columns (now month : time.Time)
    (postCounts : gmap string Z) (white brightGreen : color.Color) (showCounts : bool) :
  let y := time.Year month in
  let m := time.Month month in
  let s := time.Weekday (time.Date y m 1) in
  let D := time.daysIn m y in
  exists cells : list (list Cell),
    generateCalendarCells (gridFuel month) now month postCounts white brightGreen
      showCounts = Some cells /\
    (forall d, 1 <= d <= D ->
       forall r c : nat,
         gridCell cells r c ≫= cellDay = Some d
         <-> Z.of_nat r = (s + d - 1) / 7 /\
             Z.of_nat c = time.Weekday (time.Date y m d)) /\
    (forall c : nat, Z.of_nat c < s -> gridCell cells 0 c = Some Blank) /\
    (forall c : nat,
       time.Weekday (time.Date y m D) < Z.of_nat c < 7 ->
       gridCell cells (length cells - 1) c = Some Blank) /\
    (forall r c : nat,
       (r < length cells)%nat -> (c < 7)%nat ->
       gridCell cells r c
       = Some (if (s <=? 7 * Z.of_nat r + Z.of_nat c)
                  && (7 * Z.of_nat r + Z.of_nat c <? s + D)
               then dayCellOf now month postCounts white brightGreen showCounts
                      (7 * Z.of_nat r + Z.of_nat c - s + 1)
               else Blank)).
Proof.
  cbv zeta.
  rewrite (generateCalendarCells_monthGrid _ now month postCounts white brightGreen
             showCounts (Nat.le_refl _)).
  eexists. split; [reflexivity|].
  pose proof (fun d => Weekday_Date_day (time.Year month) (time.Month month) d) as Hwd.
  pose proof (startWeekdayOf_range month) as Hs.
  pose proof (daysInMonthOf_range month) as HD.
  pose proof (cellDay_dayCellOf now month postCounts white brightGreen showCounts) as Hdc.
  revert Hdc. generalize (dayCellOf now month postCounts white brightGreen showCounts).
  rewrite <- daysInMonthOf_daysIn. rewrite startWeekdayOf_eq in Hs.
  rewrite !startWeekdayOf_eq. revert Hwd Hs HD.
  generalize (time.Weekday (time.Date (time.Year month) (time.Month month) 1))
    (daysInMonthOf month).
  intros s D Hwd Hs HD dc Hdc.
  destruct (monthGrid_days s D dc Hs ltac:(lia) Hdc) as (Hcell & Hdays & Hpre & Hpost).
  assert (Hlen : Z.of_nat (length (monthGrid s D dc)) = weekRows s D)
    by (apply (length_monthGrid s D dc); lia).
  pose proof (weekRows_pos s D Hs ltac:(lia)) as HR.
  split; [|split; [|split]].
  - intros d Hd r c. rewrite Hwd.
    replace (s + d - 1) with (s + d - 1) by done. apply Hdays, Hd.
  - exact Hpre.
  - intros c Hc. rewrite Hwd in Hc.
    replace (length (monthGrid s D dc) - 1)%nat with (Z.to_nat (weekRows s D - 1)) by lia.
    apply Hpost. lia.
  - intros r c Hr Hc. apply Hcell; lia.
Qed.

(** C4.  In span mode (no month requested), let the keys of the index,
    in the order [range] yields them, all be date keys.  When the index
    is empty there is no month and nothing is printed.  Otherwise the
    months start with the first of the month of the earliest date, end
    with the first of the month of the latest date, and go from one to
    the other by steps of exactly one calendar month, so that months
    without any post are included.  The keys of an index that
    [parsePostsAndCount] built from posts with four-digit years are all
    date keys. *)
Theorem C4_span_month_range (postCounts : gmap string Z) (keys : list string) :
  keys ≡ₚ (map_to_list postCounts).*1 ->
  (forall k, k ∈ keys ->
     exists t, k = time.Format_YMD t /\ 0 <= time.Year t <= 9999) ->
  (postCounts = ∅ ->
     selectMonths keys None = Some NoDates /\
     forall now noColor ws parseErrText showCounts,
       renderCalendars now noColor ws parseErrText keys postCounts showCounts None
       = Some []) /\
  (postCounts <> ∅ ->
     exists (minDate maxDate : time.Time) (months : list time.Time),
       (exists k, k ∈ keys /\ time.Parse_YMD k = Some minDate) /\
       (exists k, k ∈ keys /\ time.Parse_YMD k = Some maxDate) /\
       (forall k t, k ∈ keys -> time.Parse_YMD k = Some t ->
                    time.absDay minDate <= time.absDay t <= time.absDay maxDate) /\
       selectMonths keys None = Some (Months months) /\
       months !! 0%nat
         = Some (time.Date (time.Year minDate) (time.Month minDate) 1) /\
       last months
         = Some (time.Date (time.Year maxDate) (time.Month maxDate) 1) /\
       len months
         = 12 * (time.Year maxDate - time.Year minDate)
           + (time.Month maxDate - time.Month minDate) + 1 /\
       (forall (i : nat) (a b : time.Time),
          months !! i = Some a -> months !! S i = Some b ->
          (time.Year b, time.Month b) = nextMonth (time.Year a, time.Month a) /\
          time.Day b = 1)) /\
  (forall (entries : list WalkEntry) (filterText k : string),
     (forall path name frontMatter postBody,
        WalkFile path name (Ok (frontMatter, postBody)) ∈ entries ->
        0 <= time.Year (Date frontMatter) <= 9999) ->
     k ∈ (map_to_list (parsePostsAndCount entries filterText).1.1).*1 ->
     exists t, k = time.Format_YMD t /\ 0 <= time.Year t <= 9999).
Proof.
  intros Hperm Hwf. split; [|split].
  3:{ intros entries filterText k Hyears Hk.
      apply list_elem_of_fmap in Hk as ([k' v] & -> & Hkv).
      apply elem_of_map_to_list in Hkv. cbn [fst].
      destruct (walkPosts_keys entries filterText ∅ [] k' ltac:(by eexists))
        as [[? Hl]|(path & name & fm & body & Hin & ->)].
      { by rewrite lookup_empty in Hl. }
      exists (Date fm). split; [done|]. by eapply Hyears. }
  - intros ->. rewrite map_to_list_empty in Hperm. apply Permutation_nil_r in Hperm.
    subst keys. split; [reflexivity|]. intros. reflexivity.
  - intros Hne.
    assert (Hkeys : keys <> []).
    { intros ->. apply Hne. apply map_to_list_empty_iff.
      symmetry in Hperm. apply Permutation_nil_r in Hperm.
      by apply fmap_nil_inv in Hperm. }
    destruct (selectMonths_span keys Hkeys Hwf)
      as (mn & mx & Hmn & Hmx & Hall & Hidx & Hsel).
    pose proof (TimeFacts.firstOfMonth_monthIndex mn) as Hf1.
    pose proof (TimeFacts.firstOfMonth_monthIndex mx) as Hf2.
    assert (Hj1 : monthIndex mn = 12 * time.Year mn + (time.Month mn - 1)) by reflexivity.
    assert (Hj2 : monthIndex mx = 12 * time.Year mx + (time.Month mx - 1)) by reflexivity.
    revert Hidx Hsel Hf1 Hf2 Hj1 Hj2.
    generalize (monthIndex mn) (monthIndex mx). intros j1 j2 Hidx Hsel Hf1 Hf2 Hj1 Hj2.
    exists mn, mx, (map firstOfMonth (rangeZ j1 (Z.to_nat (j2 + 1 - j1)))).
    split; [exact Hmn|]. split; [exact Hmx|]. split; [exact Hall|].
    split; [exact Hsel|].
    split.
    { rewrite list_lookup_fmap, lookup_rangeZ by lia. cbn [fmap option_fmap option_map].
      rewrite Z.add_0_r. by rewrite Hf1. }
    split.
    { replace (Z.to_nat (j2 + 1 - j1)) with (S (Z.to_nat (j2 - j1))) by lia.
      rewrite rangeZ_snoc, map_app. cbn [map]. rewrite last_snoc.
      rewrite Hf2. do 2 f_equal. lia. }
    split.
    { unfold len. rewrite length_map, length_rangeZ. lia. }
    intros i a b Ha Hb.
    rewrite list_lookup_fmap in Ha, Hb.
    destruct (decide (S i < Z.to_nat (j2 + 1 - j1))%nat) as [Hi|Hi].
    2:{ rewrite lookup_ge_None_2 in Hb; [discriminate|]. rewrite length_rangeZ. lia. }
    rewrite lookup_rangeZ in Ha, Hb by lia.
    cbn [fmap option_fmap option_map] in Ha, Hb.
    injection Ha as <-. injection Hb as <-.
    replace (j1 + Z.of_nat (S i)) with (j1 + Z.of_nat i + 1) by lia.
    generalize (j1 + Z.of_nat i). intros j.
    rewrite !TimeFacts.Year_firstOfMonth, !TimeFacts.Month_firstOfMonth,
      TimeFacts.Day_firstOfMonth.
    split; [|done]. unfold nextMonth. cbn [fst snd].
    destruct (Z.eqb_spec (j mod 12 + 1) 12); f_equal; dlia.
Qed.

Lemma C4_span_month_range_witness :
  exists (minDate maxDate : time.Time) (months : list time.Time),
    selectMonths (map_to_list scenarioC).*1 None = Some (Months months) /\
    months !! 0%nat = Some (time.Date (time.Year minDate) (time.Month minDate) 1) /\
    last months = Some (time.Date (time.Year maxDate) (time.Month maxDate) 1) /\
    (exists k, k ∈ (map_to_list scenarioC).*1 /\ time.Parse_YMD k = Some minDate) /\
    (exists k, k ∈ (map_to_list scenarioC).*1 /\ time.Parse_YMD k = Some maxDate).
Proof.
  destruct (C4_span_month_range scenarioC (map_to_list scenarioC).*1) as [_ [H _]].
  - reflexivity.
  - intros k Hk. vm_compute in Hk.
    apply elem_of_cons in Hk as [->|Hk].
    { exists (time.Date 2024 3 3). split; [vm_compute; reflexivity|]. vm_compute.
      split; discriminate. }
    apply elem_of_cons in Hk as [->|Hk].
    { exists (time.Date 2024 1 20). split; [vm_compute; reflexivity|]. vm_compute.
      split; discriminate. }
    inversion Hk.
  - destruct H as (mn & mx & months & Hmn & Hmx & _ & Hsel & Hhead & Hlast & _).
    + intros Heq. apply (f_equal (fun m : gmap string Z => m !! "2024-01-20")) in Heq.
      vm_compute in Heq. discriminate.
    + exists mn, mx, months. auto.
Defined.

(** C5.  The index does not depend on the order of the records: two
    walks over the same records (none of which is an error of the walk
    itself) in different orders return the same map, and no error.
    Counting a record changes the count of its date only, by one; so two
    records of the same day that are no drafts, at whatever time of that
    day, give that day the count 2. *)
Theorem C5_order_independent (filterText : string) (entries1 entries2 : list WalkEntry) :
  entries1 ≡ₚ entries2 ->
  forallb isWalkFile entries1 = true ->
  (parsePostsAndCount entries1 filterText).1.1
    = (parsePostsAndCount entries2 filterText).1.1 /\
  (parsePostsAndCount entries1 filterText).2 = None /\
  (parsePostsAndCount entries2 filterText).2 = None /\
  (forall (postCounts : gmap string Z) (k k' : string),
     increment postCounts k !! k
       = Some (intWrap (default 0 (postCounts !! k) + 1)) /\
     (k <> k' -> increment postCounts k !! k' = postCounts !! k')) /\
  (forall (p1 p2 t1 t2 b1 b2 : string) (d1 d2 : time.Time),
     time.absDay d1 = time.absDay d2 ->
     (parsePostsAndCount
        [WalkFile p1 "index.md" (Ok (mkPostFrontMatter t1 d1 false, b1));
         WalkFile p2 "index.md" (Ok (mkPostFrontMatter t2 d2 false, b2))] "").1.1
     = {[ time.Format_YMD d1 := 2 ]}).
Proof.
  intros Hperm Hfiles.
  assert (Hfiles2 : forallb isWalkFile entries2 = true).
  { rewrite forallb_forall in *. intros e He. apply Hfiles.
    apply list_elem_of_In. rewrite Hperm. by apply list_elem_of_In. }
  unfold parsePostsAndCount.
  destruct (walkPosts_foldl entries1 filterText ∅ [] Hfiles) as [-> ->].
  destruct (walkPosts_foldl entries2 filterText ∅ [] Hfiles2) as [-> ->].
  split; [by apply foldl_countStep_perm|]. split; [done|]. split; [done|].
  split.
  - intros postCounts k k'. split; [apply lookup_increment_eq|].
    apply lookup_increment_ne.
  - intros p1 p2 t1 t2 b1 b2 d1 d2 Hd. simpl.
    rewrite (FormatFacts.Format_YMD_absDay d2 d1) by done.
    unfold increment. rewrite lookup_insert_eq, lookup_empty. simpl.
    rewrite insert_insert_eq. done.
Qed.

Lemma C5_order_independent_witness :
  (parsePostsAndCount
     [WalkFile "a/index.md" "index.md"
        (Ok (mkPostFrontMatter "a" (time.Date 2024 1 5) false, "x"));
      WalkFile "b/index.md" "index.md"
        (Ok (mkPostFrontMatter "b" (time.Date 2024 3 3) false, "y"));
      WalkFile "c/index.md" "index.md"
        (Ok (mkPostFrontMatter "c" (time.mkTime 738889 3600) false, "z"))] "").1.1
  = (parsePostsAndCount
       [WalkFile "b/index.md" "index.md"
          (Ok (mkPostFrontMatter "b" (time.Date 2024 3 3) false, "y"));
        WalkFile "a/index.md" "index.md"
          (Ok (mkPostFrontMatter "a" (time.Date 2024 1 5) false, "x"));
        WalkFile "c/index.md" "index.md"
          (Ok (mkPostFrontMatter "c" (time.mkTime 738889 3600) false, "z"))] "").1.1.
Proof.
  refine (proj1 (C5_order_independent "" _ _ _ _)).
  - apply perm_swap.
  - reflexivity.
Defined.

(** C6.  Every cell of the grid that shows a day shows a day [d] of the
    month, and its colour object is the one of today when [d] is the
    current date, whatever the number of posts of that day and in both
    display modes; otherwise it is the bright green one when the day has
    posts (count > 0) and the white one when it has none.  Every day of
    the month has such a cell.  The three colour objects the program
    uses are different, and so are the strings they print when colours
    are on. *)
Theorem C6_today_takes_precedence (now month : time.Time)
    (postCounts : gmap string Z) (white brightGreen : color.Color) (showCounts : bool) :
  let y := time.Year month in
  let m := time.Month month in
  let D := time.daysIn m y in
  exists cells : list (list Cell),
    generateCalendarCells (gridFuel month) now month postCounts white brightGreen
      showCounts = Some cells /\
    (forall (r c : nat) (d : Z) (col : color.Color) (text : string),
       gridCell cells r c = Some (DayCell d col text) ->
       1 <= d <= D /\
       (sameCivilDate now y m d = true -> col = todayColor) /\
       (sameCivilDate now y m d = false ->
          (0 < countOn postCounts month d -> col = brightGreen) /\
          (countOn postCounts month d <= 0 -> col = white))) /\
    (forall d, 1 <= d <= D ->
       exists (r c : nat) (col : color.Color) (text : string),
         gridCell cells r c = Some (DayCell d col text)) /\
    todayColor <> color.New [color.FgHiGreen; color.Bold] /\
    todayColor <> color.New [color.FgWhite] /\
    color.New [color.FgHiGreen; color.Bold] <> color.New [color.FgWhite] /\
    (forall text,
       color.wrap false todayColor text
         <> color.wrap false (color.New [color.FgHiGreen; color.Bold]) text /\
       color.wrap false todayColor text
         <> color.wrap false (color.New [color.FgWhite]) text).
Proof.
  cbv zeta.
  destruct (generateCalendarCells_colours now month postCounts white brightGreen
              showCounts) as (cells & Hcells & Hcol).
  exists cells. split; [exact Hcells|]. split; [|split].
  - intros r c d col text Hcell.
    destruct (Hcol r c d col text Hcell) as (Hd & ->).
    split; [exact Hd|]. split.
    + by intros ->.
    + intros ->. split.
      * intros Hc%Z.ltb_lt. by rewrite Hc.
      * intros Hc%Z.ltb_ge. by rewrite Hc.
  - rewrite (generateCalendarCells_monthGrid _ now month postCounts white brightGreen
               showCounts (Nat.le_refl _)) in Hcells.
    injection Hcells as <-.
    pose proof (startWeekdayOf_range month) as Hs.
    pose proof (daysInMonthOf_range month) as HD.
    pose proof (cellDay_dayCellOf now month postCounts white brightGreen showCounts)
      as Hcd.
    clear Hcol. revert Hcd.
    generalize (dayCellOf now month postCounts white brightGreen showCounts).
    rewrite <- daysInMonthOf_daysIn. revert Hs HD.
    generalize (startWeekdayOf month) (daysInMonthOf month).
    intros s D Hs HD dc Hcd d Hd.
    destruct (monthGrid_days s D dc Hs ltac:(lia) Hcd) as (_ & Hdays & _).
    assert (Hr : 0 <= (s + d - 1) / 7) by dlia.
    assert (Hc : 0 <= (s + d - 1) mod 7) by dlia.
    pose proof (proj2 (Hdays d Hd (Z.to_nat ((s + d - 1) / 7))
                         (Z.to_nat ((s + d - 1) mod 7))) ltac:(lia)) as Hex.
    destruct (gridCell (monthGrid s D dc) _ _) as [[|d' col text]|] eqn:E;
      simpl in Hex; try discriminate.
    injection Hex as ->. by eexists _, _, col, text.
  - do 3 (split; [discriminate|]). intros text.
    split; intros H; vm_compute in H; discriminate.
Qed.

(** C7.  For every terminal width [w], the negative ones included, the
    number of calendars per display row is [max 1 (floor (w / 22))].
    When the terminal cannot be asked the width is 80, which gives 3, and
    a width of 30 gives 1.  Rendering never fails: whatever the width and
    the months, [renderCalendarGrid] returns the lines of the display
    rows of the months cut into pieces of that many months, each piece
    holding at least one month and at most that many; with one calendar
    per row every display row holds exactly one month. *)
Theorem C7_calendars_per_row :
  (forall w, calendarsPerRowOf w = Z.max 1 (w / 22)) /\
  (forall ws,
     calendarsPerRowOf (getTerminalWidth ws) = Z.max 1 (getTerminalWidth ws / 22) /\
     1 <= calendarsPerRowOf (getTerminalWidth ws)) /\
  (forall ws,
     (retCode ws =? -1) || negb (errno ws =? 0) = true ->
     getTerminalWidth ws = 80 /\ calendarsPerRowOf (getTerminalWidth ws) = 3) /\
  calendarsPerRowOf 30 = 1 /\
  (forall w, w < 22 -> calendarsPerRowOf w = 1) /\
  (forall now noColor ws months postCounts showCounts,
     exists blocks : list (list string),
       mapM (fun rowMonths =>
               displayRow now noColor (color.New [color.FgWhite])
                 (color.New [color.FgHiGreen; color.Bold]) rowMonths postCounts
                 showCounts)
         (chunks (Z.to_nat (calendarsPerRowOf (getTerminalWidth ws))) months)
       = Some blocks /\
       renderCalendarGrid now noColor ws months postCounts showCounts
       = Some (concat blocks) /\
       concat (chunks (Z.to_nat (calendarsPerRowOf (getTerminalWidth ws))) months)
       = months /\
       Forall (fun rowMonths =>
                 1 <= len rowMonths <= calendarsPerRowOf (getTerminalWidth ws))
         (chunks (Z.to_nat (calendarsPerRowOf (getTerminalWidth ws))) months)) /\
  (forall months : list time.Time, chunks 1 months = map (fun m => [m]) months).
Proof.
  assert (Hpos : forall w, 1 <= calendarsPerRowOf w).
  { intros w. rewrite calendarsPerRowOf_max. lia. }
  split; [apply calendarsPerRowOf_max|].
  split; [intros ws; split; [apply calendarsPerRowOf_max|apply Hpos]|].
  split.
  { intros ws Hfail. unfold getTerminalWidth. rewrite Hfail. done. }
  split; [reflexivity|].
  split.
  { intros w Hw. rewrite calendarsPerRowOf_max. dlia. }
  split; [|apply @chunks_one].
  intros now noColor ws months postCounts showCounts.
  unfold renderCalendarGrid. cbv zeta.
  set (K := calendarsPerRowOf (getTerminalWidth ws)).
  assert (HK : 1 <= K) by apply Hpos. clearbody K.
  rewrite (displayRows_chunks now noColor K months postCounts showCounts
             (length months) 0) by (try lia; rewrite length_drop; lia).
  change (drop (Z.to_nat 0) months) with months.
  fold (chunks (Z.to_nat K) months).
  destruct (mapM _ (chunks (Z.to_nat K) months)) as [blocks|] eqn:E.
  - exists blocks. split; [done|]. split; [done|].
    split; [apply chunksFuel_concat; lia|].
    eapply Forall_impl; [apply chunksFuel_sizes; lia|].
    intros c Hc. simpl in Hc. unfold len. lia.
  - exfalso. apply eq_None_not_Some in E. apply E. apply mapM_is_Some.
    apply Forall_forall. intros rowMonths _. cbv [compose]. cbv beta.
    apply displayRow_is_Some.
Qed.

(** C8.  The loop of [generateCalendarGrid] ends: with the fuel the
    function gives it, and with any larger fuel, it returns the same grid,
    and that grid has at least one row.  The loop stops after the row that
    takes the day counter past the last day.  The loops also end, with at
    least one row, for any start weekday and day count whatever. *)
Theorem C8_loop_terminates (now : time.Time) (noColor : bool) (month : time.Time)
    (postCounts : gmap string Z) (white brightGreen : color.Color) (showCounts : bool) :
  (exists cells : list (list Cell),
     (forall fuel, (gridFuel month <= fuel)%nat ->
        generateCalendarCells fuel now month postCounts white brightGreen showCounts
        = Some cells) /\
     generateCalendarGrid now noColor month postCounts white brightGreen showCounts
       = Some (map (rowString noColor) cells) /\
     1 <= len (map (rowString noColor) cells) /\
     dayAt (startWeekdayOf month) (daysInMonthOf month) (7 * (len cells - 1))
       <= daysInMonthOf month
       < dayAt (startWeekdayOf month) (daysInMonthOf month) (7 * len cells)) /\
  (forall (s D : Z) (dayCell : Z -> Cell),
     exists grid, gridLoop s D dayCell (S (Z.to_nat D)) 1 0 [] = Some grid /\
                  1 <= len grid).
Proof.
  split; [|apply gridLoop_terminates].
  pose proof (startWeekdayOf_range month) as Hs.
  pose proof (daysInMonthOf_range month) as HD.
  exists (monthGrid (startWeekdayOf month) (daysInMonthOf month)
            (dayCellOf now month postCounts white brightGreen showCounts)).
  split; [intros fuel Hf; by apply generateCalendarCells_monthGrid|].
  split. { unfold generateCalendarGrid.
           by rewrite generateCalendarCells_monthGrid. }
  generalize (dayCellOf now month postCounts white brightGreen showCounts).
  revert Hs HD. generalize (startWeekdayOf month) (daysInMonthOf month).
  intros s D Hs HD dc.
  assert (Hlen : len (monthGrid s D dc) = weekRows s D)
    by (apply length_monthGrid; lia).
  split.
  - unfold len in *. rewrite length_map, Hlen. apply weekRows_pos; lia.
  - rewrite Hlen. clear Hlen. unfold dayAt, weekRows.
    destruct (7 * ((s + D + 6) / 7 - 1) <? s) eqn:E1;
      destruct (7 * ((s + D + 6) / 7) <? s) eqn:E2; dlia.
Qed.

(** C9.  The grid lines are not always 20 characters wide: the claim
    does not hold of the program in count mode.  A hundred posts on one
    day give that day the count 100, which ["%2d"] prints with three
    characters, so the week row of that day shows 21 characters, while the
    other rows and the filler line show 20. *)
Theorem C9_three_digit_count_widens_row :
  (parsePostsAndCount hundredPosts "").1.1 = {[ "2024-01-05" := 100 ]} /\
  (forall noColor,
     exists grid,
       generateCalendarGrid (time.Date 2024 2 14) noColor (time.Date 2024 1 1)
         {[ "2024-01-05" := 100 ]} (color.New [color.FgWhite])
         (color.New [color.FgHiGreen; color.Bold]) true = Some grid /\
       map color.visibleWidth grid = [21; 20; 20; 20; 20]%nat) /\
  generateCalendarGrid (time.Date 2024 2 14) true (time.Date 2024 1 1)
    {[ "2024-01-05" := 100 ]} (color.New [color.FgWhite])
    (color.New [color.FgHiGreen; color.Bold]) true
  = Some ["    0  0  0  0 100  0";
          " 0  0  0  0  0  0  0";
          " 0  0  0  0  0  0  0";
          " 0  0  0  0  0  0  0";
          " 0  0  0  0         "] /\
  color.visibleWidth (strings.Repeat " " 20) = 20%nat.
Proof.
  split; [vm_compute; reflexivity|]. split.
  - intros [|]; eexists; split; vm_compute; reflexivity.
  - split; vm_compute; reflexivity.
Qed.

(** C10.  When [-m] or [--month] is the last argument, or the argument
    after it starts with a dash, the loop of [parseArgs] sets the month of
    the configuration to the current month in the form ["2006-01"] and
    goes on with the next argument: the flag is not rejected and the month
    is not left unset.  With a current year of four digits the validation
    of [parseArgs] accepts that month, [parseArgs] of a project path
    followed by the flag returns the configuration with it, and the months
    to render are the current month alone. *)
Theorem C10_month_flag_without_value (now : time.Time) (flag : string)
    (rest : list string) (config : Config) :
  String.eqb flag "-m" || String.eqb flag "--month" = true ->
  match rest with
  | [] => True
  | next :: _ => strings.HasPrefix next "-" = true
  end ->
  parseArgs_loop now (flag :: rest) config
  = parseArgs_loop now rest
      (mkConfig (ProjectPath config) (FilterText config) (ShowCounts config)
         (Some (time.Format_YM now))) /\
  (0 <= time.Year now <= 9999 ->
   time.Parse_YM (time.Format_YM now)
   = Some (time.Date (time.Year now) (time.Month now) 1) /\
   (forall keys,
      selectMonths keys (Some (time.Format_YM now))
      = Some (Months [time.Date (time.Year now) (time.Month now) 1])) /\
   (forall path,
      path <> "" -> strings.HasPrefix path "-" = false ->
      parseArgs now [path; flag]
      = Ok (mkConfig path "" false (Some (time.Format_YM now))))).
Proof.
  intros Hflag Hrest.
  assert (Hstep : forall rest' cfg,
    match rest' with [] => True | next :: _ => strings.HasPrefix next "-" = true end ->
    parseArgs_loop now (flag :: rest') cfg
    = parseArgs_loop now rest'
        (mkConfig (ProjectPath cfg) (FilterText cfg) (ShowCounts cfg)
           (Some (time.Format_YM now)))).
  { intros rest' cfg Hr. cbn [parseArgs_loop].
    assert (Hf : String.eqb flag "-f" || String.eqb flag "--filter" = false).
    { apply orb_true_iff in Hflag as [->%String.eqb_eq| ->%String.eqb_eq]; reflexivity. }
    assert (Hc : String.eqb flag "-c" || String.eqb flag "--counts" = false).
    { apply orb_true_iff in Hflag as [->%String.eqb_eq| ->%String.eqb_eq]; reflexivity. }
    rewrite Hf, Hc, Hflag.
    destruct rest' as [|next rest'']; [reflexivity|]. by rewrite Hr. }
  split; [by apply Hstep|].
  intros Hy.
  pose proof (FormatFacts.Parse_YM_Format now Hy) as Hp.
  split; [exact Hp|]. split.
  - intros keys. destruct (selectMonths_explicit keys _ _ Hp) as [-> Heq].
    by rewrite Heq.
  - intros path Hne Hdash. unfold parseArgs.
    change (len [path; flag] =? 0) with false. cbv iota.
    assert (Hpath : parseArgs_loop now [path; flag] (mkConfig "" "" false None)
                    = parseArgs_loop now [flag] (mkConfig path "" false None)).
    { cbn [parseArgs_loop].
      rewrite !(HasPrefix_dash_eqb path) by (reflexivity || done).
      cbn [orb]. rewrite Hdash. reflexivity. }
    rewrite Hpath, (Hstep [] _ I). cbn [parseArgs_loop ProjectPath Month].
    apply String.eqb_neq in Hne. rewrite Hne, Hp. reflexivity.
Qed.

Lemma C10_month_flag_without_value_witness :
  parseArgs_loop (time.Date 2024 2 14) ["--month"; "-c"; "blog"]
    (mkConfig "" "" false None)
  = parseArgs_loop (time.Date 2024 2 14) ["-c"; "blog"]
      (mkConfig "" "" false (Some (time.Format_YM (time.Date 2024 2 14)))).
Proof.
  refine (proj1 (C10_month_flag_without_value (time.Date 2024 2 14) "--month"
                   ["-c"; "blog"] (mkConfig "" "" false None) _ _)).
  - reflexivity.
  - reflexivity.
Defined.

(* ===================================================================== *)
(** * Further properties                                                  *)
(* ===================================================================== *)

(** In day-number mode, and in count mode when no day of the month has a
    hundred posts or more, every line of the grid shows exactly 20
    characters: 7 cells of 2 characters and 6 spaces between them. *)
Theorem rows_twenty_wide (now : time.Time) (noColor : bool) (month : time.Time)
    (postCounts : gmap string Z) (showCounts : bool) :
  (showCounts = true ->
   forall d, 1 <= d <= time.daysIn (time.Month month) (time.Year month) ->
             countOn postCounts month d < 100) ->
  exists grid,
    generateCalendarGrid now noColor month postCounts (color.New [color.FgWhite])
      (color.New [color.FgHiGreen; color.Bold]) showCounts = Some grid /\
    Forall (fun line => color.visibleWidth line = 20%nat) grid.
Proof.
  intros Hcount. unfold generateCalendarGrid.
  rewrite (generateCalendarCells_monthGrid _ now month postCounts _ _ showCounts
             (Nat.le_refl _)).
  eexists. split; [reflexivity|].
  pose proof (daysInMonthOf_range month) as HD.
  pose proof (dayCellOf_spec now month postCounts (color.New [color.FgWhite])
                (color.New [color.FgHiGreen; color.Bold]) showCounts) as Hdc.
  revert Hdc. generalize (dayCellOf now month postCounts (color.New [color.FgWhite])
                            (color.New [color.FgHiGreen; color.Bold]) showCounts).
  revert Hcount. rewrite <- daysInMonthOf_daysIn. revert HD.
  generalize (startWeekdayOf month) (daysInMonthOf month).
  intros s D HD Hcount dc Hdc.
  assert (Hcell : forall p, twoWide (cellAt s D dc p)).
  { intros p. unfold cellAt. cbv zeta.
    destruct ((1 <=? p - s + 1) && (p - s + 1 <=? D)) eqn:E; [|exact I].
    apply andb_true_iff in E as [E1%Z.leb_le E2%Z.leb_le].
    rewrite Hdc by lia. cbn [twoWide]. split.
    { unfold todayColor.
      destruct (sameCivilDate _ _ _ _); [reflexivity|].
      destruct (0 <? countOn postCounts month (p - s + 1)); reflexivity. }
    destruct showCounts.
    - destruct (0 <? countOn postCounts month (p - s + 1)) eqn:Ec; [|done].
      apply Z.ltb_lt in Ec. apply WidthFacts.Sprintf_2d_twoWide.
      specialize (Hcount eq_refl (p - s + 1) ltac:(lia)). lia.
    - apply WidthFacts.Sprintf_2d_twoWide. lia. }
  apply Forall_forall. intros line Hline.
  apply list_elem_of_fmap in Hline as (row & -> & Hrow).
  unfold monthGrid in Hrow. apply list_elem_of_fmap in Hrow as (r & -> & _).
  unfold weekRowOf, rangeZ. cbn [seq map].
  rewrite WidthFacts.visibleWidth_rowString; [reflexivity|].
  repeat constructor; apply Hcell.
Qed.

Lemma rows_twenty_wide_witness :
  exists grid,
    generateCalendarGrid (time.Date 2024 2 14) false (time.Date 2024 1 1)
      {[ "2024-01-05" := 99 ]} (color.New [color.FgWhite])
      (color.New [color.FgHiGreen; color.Bold]) true = Some grid /\
    Forall (fun line => color.visibleWidth line = 20%nat) grid.
Proof.
  apply (rows_twenty_wide (time.Date 2024 2 14) false (time.Date 2024 1 1)
           {[ "2024-01-05" := 99 ]} true).
  intros _ d Hd. change (time.daysIn _ _) with 31 in Hd.
  assert (Hall : forallb (fun d => countOn {[ "2024-01-05" := 99 ]}
                                     (time.Date 2024 1 1) d <? 100)
                   (rangeZ 1 31) = true) by (vm_compute; reflexivity).
  apply Z.ltb_lt. apply (forallb_rangeZ _ _ _ Hall). lia.
Defined.

(** The length of February follows the leap years: 29 days in 2024 and in
    2000, 28 days in 2023 and in 1900; the grid of February 2024 shows
    29 days. *)
Theorem february_follows_leap_years :
  (forall month, time.Month month = 2 ->
     daysInMonthOf month = if time.isLeap (time.Year month) then 29 else 28) /\
  (forall y, time.isLeap y = true <->
             y mod 4 = 0 /\ (y mod 100 <> 0 \/ y mod 400 = 0)) /\
  daysInMonthOf (time.Date 2024 2 1) = 29 /\
  daysInMonthOf (time.Date 2023 2 1) = 28 /\
  daysInMonthOf (time.Date 2000 2 1) = 29 /\
  daysInMonthOf (time.Date 1900 2 1) = 28.
Proof.
  split.
  { intros month Hm. rewrite daysInMonthOf_daysIn, Hm. unfold time.daysIn.
    by destruct (time.isLeap (time.Year month)). }
  split; [apply TimeFacts.isLeap_spec|].
  repeat split; vm_compute; reflexivity.
Qed.

(** An index that spans 2024-01-20 to 2024-03-03 gives the months
    January, February and March 2024, in that order. *)
Theorem scenario_three_months :
  selectMonths (map_to_list scenarioC).*1 None
  = Some (Months [time.Date 2024 1 1; time.Date 2024 2 1; time.Date 2024 3 1]) /\
  selectMonths ["2024-01-20"; "2024-03-03"] None
  = Some (Months [time.Date 2024 1 1; time.Date 2024 2 1; time.Date 2024 3 1]).
Proof. split; vm_compute; reflexivity. Qed.

(** A post file with fewer than two delimiter lines ["---"] (an empty
    file, a file without front matter, a front matter that is never
    closed) is rejected with "front matter not properly closed", whatever
    the YAML parser would answer; the walk then prints a warning for it
    and leaves the index as it is. *)
Theorem parsePostFile_unclosed (unmarshal : string -> result PostFrontMatter)
    (lines : list string) :
  (delimiters lines < 2)%nat ->
  parsePostFile unmarshal (Ok lines) = Err "front matter not properly closed" /\
  forall (path filterText : string) (postCounts : gmap string Z) (out : list string),
    walkPosts [WalkFile path "index.md" (parsePostFile unmarshal (Ok lines))]
      filterText postCounts out
    = (postCounts,
       out ++ ["Warning: Could not parse post file " +:+ path
               +:+ ": front matter not properly closed"],
       None).
Proof.
  intros H. rewrite parsePostFile_few_delimiters by done. split; [done|].
  intros path filterText postCounts out. reflexivity.
Qed.

Lemma parsePostFile_unclosed_witness :
  parsePostFile (fun _ => Err "not read") (Ok ["---"; "title: x"])
  = Err "front matter not properly closed".
Proof.
  refine (proj1 (parsePostFile_unclosed (fun _ => Err "not read") ["---"; "title: x"] _)).
  vm_compute. lia.
Defined.

(** In a post file the front matter is what lies between the first two
    delimiter lines, joined by newlines and handed to the YAML parser,
    whose error is passed on.  The body is every later line that is not
    itself a delimiter line, joined by newlines; the lines before the
    first delimiter are dropped.  Every file with two delimiter lines or
    more is of that form. *)
Theorem parsePostFile_split (unmarshal : string -> result PostFrontMatter)
    (pre fm rest : list string) :
  "---" ∉ pre -> "---" ∉ fm ->
  parsePostFile unmarshal (Ok (pre ++ "---" :: fm ++ "---" :: rest))
  = match unmarshal (strings.Join fm newline) with
    | Err err => Err err
    | Ok frontMatter =>
        Ok (frontMatter,
            strings.Join (filter (fun line => line <> "---") rest) newline)
    end /\
  (forall lines : list string,
     (2 <= delimiters lines)%nat ->
     exists pre' fm' rest',
       lines = pre' ++ "---" :: fm' ++ "---" :: rest' /\
       ("---" ∉ pre') /\ ("---" ∉ fm')).
Proof.
  intros Hpre Hfm. split; [|apply delimiters_split].
  unfold parsePostFile. cbv zeta.
  rewrite foldl_app, (scan_before (mkScanState [] [] false false) pre eq_refl eq_refl Hpre).
  cbn [foldl].
  change (scanLine (mkScanState [] [] false false) "---")
    with (mkScanState [] [] true false).
  rewrite foldl_app, scan_front by done. cbn [foldl app].
  change (scanLine (mkScanState fm [] true false) "---")
    with (mkScanState fm [] true true).
  rewrite scan_body. cbn [frontMatterEnded negb frontMatterLines bodyLines app].
  reflexivity.
Qed.

Lemma parsePostFile_split_witness :
  parsePostFile (fun yaml => Ok (mkPostFrontMatter yaml (time.Date 2024 1 5) false))
    (Ok ["junk"; "---"; "title: x"; "draft: false"; "---"; "body"; "---"; "more"])
  = Ok (mkPostFrontMatter ("title: x" +:+ newline +:+ "draft: false")
          (time.Date 2024 1 5) false,
        "body" +:+ newline +:+ "more").
Proof.
  refine (proj1 (parsePostFile_split
                   (fun yaml => Ok (mkPostFrontMatter yaml (time.Date 2024 1 5) false))
                   ["junk"] ["title: x"; "draft: false"] ["body"; "---"; "more"] _ _)).
  - intros H%list_elem_of_In. simpl in H. intuition discriminate.
  - intros H%list_elem_of_In. simpl in H. intuition discriminate.
Defined.

(** The earlier [parseFrontMatter], which stops reading at the second
    delimiter line, and the later [parsePostFile], which reads on for the
    body, return the same front matter or the same error for every file
    and every YAML parser. *)
Theorem parseFrontMatter_agrees (unmarshal : string -> result PostFrontMatter)
    (file : result (list string)) :
  v1.parseFrontMatter unmarshal file
  = match parsePostFile unmarshal file with
    | Ok (frontMatter, _) => Ok frontMatter
    | Err err => Err err
    end.
Proof.
  destruct file as [lines|err]; [|done].
  unfold v1.parseFrontMatter, parsePostFile. cbv zeta.
  destruct (scanFrontMatter_scan lines [] [] false) as [H2 H1].
  destruct (v1.scanFrontMatter lines [] false) as [fmLines ended].
  cbn [fst snd] in H1, H2. rewrite <- H2 in *.
  destruct ended; cbn [negb]; [|done].
  rewrite <- H1 by done. by destruct (unmarshal _).
Qed.

(** Options may stand before and after the project path, in any order:
    [parseArgs] returns the configuration with that path in which each
    option has been applied in turn, so of two filter texts or two months
    the last one wins, and a filter text may be any string, even one that
    looks like a flag.  The month is checked at the end: a value that is
    no ["2006-01"] date gives the error "invalid month format". *)
Theorem parseArgs_options (now : time.Time) (opts1 opts2 : list CliOption)
    (path : string) :
  path <> "" -> strings.HasPrefix path "-" = false ->
  forallb optionOk (opts1 ++ opts2) = true ->
  parseArgs now (optionsArgs opts1 ++ path :: optionsArgs opts2)
  = let config :=
      foldl applyOption (mkConfig path "" false None) (opts1 ++ opts2) in
    match Month config with
    | Some m =>
        match time.Parse_YM m with
        | None => Err ("invalid month format '" +:+ m +:+ "', expected YYYY-MM")
        | Some _ => Ok config
        end
    | None => Ok config
    end.
Proof.
  intros Hne Hdash Hok.
  assert (Hargs : optionsArgs opts1 ++ path :: optionsArgs opts2 <> [])
    by (by destruct (optionsArgs opts1)).
  rewrite parseArgs_validated by done.
  assert (Hpath : pathOk path = true).
  { unfold pathOk. rewrite Hdash. by apply String.eqb_neq in Hne as ->. }
  pose proof (parseArgs_loop_prefix now opts1 opts2 (Some path) [] Hok Hpath) as H.
  change (option_list (Some path)) with [path] in H.
  change (default "" (Some path)) with path in H. cbn [app] in H.
  rewrite app_nil_r in H. rewrite H.
  cbn [parseArgs_loop]. unfold validated. rewrite ProjectPath_applyOptions.
  cbn [ProjectPath]. by apply String.eqb_neq in Hne as ->.
Qed.

Lemma parseArgs_options_witness :
  parseArgs (time.Date 2024 2 14) ["-c"; "blog"; "-f"; "-c"; "--month"; "2024-02"]
  = Ok (mkConfig "blog" "-c" true (Some "2024-02")).
Proof.
  refine (parseArgs_options (time.Date 2024 2 14) [OptCounts false]
            [OptFilter false "-c"; OptMonth true "2024-02"] "blog" _ _ _).
  - discriminate.
  - reflexivity.
  - reflexivity.
Defined.

(** The errors of [parseArgs], after any options read so far: without a
    project path "missing project path", also when the word after [-m]
    was meant as the path, since it is read as the month; [-f] as the
    last argument "filter flag requires a value"; an argument that
    starts with a dash and is none of the six flags "unknown flag"; a
    second argument that is no option "unexpected argument". *)
Theorem parseArgs_errors (now : time.Time) (opts1 opts2 : list CliOption)
    (path : string) :
  path <> "" -> strings.HasPrefix path "-" = false ->
  forallb optionOk (opts1 ++ opts2) = true ->
  parseArgs now [] = Err "missing project path" /\
  parseArgs now (optionsArgs opts1) = Err "missing project path" /\
  (forall value,
     strings.HasPrefix value "-" = false ->
     parseArgs now (optionsArgs opts1 ++ ["-m"; value]) = Err "missing project path") /\
  (forall flag pre,
     flag = "-f" \/ flag = "--filter" ->
     pre = optionsArgs opts1 \/ pre = optionsArgs opts1 ++ path :: optionsArgs opts2 ->
     parseArgs now (pre ++ [flag]) = Err "filter flag requires a value") /\
  (forall arg pre rest,
     strings.HasPrefix arg "-" = true -> isFlag arg = false ->
     pre = optionsArgs opts1 \/ pre = optionsArgs opts1 ++ path :: optionsArgs opts2 ->
     parseArgs now (pre ++ arg :: rest) = Err ("unknown flag: " +:+ arg)) /\
  (forall path2 rest,
     strings.HasPrefix path2 "-" = false ->
     parseArgs now (optionsArgs opts1 ++ path :: optionsArgs opts2 ++ path2 :: rest)
     = Err ("unexpected argument: " +:+ path2)).
Proof.
  intros Hne Hdash Hok.
  assert (Hpath : pathOk path = true).
  { unfold pathOk. rewrite Hdash. by apply String.eqb_neq in Hne as ->. }
  pose proof Hok as Hok'. rewrite forallb_app in Hok'.
  apply andb_true_iff in Hok' as [Hok1 Hok2].
  assert (Hpre : forall pre rest,
    pre = optionsArgs opts1 \/ pre = optionsArgs opts1 ++ path :: optionsArgs opts2 ->
    exists config,
      parseArgs_loop now (pre ++ rest) (mkConfig "" "" false None)
      = parseArgs_loop now rest config).
  { intros pre rest [->| ->].
    - eexists. by apply parseArgs_loop_options.
    - eexists. rewrite <- app_assoc. cbn [app].
      apply (parseArgs_loop_prefix now opts1 opts2 (Some path) rest Hok Hpath). }
  assert (Hnil : forall (pre rest : list string) (x : string), pre ++ x :: rest <> [])
    by (intros pre rest x; by destruct pre).
  split; [reflexivity|]. split; [|split; [|split; [|split]]].
  - destruct (optionsArgs opts1) as [|a l] eqn:E; [reflexivity|].
    rewrite parseArgs_validated by done. rewrite <- E, <- (app_nil_r (optionsArgs opts1)).
    rewrite parseArgs_loop_options by done. cbn [parseArgs_loop]. unfold validated.
    by rewrite ProjectPath_applyOptions.
  - intros value Hv. rewrite parseArgs_validated by apply Hnil.
    rewrite parseArgs_loop_options by done. cbn [parseArgs_loop].
    change (("-m" =? "-f")%string || ("-m" =? "--filter")%string) with false.
    change (("-m" =? "-c")%string || ("-m" =? "--counts")%string) with false.
    change (("-m" =? "-m")%string || ("-m" =? "--month")%string) with true.
    cbv iota. rewrite Hv. cbn [negb]. unfold validated. cbn [ProjectPath].
    by rewrite ProjectPath_applyOptions.
  - intros flag pre Hflag Hp.
    rewrite parseArgs_validated by apply Hnil.
    destruct (Hpre pre [flag] Hp) as [config ->].
    by destruct Hflag as [->| ->].
  - intros arg pre rest Harg Hnf Hp.
    rewrite parseArgs_validated by apply Hnil.
    destruct (Hpre pre (arg :: rest) Hp) as [config ->].
    cbn [parseArgs_loop]. unfold isFlag in Hnf. apply bool_decide_eq_false in Hnf.
    rewrite !elem_of_cons in Hnf.
    destruct (String.eqb_spec arg "-f"); [tauto|].
    destruct (String.eqb_spec arg "--filter"); [tauto|].
    destruct (String.eqb_spec arg "-c"); [tauto|].
    destruct (String.eqb_spec arg "--counts"); [tauto|].
    destruct (String.eqb_spec arg "-m"); [tauto|].
    destruct (String.eqb_spec arg "--month"); [tauto|].
    cbn [orb]. by rewrite Harg.
  - intros path2 rest Hp2.
    rewrite parseArgs_validated by apply Hnil.
    pose proof (parseArgs_loop_prefix now opts1 opts2 (Some path) (path2 :: rest) Hok Hpath)
      as H.
    change (option_list (Some path)) with [path] in H.
    change (default "" (Some path)) with path in H. cbn [app] in H.
    rewrite H, parseArgs_loop_path, ProjectPath_applyOptions by done.
    cbn [ProjectPath]. by apply String.eqb_neq in Hne as ->.
Qed.

Lemma parseArgs_errors_witness :
  parseArgs (time.Date 2024 2 14) ["-c"; "-m"; "blog"] = Err "missing project path" /\
  parseArgs (time.Date 2024 2 14) ["-c"; "blog"; "-m"; "2024-02"; "-f"]
  = Err "filter flag requires a value" /\
  parseArgs (time.Date 2024 2 14) ["-c"; "-x"; "blog"] = Err "unknown flag: -x" /\
  parseArgs (time.Date 2024 2 14) ["-c"; "blog"; "-m"; "2024-02"; "other"]
  = Err "unexpected argument: other".
Proof.
  destruct (parseArgs_errors (time.Date 2024 2 14) [OptCounts false]
              [OptMonth false "2024-02"] "blog") as (_ & _ & H2 & H3 & H4 & H5).
  - discriminate.
  - reflexivity.
  - reflexivity.
  - split; [exact (H2 "blog" eq_refl)|].
    split; [exact (H3 "-f" _ (or_introl eq_refl) (or_intror eq_refl))|].
    split; [exact (H4 "-x" _ ["blog"] eq_refl eq_refl (or_introl eq_refl))|].
    exact (H5 "other" [] eq_refl).
Defined.

(** A configuration that [parseArgs] returns has a project path that is
    not empty, does not start with a dash and is one of the arguments;
    its filter text is empty or one of the arguments; counts are shown
    only when [-c] or [--counts] is among the arguments; and its month,
    if any, is one of the arguments or the current month, and parses:
    [renderCalendars] then renders exactly that month and never reports
    a month it cannot parse. *)
Theorem parseArgs_ok_config (now : time.Time) (args : list string) (config : Config) :
  parseArgs now args = Ok config ->
  ProjectPath config <> "" /\ ProjectPath config ∈ args /\
  strings.HasPrefix (ProjectPath config) "-" = false /\
  (FilterText config = "" \/ FilterText config ∈ args) /\
  (ShowCounts config = true -> "-c" ∈ args \/ "--counts" ∈ args) /\
  (forall value,
     Month config = Some value ->
     (value ∈ args \/ value = time.Format_YM now) /\
     exists target,
       time.Parse_YM value = Some target /\
       forall keys, selectMonths keys (Some value) = Some (Months [target])).
Proof.
  intros Hok. unfold parseArgs in Hok.
  destruct (len args =? 0); [discriminate|].
  destruct (parseArgs_loop now args (mkConfig "" "" false None)) as [c|e] eqn:El;
    [|discriminate].
  destruct (String.eqb_spec (ProjectPath c) "") as [|Hne]; [discriminate|].
  assert (Hc : c = config /\
               forall value, Month c = Some value -> is_Some (time.Parse_YM value)).
  { destruct (Month c) as [m|] eqn:Em.
    - destruct (time.Parse_YM m) eqn:Ep; [|discriminate]. injection Hok as <-.
      split; [done|]. intros value [= <-]. by rewrite Ep.
    - injection Hok as <-. split; [done|]. intros value [=]. }
  destruct Hc as [<- Hmonth]. clear Hok.
  destruct (parseArgs_loop_ok now (length args) args _ c (Nat.le_refl _) El)
    as (HP & HM & HF & HS). cbn [ProjectPath Month FilterText ShowCounts] in *.
  split; [done|].
  destruct HP as [HP|(_ & Hin & Hd)]; [congruence|].
  split; [done|]. split; [done|]. split; [by destruct HF as [->|]; auto|].
  split.
  { intros Hs. destruct HS as [HS|[_ HS]]; [congruence|done]. }
  intros value Hv. split.
  { destruct HM as [HM|(m & Hm & Hin')]; [congruence|]. congruence. }
  destruct (Hmonth value Hv) as [target Ht]. exists target. split; [done|].
  intros keys. destruct (selectMonths_explicit keys value target Ht) as [-> Heq].
  by rewrite Heq.
Qed.

Lemma parseArgs_ok_config_witness :
  exists target,
    time.Parse_YM "2024-02" = Some target /\
    forall keys, selectMonths keys (Some "2024-02") = Some (Months [target]).
Proof.
  destruct (parseArgs_ok_config (time.Date 2024 2 14) ["blog"; "-m"; "2024-02"]
              (mkConfig "blog" "" false (Some "2024-02")) eq_refl)
    as (_ & _ & _ & _ & _ & H).
  exact (proj2 (H "2024-02" eq_refl)).
Defined.

(** After a walk without a walk error (and of fewer than 2^63 files) the
    index holds for a day the number of files called [index.md] whose
    front matter was read, that are no drafts, whose body does not
    contain the filter text and whose date falls on that day, at
    whatever time of day; a day without such a file has no entry.  A
    filter text never adds to that number.  The cell of the day shows
    it: bright green when there is such a post and the day is not today,
    and in count mode the number itself. *)
Theorem index_counts_posts (filterText : string) (entries : list WalkEntry)
    (y m d : Z) :
  forallb isWalkFile entries = true ->
  len entries < 2 ^ 63 ->
  1 <= m <= 12 -> 1 <= d <= time.daysIn m y ->
  (parsePostsAndCount entries filterText).1.1 !! time.Format_YMD (time.Date y m d)
  = (if postsOn filterText entries y m d =? 0 then None
     else Some (postsOn filterText entries y m d)) /\
  postsOn filterText entries y m d <= postsOn "" entries y m d /\
  (forall now month white brightGreen showCounts,
     time.Year month = y -> time.Month month = m ->
     dayCellOf now month (parsePostsAndCount entries filterText).1.1 white brightGreen
       showCounts d
     = DayCell d
         (if sameCivilDate now y m d then todayColor
          else if 0 <? postsOn filterText entries y m d then brightGreen else white)
         (if showCounts
          then if 0 <? postsOn filterText entries y m d
               then fmt.Sprintf_2d (postsOn filterText entries y m d) else " 0"
          else fmt.Sprintf_2d d)).
Proof.
  intros Hwalk Hlen Hm Hd.
  assert (Hposts : postsOn filterText entries y m d
                   = Z.of_nat (length (List.filter (fun entry =>
                       bool_decide (eligibleKey filterText entry
                       = Some (time.Format_YMD (time.Date y m d)))) entries))).
  { unfold postsOn. f_equal. f_equal. apply List.filter_ext. intros entry.
    apply (eligibleKey_countedOn _ _ _ _ _ Hm Hd). }
  assert (Hlookup :
    (parsePostsAndCount entries filterText).1.1 !! time.Format_YMD (time.Date y m d)
    = (if postsOn filterText entries y m d =? 0 then None
       else Some (postsOn filterText entries y m d))).
  { unfold parsePostsAndCount.
    rewrite (proj1 (walkPosts_foldl entries filterText ∅ [] Hwalk)).
    rewrite (foldl_countStep_lookup filterText _ entries ∅ 0); [|lia|done|].
    - cbv zeta. rewrite Z.add_0_l, <- Hposts. reflexivity.
    - pose proof (length_List_filter_le (fun entry => bool_decide
                    (eligibleKey filterText entry
                     = Some (time.Format_YMD (time.Date y m d)))) entries).
      unfold len in Hlen. lia. }
  split; [exact Hlookup|]. split.
  { unfold postsOn. apply inj_le. clear. induction entries as [|e entries IH]; [done|].
    cbn [List.filter].
    destruct (countedOn filterText y m d e) eqn:E.
    - rewrite (countedOn_no_filter _ _ _ _ _ E). cbn [length]. lia.
    - destruct (countedOn "" y m d e); cbn [length]; lia. }
  intros now month white brightGreen showCounts Hy Hmo. subst y m.
  rewrite dayCellOf_spec by done. unfold countOn. rewrite Hlookup.
  destruct (Z.eqb_spec (postsOn filterText entries (time.Year month) (time.Month month) d) 0)
    as [->|Hne]; reflexivity.
Qed.

Lemma index_counts_posts_witness :
  (parsePostsAndCount
     [WalkFile "a/index.md" "index.md"
        (Ok (mkPostFrontMatter "a" (time.mkTime 738889 3600) false, "public"));
      WalkFile "b/index.md" "index.md"
        (Ok (mkPostFrontMatter "b" (time.Date 2024 1 5) false, "a secret"));
      WalkFile "c/index.md" "index.md"
        (Ok (mkPostFrontMatter "c" (time.Date 2024 1 5) true, "draft"));
      WalkFile "d/notes.md" "notes.md"
        (Ok (mkPostFrontMatter "d" (time.Date 2024 1 5) false, "notes"))]
     "secret").1.1 !! "2024-01-05"
  = Some 1.
Proof.
  refine (proj1 (index_counts_posts "secret" _ 2024 1 5 _ _ _ _)).
  - reflexivity.
  - reflexivity.
  - lia.
  - change (time.daysIn 1 2024) with 31. lia.
Defined.

(** For a walk without a walk error the warnings printed are those of
    the files called [index.md] that could not be read, in the order of
    the walk, and no error is returned.  An error of the walk itself
    ends the walk: the index and the warnings are those of the files
    before it, the files after it are not read, and the error is
    returned. *)
Theorem walk_warnings_and_errors (filterText : string) :
  (forall entries,
     forallb isWalkFile entries = true ->
     (parsePostsAndCount entries filterText).1.2 = omap warningOf entries /\
     (parsePostsAndCount entries filterText).2 = None) /\
  (forall before after err,
     forallb isWalkFile before = true ->
     parsePostsAndCount (before ++ WalkErr err :: after) filterText
     = ((parsePostsAndCount before filterText).1.1,
        omap warningOf before, Some err)).
Proof.
  split.
  - intros entries Hw. unfold parsePostsAndCount. split.
    + by rewrite walkPosts_warnings.
    + by apply walkPosts_foldl.
  - intros l1 l2 err Hw. unfold parsePostsAndCount.
    rewrite walkPosts_app by done. cbn [walkPosts].
    rewrite walkPosts_warnings by done. reflexivity.
Qed.

(** [main] ends for every command line and every project: the loops
    over the months, the display rows and the weeks all come to an end.
    The exit code is 1 exactly when the arguments are rejected, the
    posts directory is missing or the walk fails, and 0 otherwise; a
    post file that cannot be read only gives a warning.  Once the walk
    has run, its warnings are the first lines printed. *)
Theorem main_returns (w : World) :
  exists o : Outcome,
    main w = Some o /\
    (exitCode o = 0 \/ exitCode o = 1) /\
    (exitCode o = 1 <->
       match parseArgs (Now w) (Args w) with
       | Err _ => True
       | Ok config =>
           PostsMissing w (JoinPosts w (ProjectPath config)) = true \/
           is_Some (parsePostsAndCount (Walk w (JoinPosts w (ProjectPath config)))
                      (FilterText config)).2
       end) /\
    (forall config,
       parseArgs (Now w) (Args w) = Ok config ->
       PostsMissing w (JoinPosts w (ProjectPath config)) = false ->
       exists rest,
         stdout o
         = (parsePostsAndCount (Walk w (JoinPosts w (ProjectPath config)))
              (FilterText config)).1.2 ++ rest).
Proof.
  unfold main. destruct (parseArgs (Now w) (Args w)) as [config|err].
  2:{ eexists. split; [reflexivity|]. cbn [exitCode]. split; [by right|]. done. }
  destruct (PostsMissing w (JoinPosts w (ProjectPath config))) eqn:Em.
  { eexists. split; [reflexivity|]. cbn [exitCode]. split; [by right|].
    split; [split; [by left|done]|]. intros c [= <-]. by rewrite Em. }
  assert (Hrest : forall (o : Outcome) (warnings : list string),
            (exists rest, stdout o = warnings ++ rest) ->
            forall c, Ok config = Ok c ->
              PostsMissing w (JoinPosts w (ProjectPath c)) = false ->
              forall pc err,
                parsePostsAndCount (Walk w (JoinPosts w (ProjectPath config)))
                  (FilterText config) = (pc, warnings, err) ->
                exists rest,
                  stdout o
                  = (parsePostsAndCount (Walk w (JoinPosts w (ProjectPath c)))
                       (FilterText c)).1.2 ++ rest).
  { intros o warnings Ho c [= <-] _ pc err ->. exact Ho. }
  destruct (parsePostsAndCount _ _) as [[postCounts warnings] [err|]] eqn:Ep.
  { eexists. split; [reflexivity|]. cbn [exitCode snd]. split; [by right|].
    split; [split; [by right|done]|].
    intros c Hc Hm. eapply Hrest; [|done|done|reflexivity]. by eexists. }
  cbn [snd].
  assert (Hno : ~ (false = true \/ is_Some (@None string))).
  { intros [?|[? ?]]; done. }
  destruct (Z.of_nat (size postCounts) =? 0).
  { eexists. split; [reflexivity|]. cbn [exitCode]. split; [by left|].
    split; [split; [done|]; intros H; by destruct Hno|].
    intros c Hc Hm. eapply Hrest; [|done|done|reflexivity]. by eexists. }
  destruct (renderCalendars_is_Some (Now w) (NoColor w) (Winsize w) (ParseErrText w)
              (RangeOrder w (map fst (map_to_list postCounts))) postCounts
              (ShowCounts config) (Month config)) as [lines ->].
  cbn [mbind option_bind]. eexists. split; [reflexivity|]. cbn [exitCode].
  split; [by left|]. split; [split; [done|]; intros H; by destruct Hno|].
  intros c Hc Hm. eapply Hrest; [|done|done|reflexivity]. by eexists.
Qed.

(** When the months have years of four digits and, in count mode, no day
    has a hundred posts or more, [renderCalendarGrid] prints one block
    per display row, [ceil (len months / calendarsPerRow)] blocks in
    all.  A block of [k] months is the month header line, the weekday
    line and four to six week lines, each showing [22 * k - 2]
    characters, and an empty line.  So no line is wider than the
    terminal, when that has 22 columns at least; on a narrower one the
    lines show 20 characters. *)
Theorem calendars_fit_terminal (now : time.Time) (noColor : bool) (ws : Ioctl)
    (months : list time.Time) (postCounts : gmap string Z) (showCounts : bool) :
  Forall (fun month => 0 <= time.Year month <= 9999) months ->
  (showCounts = true ->
   forall month d,
     month ∈ months ->
     1 <= d <= time.daysIn (time.Month month) (time.Year month) ->
     countOn postCounts month d < 100) ->
  let K := calendarsPerRowOf (getTerminalWidth ws) in
  exists blocks : list (list string),
    renderCalendarGrid now noColor ws months postCounts showCounts
    = Some (concat blocks) /\
    len blocks = (len months + K - 1) / K /\
    Forall (fun block =>
              exists (lines : list string) (k : Z),
                block = lines ++ [""] /\ (6 <= length lines <= 8)%nat /\
                1 <= k <= K /\
                Forall (fun line => Z.of_nat (color.visibleWidth line) = 22 * k - 2)
                  lines) blocks /\
    Forall (fun line =>
              Z.of_nat (color.visibleWidth line) <= Z.max 20 (getTerminalWidth ws - 2))
      (concat blocks).
Proof.
  intros Hyears Hcount K.
  assert (HK : K = Z.max 1 (getTerminalWidth ws / 22)) by apply calendarsPerRowOf_max.
  destruct (renderCalendarGrid_blocks now noColor ws months postCounts showCounts)
    as (blocks & Hmap & Hren).
  fold K in Hmap. exists blocks. split; [exact Hren|].
  apply mapM_Some in Hmap.
  assert (HK1 : (1 <= Z.to_nat K)%nat) by lia.
  assert (Hconcat : concat (chunks (Z.to_nat K) months) = months).
  { apply chunksFuel_concat; lia. }
  pose proof (chunksFuel_sizes (length months) (Z.to_nat K) months HK1) as Hsizes.
  fold (chunks (Z.to_nat K) months) in Hsizes.
  assert (Hblocks : Forall (fun block =>
              exists (lines : list string) (k : Z),
                block = lines ++ [""] /\ (6 <= length lines <= 8)%nat /\
                1 <= k <= K /\
                Forall (fun line => Z.of_nat (color.visibleWidth line) = 22 * k - 2)
                  lines) blocks).
  { assert (Hsub : forall c, c ∈ chunks (Z.to_nat K) months -> forall month, month ∈ c ->
                     month ∈ months).
    { intros c Hc month Hm. rewrite <- Hconcat. apply elem_of_concat. eauto. }
    clear Hconcat Hren. revert Hmap Hsub Hsizes. generalize (chunks (Z.to_nat K) months).
    intros cs0 Hmap. induction Hmap as [|c block cs blocks Hc _ IH]; intros Hsub Hsizes;
      [constructor|].
    inversion Hsizes as [|? ? Hlen Hrest]; subst.
    constructor.
    - destruct (displayRow_shape now noColor c postCounts showCounts)
        as (lines & Hd & Hl & Hw).
      + destruct c; [simpl in Hlen; lia|done].
      + apply Forall_forall. intros month Hm.
        apply (proj1 (Forall_forall _ _) Hyears). eapply Hsub; [constructor|done].
      + intros Hs month d Hm. apply Hcount; [done|]. eapply Hsub; [constructor|done].
      + exists lines, (Z.of_nat (length c)). rewrite Hd in Hc. injection Hc as <-.
        split; [done|]. split; [done|]. split; [lia|].
        eapply Forall_impl; [exact Hw|]. intros line ->. lia.
    - apply IH; [|done]. intros c' Hc'. apply Hsub. by constructor. }
  split.
  { unfold len at 1. rewrite <- (Forall2_length _ _ _ Hmap). unfold chunks.
    fold (len (chunksFuel (length months) (Z.to_nat K) months)).
    rewrite length_chunksFuel by lia. rewrite Z2Nat.id by lia. done. }
  split; [exact Hblocks|].
  apply Forall_forall. intros line (block & Hb & Hline)%elem_of_concat.
  destruct (proj1 (Forall_forall _ _) Hblocks block Hb) as (lines & k & -> & _ & Hk & Hw).
  apply elem_of_app in Hline as [Hline|Hline].
  - rewrite (proj1 (Forall_forall _ _) Hw line Hline). rewrite HK in Hk. dlia.
  - apply list_elem_of_singleton in Hline as ->. cbn. lia.
Qed.

Lemma calendars_fit_terminal_witness :
  exists blocks : list (list string),
    renderCalendarGrid (time.Date 2024 2 14) false (mkIoctl 0 0 50)
      [time.Date 2024 1 1; time.Date 2024 2 1; time.Date 2024 3 1] scenarioC false
    = Some (concat blocks) /\
    len blocks = 2.
Proof.
  destruct (calendars_fit_terminal (time.Date 2024 2 14) false (mkIoctl 0 0 50)
              [time.Date 2024 1 1; time.Date 2024 2 1; time.Date 2024 3 1]
              scenarioC false) as (blocks & Hr & Hl & _).
  - repeat constructor; vm_compute; discriminate.
  - discriminate.
  - exists blocks. split; [exact Hr|exact Hl].
Defined.

(** In day-number mode the later version draws every day that is not
    today as the earlier version does.  So the grid of a month in which
    today does not fall is the grid of the earlier version, and on a
    terminal of 110 to 131 columns, where five calendars fit in a row as
    the earlier version assumes, the whole output for such months is
    the same. *)
Theorem day_numbers_as_before (now : time.Time) (noColor : bool)
    (postCounts : gmap string Z) :
  (forall month white brightGreen d,
     1 <= d <= time.daysIn (time.Month month) (time.Year month) ->
     dayCellOf now month postCounts white brightGreen false d
     = if sameCivilDate now (time.Year month) (time.Month month) d
       then DayCell d todayColor (fmt.Sprintf_2d d)
       else v1.dayCellOf month postCounts white brightGreen d) /\
  (forall month white brightGreen,
     inMonth now month = false ->
     generateCalendarGrid now noColor month postCounts white brightGreen false
     = v1.generateCalendarGrid noColor month postCounts white brightGreen) /\
  (forall ws months,
     109 < getTerminalWidth ws < 132 ->
     (forall month, month ∈ months -> inMonth now month = false) ->
     renderCalendarGrid now noColor ws months postCounts false
     = v1.renderCalendarGrid noColor months postCounts).
Proof.
  split; [intros; by apply dayCellOf_v1|].
  split; [intros; by apply generateCalendarGrid_v1|].
  intros ws months Hw Hin. by apply renderCalendarGrid_v1.
Qed.

(** Without a filter text the later walk builds the index the earlier
    walk builds from the same files, returns the same error, and prints
    as many warnings. *)
Theorem index_as_before (entries : list WalkEntry) :
  (v1.parsePostsAndCount (map forgetBody entries)).1.1
  = (parsePostsAndCount entries "").1.1 /\
  (v1.parsePostsAndCount (map forgetBody entries)).2
  = (parsePostsAndCount entries "").2 /\
  length (v1.parsePostsAndCount (map forgetBody entries)).1.2
  = length (parsePostsAndCount entries "").1.2 /\
  (forall unmarshal path name file,
     forgetBody (WalkFile path name (parsePostFile unmarshal file))
     = v1.WalkFile path name (v1.parseFrontMatter unmarshal file)).
Proof.
  destruct (walkPosts_v1 entries ∅ [] [] eq_refl) as (H1 & H2 & H3).
  split; [exact H1|]. split; [exact H2|]. split; [exact H3|].
  intros unmarshal path name file. cbn [forgetBody].
  rewrite parseFrontMatter_parsePostFile.
  by destruct (parsePostFile unmarshal file) as [[frontMatter postBody]|err].
Qed.

(** The earlier version sorts the dates and takes the first and the last
    one; the later version scans them for the earliest and the latest.
    Whenever [sort.Slice] leaves the same dates in an order in which
    none is before an earlier one, both select the same months; and when
    today falls in none of them, on a terminal of 110 to 131 columns the
    later [renderCalendars] without options prints what the earlier one
    printed. *)
Theorem months_as_before
    (sortSlice : (time.Time -> time.Time -> bool) -> list time.Time -> list time.Time)
    (keys : list string) :
  (forall dates, sortSlice time.Before dates ≡ₚ dates) ->
  (forall dates,
     StronglySorted (fun a b => time.Before b a = false) (sortSlice time.Before dates)) ->
  v1.selectMonths sortSlice keys = selectMonths keys None /\
  (forall now noColor ws parseErrText postCounts,
     109 < getTerminalWidth ws < 132 ->
     (forall months month,
        selectMonths keys None = Some (Months months) -> month ∈ months ->
        inMonth now month = false) ->
     v1.renderCalendars sortSlice noColor keys postCounts
     = renderCalendars now noColor ws parseErrText keys postCounts false None).
Proof.
  intros Hperm Hsorted. split; [by apply selectMonths_v1|].
  intros now noColor ws parseErrText postCounts Hw Hin.
  by apply renderCalendars_v1.
Qed.

Lemma months_as_before_witness :
  v1.selectMonths mergeSort ["2024-03-03"; "2024-01-20"; "2024-02-11"]
  = selectMonths ["2024-03-03"; "2024-01-20"; "2024-02-11"] None.
Proof.
  refine (proj1 (months_as_before mergeSort
                   ["2024-03-03"; "2024-01-20"; "2024-02-11"] _ _)).
  - intros dates. apply mergeSort_sorts.
  - intros dates. apply mergeSort_sorts.
Defined.

(** In count mode every line of a month grid shows twenty characters or
    more, and all lines show exactly twenty if and only if no day of the
    month has a hundred posts or more: a count of three digits widens
    the line of its week, whichever day it is. *)
Theorem count_rows_width (now : time.Time) (noColor : bool) (month : time.Time)
    (postCounts : gmap string Z) :
  exists grid,
    generateCalendarGrid now noColor month postCounts (color.New [color.FgWhite])
      (color.New [color.FgHiGreen; color.Bold]) true = Some grid /\
    Forall (fun line => (20 <= color.visibleWidth line)%nat) grid /\
    (Forall (fun line => color.visibleWidth line = 20%nat) grid <->
     forall d, 1 <= d <= time.daysIn (time.Month month) (time.Year month) ->
               countOn postCounts month d < 100).
Proof.
  unfold generateCalendarGrid.
  rewrite (generateCalendarCells_monthGrid _ now month postCounts _ _ true
             (Nat.le_refl _)).
  eexists. split; [reflexivity|].
  pose proof (daysInMonthOf_range month) as HD.
  pose proof (startWeekdayOf_range month) as Hs.
  pose proof (dayCellOf_spec now month postCounts (color.New [color.FgWhite])
                (color.New [color.FgHiGreen; color.Bold]) true) as Hdc.
  revert Hdc. generalize (dayCellOf now month postCounts (color.New [color.FgWhite])
                            (color.New [color.FgHiGreen; color.Bold]) true).
  rewrite <- daysInMonthOf_daysIn. revert HD Hs.
  generalize (startWeekdayOf month) (daysInMonthOf month).
  intros s D HD Hs dc Hdc.
  assert (Hcell : forall p,
            plainCell (cellAt s D dc p) /\
            (2 <= String.length (cellText (cellAt s D dc p)))%nat).
  { intros p. unfold cellAt. cbv zeta.
    destruct ((1 <=? p - s + 1) && (p - s + 1 <=? D)) eqn:E; [|split; [exact I|done]].
    apply andb_true_iff in E as [E1%Z.leb_le E2%Z.leb_le].
    rewrite Hdc by lia. cbn [plainCell cellText].
    destruct (Z.ltb_spec 0 (countOn postCounts month (p - s + 1))) as [Hc|Hc].
    - split; [|apply Sprintf_2d_length]. split; [|apply Sprintf_2d_plain; lia].
      unfold todayColor. by destruct (sameCivilDate _ _ _ _).
    - split; [|done]. split; [|done].
      unfold todayColor. by destruct (sameCivilDate _ _ _ _). }
  assert (Hrow : forall r,
            Forall plainCell (weekRowOf s D dc r) /\
            Forall (fun cell => (2 <= String.length (cellText cell))%nat)
              (weekRowOf s D dc r)).
  { intros r. unfold weekRowOf.
    split; apply Forall_fmap, Forall_forall; intros p _; apply Hcell. }
  split.
  { apply Forall_forall. intros line Hline.
    apply list_elem_of_fmap in Hline as (row & -> & Hrow').
    unfold monthGrid in Hrow'. apply list_elem_of_fmap in Hrow' as (r & -> & _).
    destruct (Hrow r) as [H1 H2].
    apply (visibleWidth_row_ge noColor _ H1 (length_weekRowOf s D dc r) H2). }
  split.
  - intros Hall d Hd.
    destruct (Z.lt_ge_cases (countOn postCounts month d) 100) as [|Hge]; [done|].
    exfalso.
    set (r := (s + d - 1) / 7).
    assert (Hr : 0 <= r < weekRows s D) by (unfold r, weekRows; dlia).
    assert (Hline : rowString noColor (weekRowOf s D dc r)
                    ∈ map (rowString noColor) (monthGrid s D dc)).
    { apply list_elem_of_fmap. eexists. split; [reflexivity|].
      unfold monthGrid. apply list_elem_of_fmap. exists r. split; [done|].
      apply elem_of_rangeZ. lia. }
    pose proof (proj1 (Forall_forall _ _) Hall _ Hline) as Hw. cbv beta in Hw.
    destruct (Hrow r) as [H1 H2].
    destruct (visibleWidth_row_ge noColor _ H1 (length_weekRowOf s D dc r) H2)
      as [_ Hwide].
    assert (21 <= color.visibleWidth (rowString noColor (weekRowOf s D dc r)))%nat;
      [|lia].
    apply Hwide. exists (dc d). split.
    + unfold weekRowOf. apply list_elem_of_fmap. exists (s + d - 1). split.
      * unfold cellAt. cbv zeta. replace (s + d - 1 - s + 1) with d by lia.
        destruct (Z.leb_spec 1 d); [|lia]. destruct (Z.leb_spec d D); [|lia]. done.
      * apply elem_of_rangeZ. unfold r. dlia.
    + rewrite Hdc by lia. cbn [cellText].
      destruct (Z.ltb_spec 0 (countOn postCounts month d)); [|lia].
      by apply Sprintf_2d_wide.
  - intros Hcount. apply Forall_forall. intros line Hline.
    apply list_elem_of_fmap in Hline as (row & -> & Hrow').
    unfold monthGrid in Hrow'. apply list_elem_of_fmap in Hrow' as (r & -> & _).
    assert (Htw : twentyWide (rowString noColor (weekRowOf s D dc r))).
    { apply ShowFacts.twentyWide_row; [|by apply length_weekRowOf].
      unfold weekRowOf. apply Forall_fmap, Forall_forall. intros p _.
      unfold cellAt. cbv zeta. cbv [compose].
      destruct ((1 <=? p - s + 1) && (p - s + 1 <=? D)) eqn:E; [|exact I].
      apply andb_true_iff in E as [E1%Z.leb_le E2%Z.leb_le].
      rewrite Hdc by lia. cbn [twoWide]. split.
      { unfold todayColor. destruct (sameCivilDate _ _ _ _); [reflexivity|].
        destruct (0 <? countOn postCounts month (p - s + 1)); reflexivity. }
      destruct (0 <? countOn postCounts month (p - s + 1)) eqn:Ec; [|done].
      apply Z.ltb_lt in Ec. apply WidthFacts.Sprintf_2d_twoWide.
      assert (Hp : 1 <= p - s + 1 <= D) by lia.
      specialize (Hcount (p - s + 1) Hp). lia. }
    destruct Htw as (v & Hv & Hl). by rewrite (ShowFacts.shows_width _ _ Hv).
Qed.

(** Go iterates over the keys of a map in an order that changes from run
    to run.  The months [renderCalendars] selects, the lines it prints
    and the outcome of [main] do not depend on that order. *)
Theorem output_independent_of_map_order (w : World)
    (order1 order2 : list string -> list string) :
  (forall keys, order1 keys ≡ₚ keys) ->
  (forall keys, order2 keys ≡ₚ keys) ->
  main (withRangeOrder w order1) = main (withRangeOrder w order2) /\
  (forall keys monthFilter,
     selectMonths (order1 keys) monthFilter = selectMonths (order2 keys) monthFilter) /\
  (forall now noColor ws parseErrText keys postCounts showCounts monthFilter,
     renderCalendars now noColor ws parseErrText (order1 keys) postCounts showCounts
       monthFilter
     = renderCalendars now noColor ws parseErrText (order2 keys) postCounts showCounts
         monthFilter).
Proof.
  intros H1 H2.
  assert (Hsel : forall keys monthFilter,
     selectMonths (order1 keys) monthFilter = selectMonths (order2 keys) monthFilter).
  { intros. apply selectMonths_perm. by rewrite H1, H2. }
  assert (Hren : forall now noColor ws parseErrText keys postCounts showCounts
                   monthFilter,
     renderCalendars now noColor ws parseErrText (order1 keys) postCounts showCounts
       monthFilter
     = renderCalendars now noColor ws parseErrText (order2 keys) postCounts showCounts
         monthFilter).
  { intros. unfold renderCalendars. by rewrite Hsel. }
  split; [|split; [exact Hsel|exact Hren]].
  unfold main, withRangeOrder. cbn [Args Now NoColor Winsize JoinPosts PostsMissing Walk
                                     RangeOrder ParseErrText].
  destruct (parseArgs (Now w) (Args w)) as [config|err]; [|done].
  destruct (PostsMissing w _); [done|].
  destruct (parsePostsAndCount _ _) as [[postCounts warnings] [err|]]; [done|].
  destruct (Z.of_nat (size postCounts) =? 0); [done|].
  by rewrite Hren.
Qed.

Lemma output_independent_of_map_order_witness :
  main (withRangeOrder worldPosts (fun keys => keys))
  = main (withRangeOrder worldPosts reverse).
Proof.
  refine (proj1 (output_independent_of_map_order worldPosts (fun keys => keys) reverse
                   _ _)).
  - reflexivity.
  - apply reverse_Permutation.
Defined.

(** A run of the later version with the project path as its only
    argument prints what the earlier version prints for the same
    project, and ends with the same exit code, when every post file can
    be read, the terminal has 110 to 131 columns, today falls in none of
    the months shown, and [sort.Slice] sorts. *)
Theorem default_run_as_before (w : World) (path : string)
    (sortSlice : (time.Time -> time.Time -> bool) -> list time.Time -> list time.Time) :
  (forall dates, sortSlice time.Before dates ≡ₚ dates) ->
  (forall dates,
     StronglySorted (fun a b => time.Before b a = false) (sortSlice time.Before dates)) ->
  Args w = [path] -> path <> "" -> strings.HasPrefix path "-" = false ->
  109 < getTerminalWidth (Winsize w) < 132 ->
  omap warningOf (Walk w (JoinPosts w path)) = [] ->
  (forall months month,
     selectMonths
       (RangeOrder w
          (map fst
             (map_to_list (parsePostsAndCount (Walk w (JoinPosts w path)) "").1.1)))
       None = Some (Months months) ->
     month ∈ months -> inMonth (Now w) month = false) ->
  v1.main (earlierWorld w sortSlice) = main w.
Proof.
  intros Hperm Hsorted Hargs Hne Hdash Hwidth Hwarn Htoday.
  unfold v1.main, main, earlierWorld.
  cbn [v1.Args v1.NoColor v1.JoinPosts v1.PostsMissing v1.Walk v1.RangeOrder
         v1.SortSlice].
  rewrite Hargs.
  assert (Hparse : parseArgs (Now w) [path] = Ok (mkConfig path "" false None)).
  { unfold parseArgs. change (len [path] =? 0) with false. cbv iota.
    rewrite parseArgs_loop_path by done. cbn [ProjectPath String.eqb parseArgs_loop].
    cbn [FilterText ShowCounts Month]. by apply String.eqb_neq in Hne as ->. }
  rewrite Hparse. cbn [ProjectPath FilterText ShowCounts Month].
  destruct (PostsMissing w (JoinPosts w path)); [done|].
  revert Htoday. unfold v1.parsePostsAndCount, parsePostsAndCount.
  rewrite walkPosts_v1_same by done.
  destruct (walkPosts _ _ _ _) as [[postCounts warnings] [err|]]; [done|].
  cbn [fst]. intros Htoday.
  destruct (Z.of_nat (size postCounts) =? 0); [done|].
  by rewrite (renderCalendars_v1 sortSlice _ (Now w) (NoColor w) (Winsize w)
                (ParseErrText w) postCounts Hperm Hsorted Hwidth Htoday).
Qed.

Lemma default_run_as_before_witness :
  v1.main (earlierWorld worldPosts mergeSort) = main worldPosts.
Proof.
  refine (default_run_as_before worldPosts "blog" mergeSort _ _ _ _ _ _ _ _).
  - intros dates. apply mergeSort_sorts.
  - intros dates. apply mergeSort_sorts.
  - reflexivity.
  - discriminate.
  - reflexivity.
  - vm_compute. split; reflexivity.
  - reflexivity.
  - intros months month Hsel Hin. vm_compute in Hsel. injection Hsel as <-.
    repeat (apply elem_of_cons in Hin as [->|Hin]; [vm_compute; reflexivity|]).
    inversion Hin.
Defined.
